(** * Markdown <-> ADF converter of atlassian-mcp (package [internal/adf])

    A shallow embedding of [from_md.go], [to_md.go] and [utils.go], and of
    what [jira/attachment.go] reads of a parsed document before it uploads.

    - Go strings are byte strings: [string] of the Standard Library, one
      [ascii] per byte.
    - A node ([map[string]any]) is a finite map from keys to dynamically typed
      values; [value] keeps the dynamic type ([int] and [float64] are
      different), because the renderer's type assertions depend on it.
    - The parser reads a process-wide entropy source (clock and random
      bytes) in [GenerateLocalID]; it is threaded as explicit state.
    - Parser loops that the source writes with a cursor are given fuel; a
      run that exhausts every amount of fuel is a run that never returns. *)

From Stdlib Require Import String Ascii List ZArith Lia Bool Arith Permutation.
Import ListNotations.
Local Open Scope list_scope.
Local Open Scope string_scope.

Set Implicit Arguments.
Set Warnings "-register-all,-comment-terminator-in-string".

(** ** Bytes used by the source that cannot be written inside a literal *)

Definition LF : ascii := "010"%char.
Definition TAB : ascii := "009"%char.
Definition DQUOTE : ascii := "034"%char.
Definition nl : string := String LF EmptyString.
Definition tab : string := String TAB EmptyString.
Definition dq : string := String DQUOTE EmptyString.

Definition byte_in (lo hi : nat) (c : ascii) : bool :=
  let n := nat_of_ascii c in (lo <=? n)%nat && (n <=? hi)%nat.

Definition is_digit (c : ascii) : bool := byte_in 48 57 c.
Definition is_lower (c : ascii) : bool := byte_in 97 122 c.
Definition is_upper (c : ascii) : bool := byte_in 65 90 c.

(** ** Package [strings] *)

Module strings.

Fixpoint drop (n : nat) (s : string) : string :=
  match n, s with
  | O, _ => s
  | S n', String _ s' => drop n' s'
  | S _, EmptyString => EmptyString
  end.

Fixpoint take (n : nat) (s : string) : string :=
  match n, s with
  | O, _ => EmptyString
  | S n', String c s' => String c (take n' s')
  | S _, EmptyString => EmptyString
  end.

Definition HasPrefix (s p : string) : bool := String.prefix p s.

Definition TrimPrefix (s p : string) : string :=
  if HasPrefix s p then drop (String.length p) s else s.

Definition HasSuffix (s p : string) : bool :=
  (String.length p <=? String.length s)%nat
  && String.eqb (drop (String.length s - String.length p) s) p.

(** [Index] gives the byte offset of the first occurrence, [None] for -1. *)
Fixpoint Index (s sub : string) : option nat :=
  if String.prefix sub s then Some O
  else match s with
       | EmptyString => None
       | String _ s' => option_map S (Index s' sub)
       end.

Definition Contains (s sub : string) : bool :=
  match Index s sub with Some _ => true | None => false end.

Definition mem (c : ascii) (cutset : string) : bool :=
  existsb (Ascii.eqb c) (list_ascii_of_string cutset).

Fixpoint TrimLeft (s cutset : string) : string :=
  match s with
  | EmptyString => EmptyString
  | String c s' => if mem c cutset then TrimLeft s' cutset else s
  end.

Fixpoint TrimRight (s cutset : string) : string :=
  match s with
  | EmptyString => EmptyString
  | String c s' =>
      match TrimRight s' cutset with
      | EmptyString => if mem c cutset then EmptyString else String c EmptyString
      | r => String c r
      end
  end.

Definition Trim (s cutset : string) : string :=
  TrimRight (TrimLeft s cutset) cutset.

(** Every separator the source splits on is a single byte. *)
Fixpoint Split (s : string) (sep : ascii) : list string :=
  match s with
  | EmptyString => [EmptyString]
  | String c s' =>
      if Ascii.eqb c sep then EmptyString :: Split s' sep
      else match Split s' sep with
           | h :: t => String c h :: t
           | [] => [String c EmptyString]
           end
  end.

Fixpoint SplitN (s : string) (sep : ascii) (n : nat) {struct s} : list string :=
  match n with
  | O => []
  | S O => [s]
  | S n' =>
      match s with
      | EmptyString => [EmptyString]
      | String c s' =>
          if Ascii.eqb c sep then EmptyString :: SplitN s' sep n'
          else match SplitN s' sep n with
               | h :: t => String c h :: t
               | [] => [String c EmptyString]
               end
      end
  end.

Definition Join (elems : list string) (sep : string) : string :=
  String.concat sep elems.

Fixpoint Repeat (s : string) (count : nat) : string :=
  match count with
  | O => EmptyString
  | S n => s ++ Repeat s n
  end.

(** [ReplaceAll] for a one-byte [old], the only use in the source. *)
Fixpoint ReplaceAll (s : string) (old : ascii) (new : string) : string :=
  match s with
  | EmptyString => EmptyString
  | String c s' =>
      if Ascii.eqb c old then new ++ ReplaceAll s' old new
      else String c (ReplaceAll s' old new)
  end.

(** *** [TrimSpace]

    Go trims Unicode white space.  On the UTF-8 bytes these are the six
    ASCII spaces and the encodings of U+0085, U+00A0, U+1680,
    U+2000..U+200A, U+2028, U+2029, U+202F, U+205F and U+3000. *)

Definition bytes (l : list nat) : list ascii := map ascii_of_nat l.

Definition space_encodings : list (list ascii) :=
  map bytes
    ([[9]; [10]; [11]; [12]; [13]; [32];
      [194; 133]; [194; 160]; [225; 154; 128]]
     ++ map (fun k => [226; 128; 128 + k]) (seq 0 11)
     ++ [[226; 128; 168]; [226; 128; 169]; [226; 128; 175];
         [226; 129; 159]; [227; 128; 128]])%nat%list.

Fixpoint list_prefix (p l : list ascii) : bool :=
  match p, l with
  | [], _ => true
  | a :: p', b :: l' => Ascii.eqb a b && list_prefix p' l'
  | _ :: _, [] => false
  end.

Definition leading_space (encs : list (list ascii)) (l : list ascii) : option nat :=
  option_map (@List.length ascii) (find (fun e => list_prefix e l) encs).

Fixpoint strip (encs : list (list ascii)) (fuel : nat) (l : list ascii) : list ascii :=
  match fuel with
  | O => l
  | S fuel' =>
      match leading_space encs l with
      | Some k => strip encs fuel' (skipn k l)
      | None => l
      end
  end.

Definition TrimSpace (s : string) : string :=
  let l := list_ascii_of_string s in
  let l1 := strip space_encodings (List.length l) l in
  let r := rev l1 in
  let r1 := strip (map (@rev ascii) space_encodings) (List.length r) r in
  string_of_list_ascii (rev r1).

End strings.


(** ** Package [regexp]

    The fragment of RE2 syntax the source uses: literals, byte classes,
    star, plus and lazy plus over a class, sequence, alternation, the optional group,
    capturing groups, [^] at the start of a pattern and [$].  Matching is
    leftmost-first, as Go's [regexp] documents it: among the matches starting
    at the leftmost position, the one a backtracking search finds first.
    [rmatch r s] lists, in that order of preference, what remains of [s]
    after each way of matching [r] at its start, with the groups captured.

    The classes are byte classes.  Every class of the source is either a set
    of ASCII bytes or the complement of one, so a multi-byte rune is matched
    by a complemented class byte by byte and by no other. *)

Module regexp.

Inductive regex : Type :=
| Lit (s : string)
| Cls (p : ascii -> bool)
| Star (p : ascii -> bool)
| Plus (p : ascii -> bool)
| PlusLazy (p : ascii -> bool)
| Seq (a b : regex)
| Alt (a b : regex)
| Opt (a : regex)
| Grp (n : nat) (a : regex)
| Eol.

(** [anchored] records a leading [^]. *)
Record Regexp : Type := MustCompile { anchored : bool; body : regex }.

Definition caps : Type := list (nat * string).

Fixpoint star (p : ascii -> bool) (s : string) : list string :=
  match s with
  | String c s' => if p c then (star p s' ++ [s])%list else [s]
  | EmptyString => [s]
  end.

Fixpoint star_lazy (p : ascii -> bool) (s : string) : list string :=
  s :: match s with
       | String c s' => if p c then star_lazy p s' else []
       | EmptyString => []
       end.

Definition plain (l : list string) : list (string * caps) :=
  map (fun rest => (rest, [])) l.

Fixpoint rmatch (r : regex) (s : string) : list (string * caps) :=
  match r with
  | Lit l =>
      if String.prefix l s then [(strings.drop (String.length l) s, [])] else []
  | Cls p =>
      match s with
      | String c s' => if p c then [(s', [])] else []
      | EmptyString => []
      end
  | Star p => plain (star p s)
  | Plus p =>
      match s with
      | String c s' => if p c then plain (star p s') else []
      | EmptyString => []
      end
  | PlusLazy p =>
      match s with
      | String c s' => if p c then plain (star_lazy p s') else []
      | EmptyString => []
      end
  | Seq a b =>
      flat_map (fun m1 =>
                  map (fun m2 => (fst m2, (snd m1 ++ snd m2)%list)) (rmatch b (fst m1)))
               (rmatch a s)
  | Alt a b => (rmatch a s ++ rmatch b s)%list
  | Opt a => (rmatch a s ++ [(s, [])])%list
  | Grp n a =>
      map (fun m =>
             (fst m,
              (n, strings.take (String.length s - String.length (fst m)) s) :: snd m))
          (rmatch a s)
  | Eol =>
      match s with
      | EmptyString => [(s, [])]
      | String _ _ => []
      end
  end.

Fixpoint ngroups (r : regex) : nat :=
  match r with
  | Seq a b | Alt a b => Nat.max (ngroups a) (ngroups b)
  | Opt a => ngroups a
  | Grp n a => Nat.max n (ngroups a)
  | _ => O
  end.

(** A group that took no part in the match reads as the empty string. *)
Definition group (cs : caps) (n : nat) : string :=
  match find (fun p => Nat.eqb (fst p) n) cs with
  | Some p => snd p
  | None => EmptyString
  end.

(** Leftmost match of [r] in [s], [off] bytes into the text: start offset,
    end offset and groups. *)
Fixpoint find_at (r : regex) (s : string) (off : nat) : option (nat * nat * caps) :=
  match rmatch r s with
  | m :: _ => Some (off, off + (String.length s - String.length (fst m)), snd m)
  | [] =>
      match s with
      | String _ s' => find_at r s' (S off)
      | EmptyString => None
      end
  end.

Definition search (re : Regexp) (s : string) : option (nat * nat * caps) :=
  if anchored re then
    match rmatch (body re) s with
    | m :: _ => Some (O, String.length s - String.length (fst m), snd m)
    | [] => None
    end
  else find_at (body re) s O.

Definition submatches (re : Regexp) (s : string) (m : nat * nat * caps) : list string :=
  let '(b, e, cs) := m in
  strings.take (e - b) (strings.drop b s)
    :: map (group cs) (seq 1 (ngroups (body re))).

Definition MatchString (re : Regexp) (s : string) : bool :=
  match search re s with Some _ => true | None => false end.

Definition FindStringIndex (re : Regexp) (s : string) : option (nat * nat) :=
  option_map fst (search re s).

Definition FindStringSubmatch (re : Regexp) (s : string) : option (list string) :=
  option_map (submatches re s) (search re s).

(** [FindAllStringSubmatch re s (-1)] for a pattern without [^].  The
    patterns it is used with do not match the empty string; an empty match
    would end the scan here. *)
Fixpoint find_all (fuel : nat) (re : Regexp) (s : string) : list (list string) :=
  match fuel with
  | O => []
  | S fuel' =>
      match find_at (body re) s O with
      | Some (b, e, cs) =>
          if (e =? O)%nat then []
          else submatches re s (b, e, cs) :: find_all fuel' re (strings.drop e s)
      | None => []
      end
  end.

Definition FindAllStringSubmatch (re : Regexp) (s : string) : list (list string) :=
  find_all (String.length s) re s.

(** [ReplaceAllString] with a replacement that has no [$] in it. *)
Fixpoint replace_all (fuel : nat) (re : Regexp) (s repl : string) : string :=
  match fuel with
  | O => s
  | S fuel' =>
      match find_at (body re) s O with
      | Some (b, e, _) =>
          if (e =? O)%nat then s
          else strings.take b s ++ repl ++ replace_all fuel' re (strings.drop e s) repl
      | None => s
      end
  end.

Definition ReplaceAllString (re : Regexp) (s repl : string) : string :=
  replace_all (String.length s) re s repl.

(** Classes *)
Definition one_of (set : string) (c : ascii) : bool := strings.mem c set.
Definition none_of (set : string) (c : ascii) : bool := negb (strings.mem c set).
(** [\s] is [[\t\n\f\r ]] *)
Definition space (c : ascii) : bool :=
  existsb (Nat.eqb (nat_of_ascii c)) [9; 10; 12; 13; 32]%nat.
(** [\w] is [[0-9A-Za-z_]] *)
Definition word (c : ascii) : bool :=
  is_digit c || is_upper c || is_lower c || Ascii.eqb c "_"%char.
Definition digit : ascii -> bool := is_digit.
(** [.] is any byte but the line feed *)
Definition dot (c : ascii) : bool := negb (Ascii.eqb c LF).

Fixpoint cat (l : list regex) : regex :=
  match l with
  | [] => Lit EmptyString
  | [r] => r
  | r :: l' => Seq r (cat l')
  end.

End regexp.

Import regexp.

(** ** Dynamically typed values

    [any] as the converter uses it: [nil], [bool], [int], [float64],
    [string], [[]any] and [map[string]any].  A map is an association list
    read by its first binding of a key; [gomap.set] keeps keys unique. *)

(** A [float64], written as the decimal [strconv] prints for it: [FDec m e]
    is [m * 10^e].  Negative zero is not represented. *)
Inductive float64 : Type :=
| FDec (m e : Z)
| FInf (negative : bool)
| FNaN.

Inductive value : Type :=
| VNil
| VBool (b : bool)
| VInt (n : Z)
| VFloat (f : float64)
| VStr (s : string)
| VList (l : list value)
| VMap (m : list (string * value)).

Definition Node : Type := list (string * value).

Module gomap.
Section Ops.
Variable V : Type.

Fixpoint get (m : list (string * V)) (key : string) : option V :=
  match m with
  | [] => None
  | (k, v) :: m' => if String.eqb k key then Some v else get m' key
  end.

Fixpoint set (m : list (string * V)) (key : string) (v : V) : list (string * V) :=
  match m with
  | [] => [(key, v)]
  | (k, v') :: m' =>
      if String.eqb k key then (k, v) :: m' else (k, v') :: set m' key v
  end.
End Ops.
End gomap.

(** [m[key].(string)] with the zero value when the assertion fails *)
Definition get_string (m : Node) (key : string) : string :=
  match gomap.get m key with Some (VStr s) => s | _ => EmptyString end.

(** [m[key].(map[string]any)] *)
Definition get_map (m : Node) (key : string) : option Node :=
  match gomap.get m key with Some (VMap a) => Some a | _ => None end.

(** [m[key]] of a [map[string]string], [""] when absent *)
Definition sget (m : list (string * string)) (key : string) : string :=
  match gomap.get m key with Some s => s | None => EmptyString end.

(** ** Package [fmt] and [strconv]: numbers *)

From Stdlib Require Import DecimalString.

Module fmt.

Definition max_int64 : Z := 9223372036854775807.
Definition min_int64 : Z := -9223372036854775808.

(** 64-bit two's complement wrap-around of [int] arithmetic *)
Definition wrap64 (z : Z) : Z := ((z - min_int64) mod 2 ^ 64 + min_int64)%Z.

(** [%d] *)
Definition d (z : Z) : string := NilZero.string_of_int (Z.to_int z).

Definition digit_val (c : ascii) : Z := Z.of_nat (nat_of_ascii c - 48).

Fixpoint atoi_acc (acc : Z) (s : string) : Z :=
  match s with
  | EmptyString => acc
  | String c s' => atoi_acc (10 * acc + digit_val c)%Z s'
  end.

(** Value of a string of decimal digits *)
Definition atoi (s : string) : Z := atoi_acc 0 s.

Fixpoint span (p : ascii -> bool) (s : string) : string * string :=
  match s with
  | String c s' =>
      if p c then let (a, b) := span p s' in (String c a, b) else (EmptyString, s)
  | EmptyString => (EmptyString, EmptyString)
  end.

Definition all (p : ascii -> bool) (s : string) : bool :=
  forallb p (list_ascii_of_string s).

Definition digit_or_underscore (c : ascii) : bool :=
  is_digit c || Ascii.eqb c "_"%char.

Definition skip_sign (s : string) : bool * string :=
  match s with
  | String "-" s' => (true, s')
  | String "+" s' => (false, s')
  | _ => (false, s)
  end.

(** The white space a scan skips before a number: any Unicode space but the
    line feed, which ends the scan with an error. *)
Definition SkipSpace (s : string) : string :=
  let l := list_ascii_of_string s in
  string_of_list_ascii
    (strings.strip
       (filter (fun e => negb (strings.list_prefix e [LF])) strings.space_encodings)
       (List.length l) l).

(** [Sscanf(s, "%d", &n)] into a 64-bit integer: leading spaces, a sign,
    the longest run of decimal digits (an underscore ends the number: only
    [%v] takes underscores between digits); [None] is the error (no digit, a
    value out of range), which leaves [n] as it was.  What follows the
    number is not read. *)
Definition Sscanf_d (s : string) : option Z :=
  let s0 := SkipSpace s in
  let (neg, s1) := skip_sign s0 in
  let (tok, _) := span is_digit s1 in
  if negb (String.eqb tok EmptyString) then
    let v := if neg then (- atoi tok)%Z else atoi tok in
    if (min_int64 <=? v)%Z && (v <=? max_int64)%Z then Some v else None
  else None.

Definition hex_digit (z : Z) : string :=
  String (ascii_of_nat (Z.to_nat (if (z <? 10)%Z then 48 + z else 87 + z))) EmptyString.

Fixpoint hex_digits (n : nat) (z : Z) : string :=
  match n with
  | O => EmptyString
  | S n' => hex_digits n' (z / 16) ++ hex_digit (z mod 16)
  end.

Fixpoint strip_zeros (s : string) : string :=
  match s with
  | String "0" s' =>
      match s' with
      | EmptyString => s
      | String _ _ => strip_zeros s'
      end
  | _ => s
  end.

(** [%x] of a non-negative integer below [2^64] *)
Definition x (z : Z) : string := strip_zeros (hex_digits 16 z).

(** [%x] of a slice of 8 bytes, given as the 64-bit number they spell *)
Definition x_bytes8 (z : Z) : string := hex_digits 16 (z mod 2 ^ 64).

(** *** [float64] *)

(** [int(f)]: truncation toward zero; out of range the result is
    implementation-defined, [min_int64] on amd64. *)
Definition to_int (f : float64) : Z :=
  match f with
  | FDec m e =>
      let t := if (0 <=? e)%Z then (m * 10 ^ e)%Z else Z.quot m (10 ^ (- e)) in
      if (min_int64 <=? t)%Z && (t <=? max_int64)%Z then t else min_int64
  | _ => min_int64
  end.

Definition positive (f : float64) : bool :=
  match f with
  | FDec m _ => (0 <? m)%Z
  | FInf neg => negb neg
  | FNaN => false
  end.

Definition round_half_even (m e : Z) : Z :=
  if (0 <=? e)%Z then (Z.abs m * 10 ^ e)%Z
  else
    let p := (10 ^ (- e))%Z in
    let q := (Z.abs m / p)%Z in
    let r := (Z.abs m mod p)%Z in
    if (2 * r <? p)%Z then q
    else if (p <? 2 * r)%Z then (q + 1)%Z
    else if Z.even q then q else (q + 1)%Z.

(** [%.0f] *)
Definition f0 (f : float64) : string :=
  match f with
  | FDec m e => (if (m <? 0)%Z then "-" else EmptyString) ++ d (round_half_even m e)
  | FInf neg => if neg then "-Inf" else "+Inf"
  | FNaN => "NaN"
  end.

Fixpoint strip_trailing_zeros (fuel : nat) (m e : Z) : Z * Z :=
  match fuel with
  | O => (m, e)
  | S fuel' =>
      if (m =? 0)%Z then (0, 0)%Z
      else if (m mod 10 =? 0)%Z then strip_trailing_zeros fuel' (m / 10) (e + 1)
      else (m, e)
  end.

Definition pad2 (z : Z) : string :=
  if (z <? 10)%Z then "0" ++ d z else d z.

(** [%v] of a [float64]: [%g] with the shortest digits, [%e] form when
    the decimal exponent is below -4 or at least 6. *)
Definition v_float (f : float64) : string :=
  match f with
  | FInf neg => if neg then "-Inf" else "+Inf"
  | FNaN => "NaN"
  | FDec m0 e0 =>
      let (m, e) := strip_trailing_zeros (Z.to_nat (Z.log2 (Z.abs m0) + 1)) (Z.abs m0) e0 in
      let sign := if (m0 <? 0)%Z then "-" else EmptyString in
      if (m =? 0)%Z then "0"
      else
        let digs := d m in
        let nd := Z.of_nat (String.length digs) in
        let dp := (nd + e)%Z in
        let ex := (dp - 1)%Z in
        sign ++
        if (ex <? -4)%Z || (6 <=? ex)%Z then
          strings.take 1 digs
          ++ (if (1 <? nd)%Z then "." ++ strings.drop 1 digs else EmptyString)
          ++ "e" ++ (if (ex <? 0)%Z then "-" else "+") ++ pad2 (Z.abs ex)
        else if (dp <=? 0)%Z then
          "0." ++ strings.Repeat "0" (Z.to_nat (- dp)) ++ digs
        else if (nd <=? dp)%Z then
          digs ++ strings.Repeat "0" (Z.to_nat (dp - nd))
        else
          strings.take (Z.to_nat dp) digs ++ "." ++ strings.drop (Z.to_nat dp) digs
  end.

(** [Sscanf(s, "%f", &w)]: the token is a sign, digits, a fraction and an
    exponent letter ([e], [E], [p] or [P]) with its own sign and digits;
    [nan] and [inf] are read too.  [None] is the error, which leaves [w] as
    it was: an empty mantissa, an underscore, a [p] exponent (hexadecimal
    mantissas are not modelled) or an exponent without digits. *)
Definition lower (c : ascii) : ascii :=
  if is_upper c then ascii_of_nat (nat_of_ascii c + 32) else c.

Definition lower_prefix (p : string) (s : string) : bool :=
  String.prefix p (string_of_list_ascii (map lower (list_ascii_of_string s))).

Definition Sscanf_f (s : string) : option float64 :=
  let s0 := SkipSpace s in
  if lower_prefix "nan" s0 then Some FNaN
  else
    let (neg, s1) := skip_sign s0 in
    if lower_prefix "inf" s1 then Some (FInf neg)
    else
      let (ip, s2) := span digit_or_underscore s1 in
      let (fp, s3) :=
        match s2 with
        | String "." s2' => span digit_or_underscore s2'
        | _ => (EmptyString, s2)
        end in
      let mant := atoi (ip ++ fp) in
      let m := if neg then (- mant)%Z else mant in
      let e := (- Z.of_nat (String.length fp))%Z in
      if negb (all is_digit (ip ++ fp)) || String.eqb (ip ++ fp) EmptyString then None
      else
        match s3 with
        | String c s4 =>
            if strings.mem c "eE" then
              let (eneg, s5) := skip_sign s4 in
              let (ed, _) := span digit_or_underscore s5 in
              if all is_digit ed && negb (String.eqb ed EmptyString) then
                Some (FDec m (e + (if eneg then - atoi ed else atoi ed)))
              else None
            else if strings.mem c "pP" then None
            else Some (FDec m e)
        | EmptyString => Some (FDec m e)
        end.

End fmt.

(** ** Package [time]: the proleptic Gregorian calendar *)

Module time.
Local Open Scope Z_scope.

Definition days_from_civil (y m d : Z) : Z :=
  let y' := if m <=? 2 then y - 1 else y in
  let era := y' / 400 in
  let yoe := y' - era * 400 in
  let doy := (153 * (if 2 <? m then m - 3 else m + 9) + 2) / 5 + d - 1 in
  let doe := yoe * 365 + yoe / 4 - yoe / 100 + doy in
  era * 146097 + doe - 719468.

Definition civil_from_days (z0 : Z) : Z * Z * Z :=
  let z := z0 + 719468 in
  let era := z / 146097 in
  let doe := z - era * 146097 in
  let yoe := (doe - doe / 1460 + doe / 36524 - doe / 146096) / 365 in
  let doy := doe - (365 * yoe + yoe / 4 - yoe / 100) in
  let mp := (5 * doy + 2) / 153 in
  let d := doy - (153 * mp + 2) / 5 + 1 in
  let m := if mp <? 10 then mp + 3 else mp - 9 in
  (yoe + era * 400 + (if m <=? 2 then 1 else 0), m, d).

Definition isLeap (y : Z) : bool :=
  (y mod 4 =? 0) && (negb (y mod 100 =? 0) || (y mod 400 =? 0)).

Definition daysIn (m y : Z) : Z :=
  if m =? 2 then (if isLeap y then 29 else 28)
  else if (m =? 4) || (m =? 6) || (m =? 9) || (m =? 11) then 30 else 31.

Definition d2 : regex := Seq (Cls digit) (Cls digit).
Definition d4 : regex := Seq d2 d2.

Definition dateRe : Regexp :=
  MustCompile true (cat [Grp 1 d4; Lit "-"; Grp 2 d2; Lit "-"; Grp 3 d2; Eol]).

Definition text (m : list string) (i : Z) : string := nth (Z.to_nat i) m EmptyString.
Definition field (m : list string) (i : Z) : Z := fmt.atoi (text m i).

Definition valid_date (y mo d : Z) : bool :=
  (1 <=? mo) && (mo <=? 12) && (1 <=? d) && (d <=? daysIn mo y).

(** [time.Parse("2006-01-02", s)], as Unix milliseconds (the result is UTC) *)
Definition Parse_date (s : string) : option Z :=
  match FindStringSubmatch dateRe s with
  | Some m =>
      if valid_date (field m 1) (field m 2) (field m 3)
      then Some (days_from_civil (field m 1) (field m 2) (field m 3) * 86400000)
      else None
  | None => None
  end.

(** [time.Parse(time.RFC3339, s)], as Unix milliseconds: the layout
    [2006-01-02T15:04:05Z07:00], in which the hour may have one digit and a
    fraction of a second may follow the seconds after [.] or [,]. *)
Definition rfc3339Re : Regexp :=
  MustCompile true
    (cat [Grp 1 d4; Lit "-"; Grp 2 d2; Lit "-"; Grp 3 d2; Lit "T";
          Grp 4 (Alt d2 (Cls digit)); Lit ":"; Grp 5 d2; Lit ":"; Grp 6 d2;
          Opt (Seq (Cls (one_of ".,")) (Grp 7 (Plus digit)));
          Alt (Lit "Z")
              (cat [Grp 8 (Cls (one_of "+-")); Grp 9 d2; Lit ":"; Grp 10 d2]);
          Eol]).

Definition Parse_RFC3339 (s : string) : option Z :=
  match FindStringSubmatch rfc3339Re s with
  | Some m =>
      let f := field m in
      let millis := fmt.atoi (strings.take 3%nat (text m 7 ++ "000")%string) in
      let off := (f 9 * 3600 + f 10 * 60) * (if String.eqb (text m 8) "-" then -1 else 1) in
      if valid_date (f 1) (f 2) (f 3) && (f 4 <? 24) && (f 5 <? 60) && (f 6 <? 60)
         && (f 9 <=? 24) && (f 10 <=? 60)
      then Some ((days_from_civil (f 1) (f 2) (f 3) * 86400
                  + f 4 * 3600 + f 5 * 60 + f 6 - off) * 1000 + millis)
      else None
  | None => None
  end.

(** The zone of the process ([time.Local]): the offset from UTC, in
    seconds, in force at a Unix time. *)
Definition Location : Type := Z -> Z.
Definition UTC : Location := fun _ => 0.

Definition zero_pad (width : nat) (s : string) : string :=
  (strings.Repeat "0" (width - String.length s) ++ s)%string.

(** [time.UnixMilli(ms).Format("2006-01-02")]: [UnixMilli] gives a time in
    the local zone, and [Format] prints the date of that zone. *)
Definition Format_date (loc : Location) (ms : Z) : string :=
  let sec := ms / 1000 in
  let '(y, m, d) := civil_from_days ((sec + loc sec) / 86400) in
  ((if (y <? 0)%Z then "-" else EmptyString) ++ zero_pad 4 (fmt.d (Z.abs y))
   ++ "-" ++ zero_pad 2 (fmt.d m) ++ "-" ++ zero_pad 2 (fmt.d d))%string.

End time.

(** * utils.go *)

(** ** The patterns *)

(** "^~~~(\w+)(?:\s+(.*))?$" *)
Definition FenceBlockRe : Regexp :=
  MustCompile true
    (cat [Lit "~~~"; Grp 1 (Plus word);
          Opt (Seq (Plus space) (Grp 2 (Star dot))); Eol]).

(** "^~~~\s*$" *)
Definition FenceCloseRe : Regexp :=
  MustCompile true (cat [Lit "~~~"; Star space; Eol]).

(** "<!--\s*adf:(\w+)\s+(.+?)\s*-->" *)
Definition MetadataCommentRe : Regexp :=
  MustCompile false
    (cat [Lit "<!--"; Star space; Lit "adf:"; Grp 1 (Plus word); Plus space;
          Grp 2 (PlusLazy dot); Star space; Lit "-->"]).

(** "(\w+)=(?:Q([^Q]*)Q|([^\sQ]+))", where Q stands for the double quote *)
Definition AttrPairRe : Regexp :=
  MustCompile false
    (cat [Grp 1 (Plus word); Lit "=";
          Alt (cat [Lit dq; Grp 2 (Star (none_of dq)); Lit dq])
              (Grp 3 (Plus (fun c => negb (space c || Ascii.eqb c DQUOTE))))]).

(** "\{user:([^}]+)\}" *)
Definition ExtMentionRe : Regexp :=
  MustCompile false (cat [Lit "{user:"; Grp 1 (Plus (none_of "}")); Lit "}"]).

(** "\{date:([^}]+)\}" *)
Definition ExtDateRe : Regexp :=
  MustCompile false (cat [Lit "{date:"; Grp 1 (Plus (none_of "}")); Lit "}"]).

(** "\{status:([^|}]+)(?:\|([^}]+))?\}" *)
Definition ExtStatusRe : Regexp :=
  MustCompile false
    (cat [Lit "{status:"; Grp 1 (Plus (none_of "|}"));
          Opt (Seq (Lit "|") (Grp 2 (Plus (none_of "}")))); Lit "}"]).

(** "\{card:([^}]+)\}" *)
Definition ExtCardRe : Regexp :=
  MustCompile false (cat [Lit "{card:"; Grp 1 (Plus (none_of "}")); Lit "}"]).

(** "\{color:([^}]+)\}(.+?)\{color\}" *)
Definition ExtColorRe : Regexp :=
  MustCompile false
    (cat [Lit "{color:"; Grp 1 (Plus (none_of "}")); Lit "}";
          Grp 2 (PlusLazy dot); Lit "{color}"]).

(** ":([a-z0-9_+-]+):" *)
Definition EmojiCodeRe : Regexp :=
  MustCompile false
    (cat [Lit ":"; Grp 1 (Plus (fun c => is_lower c || is_digit c || one_of "_+-" c));
          Lit ":"]).

(** "^(\s*)- \[([ xX])\]\s+(.*)$" *)
Definition TaskItemRe : Regexp :=
  MustCompile true
    (cat [Grp 1 (Star space); Lit "- ["; Grp 2 (Cls (one_of " xX")); Lit "]";
          Plus space; Grp 3 (Star dot); Eol]).

(** ** Attributes *)

Definition ParseAttrs (attrStr : string) : list (string * string) :=
  fold_left
    (fun result m =>
       if (4 <=? List.length m)%nat then
         let value := if String.eqb (nth 2 m EmptyString) EmptyString
                      then nth 3 m EmptyString else nth 2 m EmptyString in
         gomap.set result (nth 1 m EmptyString) value
       else result)
    (FindAllStringSubmatch AttrPairRe attrStr) [].

Definition FormatAttrsForFence (attrs : Node) (keys : list string) : string :=
  let parts :=
    flat_map
      (fun key =>
         match gomap.get attrs key with
         | Some (VStr v) =>
             if String.eqb v EmptyString then [] else [(key ++ "=" ++ dq ++ v ++ dq)%string]
         | Some (VFloat v) => [(key ++ "=" ++ dq ++ fmt.v_float v ++ dq)%string]
         | Some (VInt v) => [(key ++ "=" ++ dq ++ fmt.d v ++ dq)%string]
         | Some (VBool v) =>
             [(key ++ "=" ++ dq ++ (if v then "true" else "false") ++ dq)%string]
         | _ => []
         end)
      keys in
  match parts with
  | [] => EmptyString
  | _ => " " ++ strings.Join parts " "
  end.

(** ** Escapes *)

(** The bytes [EscapeMarkdown] puts a backslash before.  Every old string of
    its replacer is one byte, so each byte of the text is replaced on its
    own. *)
Definition escaped : string := "\`*_{}[]()#+-.!|".

Fixpoint EscapeMarkdown (text : string) : string :=
  match text with
  | EmptyString => EmptyString
  | String c text' =>
      if strings.mem c escaped then String "\" (String c (EscapeMarkdown text'))
      else String c (EscapeMarkdown text')
  end.

(** The bytes [UnescapeMarkdown] takes a backslash from *)
Definition unescaped : string := "\*_{}[]()#+-.!|".

Fixpoint UnescapeMarkdown (text : string) : string :=
  match text with
  | EmptyString => EmptyString
  | String c text' =>
      match text' with
      | String next text'' =>
          if Ascii.eqb c "\" && strings.mem next unescaped
          then String next (UnescapeMarkdown text'')
          else String c (UnescapeMarkdown text')
      | EmptyString => String c EmptyString
      end
  end.

(** ** Identifiers

    [GenerateLocalID] reads the clock and eight random bytes.  The world
    gives, for each call in turn, [time.Now().UnixNano()] and the bytes (as
    the 64-bit number they spell). *)

Definition World : Type := nat -> Z * Z.

Definition GenerateLocalID (w : World) : string * World :=
  let nanos := fst (w O) in
  let b := snd (w O) in
  (fmt.x (Z.land nanos 4294967295) ++ "-" ++ fmt.x_bytes8 b, fun k => w (S k)).

(** ** Timestamps *)

Definition IsAllDigits (s : string) : bool :=
  fmt.all is_digit s && (0 <? String.length s)%nat.

Definition ParseTimestamp (input0 : string) : string :=
  let input := strings.TrimSpace input0 in
  if (10 <=? String.length input)%nat && IsAllDigits input then input
  else match time.Parse_date input with
       | Some ms => fmt.d ms
       | None =>
           match time.Parse_RFC3339 input with
           | Some ms => fmt.d ms
           | None => input
           end
       end.

Definition FormatTimestamp (loc : time.Location) (timestamp0 : string) : string :=
  let timestamp := strings.TrimSpace timestamp0 in
  match fmt.Sscanf_d timestamp with
  | Some ms => time.Format_date loc ms
  | None => timestamp
  end.

(** ** Indentation, status attributes, white space *)

Fixpoint leading_spaces (line : string) : nat :=
  match line with
  | String c line' =>
      if Ascii.eqb c " "%char then 1 + leading_spaces line'
      else if Ascii.eqb c TAB then 2 + leading_spaces line'
      else O
  | EmptyString => O
  end.

Definition GetIndentLevel (line : string) : nat := leading_spaces line / 2.

(** The loop of [TrimIndent], [removed] columns into the indentation *)
Fixpoint trimIndentFrom (toRemove removed : Z) (line : string) : string :=
  match line with
  | EmptyString => EmptyString
  | String c line' =>
      if (toRemove <=? removed)%Z then line
      else if Ascii.eqb c " "%char then trimIndentFrom toRemove (removed + 1) line'
      else if Ascii.eqb c TAB then trimIndentFrom toRemove (removed + 2) line'
      else line
  end.

Definition TrimIndent (line : string) (levels : Z) : string :=
  trimIndentFrom (fmt.wrap64 (levels * 2)) 0 line.

Definition SplitStatusAttrs (attrStr : string) : list (string * string) :=
  if String.eqb attrStr EmptyString then []
  else
    fold_left
      (fun result pair =>
         match strings.SplitN pair "="%char 2 with
         | [k; v] => gomap.set result (strings.TrimSpace k) (strings.TrimSpace v)
         | _ => result
         end)
      (strings.Split attrStr ","%char) [].

(** "\n{3,}" *)
Definition blankLinesRe : Regexp :=
  MustCompile false (Seq (Lit (nl ++ nl ++ nl)) (Star (Ascii.eqb LF))).

Definition NormalizeWhitespace (text0 : string) : string :=
  let text := ReplaceAllString blankLinesRe text0 (nl ++ nl) in
  let lines := map (fun line => strings.TrimRight line (" " ++ tab))
                   (strings.Split text LF) in
  strings.TrimSpace (strings.Join lines nl).

(** * to_md.go: document to Markdown

    The renderers call one another through the nodes of the tree, always on
    a child of the node in hand.  They are written here over [self], the
    renderer of a child, which [renderTree] then defines by recursion on the
    tree. *)

(** Which renderer a child is handed to *)
Inductive entry : Type := ENode | EBulletList | EOrderedList | ETaskList.

(** [for i, x := range l], threading what the loop body updates *)
Fixpoint range_from (A St : Type) (body : St -> nat -> A -> St) (i : nat) (l : list A)
    (s : St) : St :=
  match l with
  | [] => s
  | x :: l' => range_from body (S i) l' (body s i x)
  end.

Definition range (A St : Type) (l : list A) (s : St) (body : St -> nat -> A -> St) : St :=
  range_from body O l s.

(** [append(l, x)] *)
Definition append (A : Type) (l : list A) (x : A) : list A := (l ++ [x])%list.

(** [content, ok := node["content"].([]any)]: [k content] when [ok] *)
Definition with_content (A : Type) (node : Node) (absent : A) (k : list value -> A) : A :=
  (fix lookup (m : Node) : A :=
     match m with
     | [] => absent
     | (key, v) :: m' =>
         if String.eqb key "content"
         then match v with VList l => k l | _ => absent end
         else lookup m'
     end) node.

(** What the first pass of [applyMarks] collects *)
Record markFlags : Type := MarkFlags {
  hasCode : bool; hasLink : bool; hasEm : bool; hasStrong : bool;
  hasStrike : bool; hasUnderline : bool; hasSubsup : bool;
  linkHref : string; linkTitle : string;
  textColor : string; bgColor : string; subType : string
}.

Definition noMarks : markFlags :=
  MarkFlags false false false false false false false
            EmptyString EmptyString EmptyString EmptyString EmptyString.

Definition scanMark (f : markFlags) (mark : value) : markFlags :=
  match mark with
  | VMap markMap =>
      let markType := get_string markMap "type" in
      let attrs := match get_map markMap "attrs" with Some a => a | None => [] end in
      let '(MarkFlags co li em st sk un su href title tc bg sub) := f in
      if String.eqb markType "code" then MarkFlags true li em st sk un su href title tc bg sub
      else if String.eqb markType "link" then
        MarkFlags co true em st sk un su (get_string attrs "href") (get_string attrs "title") tc bg sub
      else if String.eqb markType "em" then MarkFlags co li true st sk un su href title tc bg sub
      else if String.eqb markType "strong" then MarkFlags co li em true sk un su href title tc bg sub
      else if String.eqb markType "strike" then MarkFlags co li em st true un su href title tc bg sub
      else if String.eqb markType "underline" then MarkFlags co li em st sk true su href title tc bg sub
      else if String.eqb markType "textColor" then
        MarkFlags co li em st sk un su href title (get_string attrs "color") bg sub
      else if String.eqb markType "backgroundColor" then
        MarkFlags co li em st sk un su href title tc (get_string attrs "color") sub
      else if String.eqb markType "subsup" then
        MarkFlags co li em st sk un true href title tc bg (get_string attrs "type")
      else f
  | _ => f
  end.

Definition wrapMarks (f : markFlags) (text : string) : string :=
  let result := text in
  let result := if hasCode f then "`" ++ result ++ "`" else result in
  let result :=
    if hasLink f then
      if negb (String.eqb (linkTitle f) EmptyString)
      then "[" ++ result ++ "](" ++ linkHref f ++ " " ++ dq ++ linkTitle f ++ dq ++ ")"
      else "[" ++ result ++ "](" ++ linkHref f ++ ")"
    else result in
  let result := if hasEm f then "*" ++ result ++ "*" else result in
  let result := if hasStrong f then "**" ++ result ++ "**" else result in
  let result := if hasStrike f then "~~" ++ result ++ "~~" else result in
  let result := if hasUnderline f then "<u>" ++ result ++ "</u>" else result in
  let result :=
    if negb (String.eqb (textColor f) EmptyString)
    then "{color:" ++ textColor f ++ "}" ++ result ++ "{color}" else result in
  let result :=
    if negb (String.eqb (bgColor f) EmptyString)
    then "<mark style=" ++ dq ++ "background:" ++ bgColor f ++ dq ++ ">" ++ result ++ "</mark>"
    else result in
  if hasSubsup f then
    if String.eqb (subType f) "sub" then "<sub>" ++ result ++ "</sub>"
    else if String.eqb (subType f) "sup" then "<sup>" ++ result ++ "</sup>"
    else result
  else result.

Definition applyMarks (text : string) (marks : list value) : string :=
  wrapMarks (fold_left scanMark marks noMarks) text.

Definition renderText (node : Node) : string :=
  let text := get_string node "text" in
  if String.eqb text EmptyString then EmptyString
  else match gomap.get node "marks" with
       | Some (VList (m :: marks)) => applyMarks text (m :: marks)
       | _ => text
       end.

Definition renderMedia (node : Node) : string :=
  match get_map node "attrs" with
  | None => "[attachment]"
  | Some attrs =>
      let id := get_string attrs "id" in
      let collection := get_string attrs "collection" in
      let mediaType := get_string attrs "type" in
      let alt := get_string attrs "alt" in
      let alt := if String.eqb alt EmptyString then "attachment" else alt in
      if negb (String.eqb id EmptyString)
      then "![" ++ alt ++ "](jira-media:" ++ id ++ ":" ++ collection ++ ":" ++ mediaType ++ ")"
      else "[" ++ alt ++ "]"
  end.

Definition renderEmoji (node : Node) : string :=
  match get_map node "attrs" with
  | None => EmptyString
  | Some attrs =>
      match gomap.get attrs "shortName", gomap.get attrs "text" with
      | Some (VStr (String c s)), _ =>
          let shortName := String c s in
          if strings.HasPrefix shortName ":" && strings.HasSuffix shortName ":"
          then shortName else ":" ++ shortName ++ ":"
      | _, Some (VStr text) => text
      | _, _ => EmptyString
      end
  end.

Definition renderMention (node : Node) : string :=
  match get_map node "attrs" with
  | None => "@unknown"
  | Some attrs =>
      let id := get_string attrs "id" in
      let text := get_string attrs "text" in
      let displayName := strings.TrimPrefix text "@" in
      let displayName := if String.eqb displayName EmptyString then id else displayName in
      if negb (String.eqb id EmptyString)
      then "@[" ++ displayName ++ "](accountId:" ++ id ++ ")"
      else if negb (String.eqb text EmptyString) then text
      else "@unknown"
  end.

Definition renderStatus (node : Node) : string :=
  match get_map node "attrs" with
  | None => EmptyString
  | Some attrs =>
      let text := get_string attrs "text" in
      let color := get_string attrs "color" in
      if String.eqb text EmptyString then EmptyString
      else if negb (String.eqb color EmptyString)
           then "{status:" ++ text ++ "|color=" ++ color ++ "}"
           else "{status:" ++ text ++ "}"
  end.

Definition renderInlineCard (node : Node) : string :=
  match get_map node "attrs" with
  | None => EmptyString
  | Some attrs =>
      match gomap.get attrs "url" with
      | Some (VStr url) => "{card:" ++ url ++ "}"
      | _ => EmptyString
      end
  end.

Definition taskCheckbox (itemMap : Node) : string :=
  let state :=
    match get_map itemMap "attrs" with
    | Some attrs =>
        match gomap.get attrs "state" with Some (VStr s) => s | _ => "TODO" end
    | None => "TODO"
    end in
  if String.eqb state "DONE" then "[x]" else "[ ]".

Section Renderers.

(** The zone of the process, read by [FormatTimestamp] *)
Variable loc : time.Location.

(** The renderer of a child node *)
Variable self : value -> entry -> nat -> string.

Definition renderDate (node : Node) : string :=
  match get_map node "attrs" with
  | None => EmptyString
  | Some attrs =>
      let timestamp := get_string attrs "timestamp" in
      if String.eqb timestamp EmptyString then EmptyString
      else "{date:" ++ FormatTimestamp loc timestamp ++ "}"
  end.

(** [renderContent]: the children's renderings, one after the other *)
Definition renderContent (node : Node) : string :=
  with_content node EmptyString (fun content =>
    range content EmptyString (fun sb _ child =>
      match child with
      | VMap _ => sb ++ self child ENode 0
      | _ => sb
      end)).

(** [renderBlockContent]: the non-empty renderings, a blank line between *)
Definition renderBlockContent (node : Node) : string :=
  with_content node EmptyString (fun content =>
    strings.Join
      (range content [] (fun parts _ child =>
         match child with
         | VMap _ =>
             let rendered := self child ENode 0 in
             if negb (String.eqb rendered EmptyString)
             then append parts rendered else parts
         | _ => parts
         end))
      (nl ++ nl)).

Definition renderParagraph (node : Node) : string :=
  let text := renderContent node in
  match get_map node "attrs" with
  | Some (a :: attrs) =>
      let attrStr := FormatAttrsForFence (a :: attrs) ["textAlign"] in
      if negb (String.eqb attrStr EmptyString)
      then "<!-- adf:paragraph" ++ attrStr ++ " -->" ++ nl ++ text
      else text
  | _ => text
  end.

Definition renderHeading (node : Node) : string :=
  let level : Z :=
    match get_map node "attrs" with
    | Some attrs =>
        match gomap.get attrs "level" with
        | Some (VFloat l) => fmt.to_int l
        | _ => 1%Z
        end
    | None => 1%Z
    end in
  let level := if (level <? 1)%Z then 1%Z else if (6 <? level)%Z then 6%Z else level in
  let prefix := strings.Repeat "#" (Z.to_nat level) in
  let text := renderContent node in
  let plain := prefix ++ " " ++ text in
  match get_map node "attrs" with
  | Some attrs =>
      let customAttrs := filter (fun kv => negb (String.eqb (fst kv) "level")) attrs in
      match customAttrs with
      | _ :: _ =>
          let attrStr := FormatAttrsForFence customAttrs ["id"; "textAlign"] in
          if negb (String.eqb attrStr EmptyString)
          then "<!-- adf:heading" ++ attrStr ++ " -->" ++ nl ++ prefix ++ " " ++ text
          else plain
      | [] => plain
      end
  | None => plain
  end.

(** [renderListItemContent]: the item's own text, then its nested lists on
    the lines that follow, one level deeper *)
Definition renderListItemContent (node : Node) (depth : nat) : string :=
  with_content node EmptyString (fun content =>
    let '(parts, nestedLists) :=
      range content ([], []) (fun acc i child =>
        let '(parts, nestedLists) := acc in
        match child with
        | VMap childMap =>
            let childType := get_string childMap "type" in
            if String.eqb childType "paragraph" then
              let text := renderContent childMap in
              if (i =? 0)%nat then (append parts text, nestedLists)
              else (append parts (nl ++ strings.Repeat "  " (depth + 1) ++ text),
                    nestedLists)
            else if String.eqb childType "bulletList" then
              (parts, append nestedLists (self child EBulletList (depth + 1)))
            else if String.eqb childType "orderedList" then
              (parts, append nestedLists (self child EOrderedList (depth + 1)))
            else if String.eqb childType "taskList" then
              (parts, append nestedLists (self child ETaskList (depth + 1)))
            else (append parts (self child ENode (depth + 1)), nestedLists)
        | _ => acc
        end) in
    let result := strings.Join parts EmptyString in
    let result :=
      match nestedLists with
      | _ :: _ => result ++ nl ++ strings.Join nestedLists nl
      | [] => result
      end in
    strings.TrimRight result nl).

Definition renderBulletList (node : Node) (depth : nat) : string :=
  with_content node EmptyString (fun content =>
    let indent := strings.Repeat "  " depth in
    strings.Join
      (range content [] (fun lines _ item =>
         match item with
         | VMap itemMap =>
             let itemContent := renderListItemContent itemMap depth in
             append lines (indent ++ "- " ++ itemContent)
         | _ => lines
         end))
      nl).

Definition renderOrderedList (node : Node) (depth : nat) : string :=
  with_content node EmptyString (fun content =>
    let startOrder : Z :=
      match get_map node "attrs" with
      | Some attrs =>
          match gomap.get attrs "order" with
          | Some (VFloat order) => fmt.to_int order
          | _ => 1%Z
          end
      | None => 1%Z
      end in
    let indent := strings.Repeat "  " depth in
    strings.Join
      (range content [] (fun lines i item =>
         match item with
         | VMap itemMap =>
             let itemContent := renderListItemContent itemMap depth in
             append lines (indent ++ fmt.d (fmt.wrap64 (startOrder + Z.of_nat i))
                        ++ ". " ++ itemContent)
         | _ => lines
         end))
      nl).

Definition renderTaskList (node : Node) (depth : nat) : string :=
  with_content node EmptyString (fun content =>
    let indent := strings.Repeat "  " depth in
    strings.Join
      (range content [] (fun lines _ item =>
         match item with
         | VMap itemMap =>
             let itemContent := renderContent itemMap in
             append lines (indent ++ "- " ++ taskCheckbox itemMap ++ " " ++ itemContent)
         | _ => lines
         end))
      nl).

Definition renderTaskItem (node : Node) (depth : nat) : string :=
  taskCheckbox node ++ " " ++ renderContent node.

Definition renderCodeBlock (node : Node) : string :=
  let lang :=
    match get_map node "attrs" with
    | Some attrs => get_string attrs "language"
    | None => EmptyString
    end in
  "```" ++ lang ++ nl ++ renderContent node ++ nl ++ "```".

Definition renderBlockquote (node : Node) : string :=
  let content := renderContent node in
  let lines := strings.Split (strings.TrimRight content nl) LF in
  strings.Join (map (fun line => "> " ++ line) lines) nl.

Definition renderPanel (node : Node) : string :=
  let panelType :=
    match get_map node "attrs" with
    | Some attrs =>
        match gomap.get attrs "panelType" with Some (VStr pt) => pt | _ => "info" end
    | None => "info"
    end in
  let content := strings.TrimSpace (renderBlockContent node) in
  "~~~panel type=" ++ panelType ++ nl ++ content ++ nl ++ "~~~".

Definition renderExpand (node : Node) : string :=
  let title :=
    match get_map node "attrs" with
    | Some attrs => get_string attrs "title"
    | None => EmptyString
    end in
  let content := strings.TrimSpace (renderBlockContent node) in
  if negb (String.eqb title EmptyString)
  then "~~~expand title=" ++ dq ++ title ++ dq ++ nl ++ content ++ nl ++ "~~~"
  else "~~~expand" ++ nl ++ content ++ nl ++ "~~~".

Definition tableLine (row : list string) : string :=
  "| " ++ strings.Join row " | " ++ " |".

Definition padRow (row : list string) (colCount : nat) : list string :=
  (row ++ repeat EmptyString (colCount - List.length row))%list.

Definition renderTable (node : Node) : string :=
  with_content node EmptyString (fun content =>
    match content with
    | [] => EmptyString
    | _ :: _ =>
        (* Extract all rows and cells *)
        let '(rows, isHeaderRow) :=
          range content ([], []) (fun acc _ row =>
            match row with
            | VMap rowMap =>
                with_content rowMap acc (fun rowContent =>
                  let '(cells, hasHeader) :=
                    range rowContent ([], false) (fun st _ cell =>
                      match cell with
                      | VMap cellMap =>
                          let cellType := get_string cellMap "type" in
                          let cellText := strings.TrimSpace (renderContent cellMap) in
                          let cellText := strings.ReplaceAll cellText LF " " in
                          let cellText := strings.ReplaceAll cellText "|" "\|" in
                          (append (fst st) cellText,
                           snd st || String.eqb cellType "tableHeader")
                      | _ => st
                      end) in
                  (append (fst acc) cells, append (snd acc) hasHeader))
            | _ => acc
            end) in
        match rows with
        | [] => EmptyString
        | _ :: _ =>
            let colCount := fold_left (fun c row => Nat.max c (List.length row)) rows O in
            let sep := tableLine (repeat "---" colCount) in
            let sb :=
              range (combine rows isHeaderRow) EmptyString (fun sb _ r =>
                let row := padRow (fst r) colCount in
                let sb := sb ++ tableLine row ++ nl in
                if snd r
                then sb ++ tableLine (repeat "---" (List.length row)) ++ nl
                else sb) in
            let sb :=
              match isHeaderRow with
              | false :: _ =>
                  match strings.Split (strings.TrimRight sb nl) LF with
                  | first :: rest =>
                      first ++ nl ++ sep ++ nl
                      ++ String.concat EmptyString (map (fun line => line ++ nl) rest)
                  | [] => sb
                  end
              | _ => sb
              end in
            strings.TrimRight sb nl
        end
    end).

Definition renderMediaSingle (node : Node) : string :=
  let attrs := match get_map node "attrs" with Some a => a | None => [] end in
  let layout := get_string attrs "layout" in
  let width :=
    match gomap.get attrs "width" with
    | Some (VFloat w) => fmt.f0 w
    | _ => EmptyString
    end in
  let widthType := get_string attrs "widthType" in
  let mediaContent := renderContent node in
  let attrParts : list string := [] in
  let attrParts :=
    if negb (String.eqb layout EmptyString)
    then append attrParts ("layout=" ++ layout) else attrParts in
  let attrParts :=
    if negb (String.eqb width EmptyString) then
      let attrParts := append attrParts ("width=" ++ width) in
      if negb (String.eqb widthType EmptyString)
      then append attrParts ("widthType=" ++ widthType) else attrParts
    else attrParts in
  let attrStr :=
    match attrParts with
    | _ :: _ => " " ++ strings.Join attrParts " "
    | [] => EmptyString
    end in
  "~~~mediaSingle" ++ attrStr ++ nl ++ strings.TrimSpace mediaContent ++ nl ++ "~~~".

Definition renderMediaGroup (node : Node) : string :=
  "~~~mediaGroup" ++ nl ++ strings.TrimSpace (renderContent node) ++ nl ++ "~~~".

(** The node kinds [renderADFNode] has a case for *)
Definition recognized : list string :=
  ["paragraph"; "text"; "hardBreak"; "heading"; "bulletList"; "orderedList";
   "taskList"; "listItem"; "taskItem"; "codeBlock"; "blockquote"; "rule";
   "panel"; "expand"; "nestedExpand"; "table"; "mediaSingle"; "mediaGroup";
   "media"; "emoji"; "mention"; "status"; "date"; "inlineCard"].

Definition renderADFNode (node : Node) (depth : nat) : string :=
  let nodeType := get_string node "type" in
  let case := String.eqb nodeType in
  if case "paragraph" then renderParagraph node
  else if case "text" then renderText node
  else if case "hardBreak" then "  " ++ nl
  else if case "heading" then renderHeading node
  else if case "bulletList" then renderBulletList node depth
  else if case "orderedList" then renderOrderedList node depth
  else if case "taskList" then renderTaskList node depth
  else if case "listItem" then renderListItemContent node depth
  else if case "taskItem" then renderTaskItem node depth
  else if case "codeBlock" then renderCodeBlock node
  else if case "blockquote" then renderBlockquote node
  else if case "rule" then "---"
  else if case "panel" then renderPanel node
  else if case "expand" || case "nestedExpand" then renderExpand node
  else if case "table" then renderTable node
  else if case "mediaSingle" then renderMediaSingle node
  else if case "mediaGroup" then renderMediaGroup node
  else if case "media" then renderMedia node
  else if case "emoji" then renderEmoji node
  else if case "mention" then renderMention node
  else if case "status" then renderStatus node
  else if case "date" then renderDate node
  else if case "inlineCard" then renderInlineCard node
  else renderContent node.

Definition renderADFDocument (doc : Node) : string :=
  with_content doc EmptyString (fun content =>
    NormalizeWhitespace
      (strings.Join
         (range content [] (fun parts _ node =>
            match node with
            | VMap nodeMap =>
                let rendered := renderADFNode nodeMap 0 in
                if negb (String.eqb rendered EmptyString)
                then append parts rendered else parts
            | _ => parts
            end))
         (nl ++ nl))).

End Renderers.

(** The renderer of a child, by recursion on the tree *)
Fixpoint renderTree (loc : time.Location) (v : value) (e : entry) (depth : nat) {struct v}
    : string :=
  match v with
  | VMap node =>
      match e with
      | ENode => renderADFNode loc (renderTree loc) node depth
      | EBulletList => renderBulletList (renderTree loc) node depth
      | EOrderedList => renderOrderedList (renderTree loc) node depth
      | ETaskList => renderTaskList (renderTree loc) node depth
      end
  | _ => EmptyString
  end.

Definition ToMarkdown (loc : time.Location) (doc : Node) : string :=
  renderADFDocument loc (renderTree loc) doc.

(** * from_md.go: Markdown to document

    A computation of the parser reads the entropy of the world and may fail
    to return: [None] stands for a run that is still going when its fuel is
    spent. *)

Definition M (A : Type) : Type := World -> option (A * World).

Definition ret (A : Type) (a : A) : M A := fun w => Some (a, w).

Definition bind (A B : Type) (c : M A) (k : A -> M B) : M B :=
  fun w => match c w with
           | Some (a, w') => k a w'
           | None => None
           end.

Definition spent (A : Type) : M A := fun _ => None.
Arguments spent {A}.

Definition localID : M string := fun w => Some (GenerateLocalID w).

Notation "x <- c ;; k" := (bind c (fun x => k))
  (at level 61, c at next level, right associativity).
Notation "' p <- c ;; k" := (bind c (fun x => let 'p := x in k))
  (at level 61, p pattern, c at next level, right associativity).

(** Node constructors of the source's map literals *)
Definition textNode (text : string) : value :=
  VMap [("type", VStr "text"); ("text", VStr text)].

Definition markedText (text : string) (mark : Node) : value :=
  VMap [("type", VStr "text"); ("text", VStr text); ("marks", VList [VMap mark])].

(** [m[i]] of a submatch slice *)
Definition sub (m : list string) (i : nat) : string := nth i m EmptyString.

(** ** Inline content *)

(** "@\[([^\]]+)\]\(accountId:([^)]+)\)" *)
Definition legacyMentionRe : Regexp :=
  MustCompile false
    (cat [Lit "@["; Grp 1 (Plus (none_of "]")); Lit "](accountId:";
          Grp 2 (Plus (none_of ")")); Lit ")"]).

(** "\[([^\]]+)\]\(([^)\s]+)(?:\s+Q([^Q]+)Q)?\)", where Q stands for the double quote *)
Definition linkRe : Regexp :=
  MustCompile false
    (cat [Lit "["; Grp 1 (Plus (none_of "]")); Lit "](";
          Grp 2 (Plus (fun c => negb (Ascii.eqb c ")"%char || space c)));
          Opt (cat [Plus space; Lit dq; Grp 3 (Plus (none_of dq)); Lit dq]);
          Lit ")"]).

(** "\*\*([^*]+)\*\*|__([^_]+)__" *)
Definition boldRe : Regexp :=
  MustCompile false
    (Alt (cat [Lit "**"; Grp 1 (Plus (none_of "*")); Lit "**"])
         (cat [Lit "__"; Grp 2 (Plus (none_of "_")); Lit "__"])).

(** "\*([^*]+)\*|_([^_]+)_" *)
Definition italicRe : Regexp :=
  MustCompile false
    (Alt (cat [Lit "*"; Grp 1 (Plus (none_of "*")); Lit "*"])
         (cat [Lit "_"; Grp 2 (Plus (none_of "_")); Lit "_"])).

(** "~~([^~]+)~~" *)
Definition strikeRe : Regexp :=
  MustCompile false (cat [Lit "~~"; Grp 1 (Plus (none_of "~")); Lit "~~"]).

(** "`([^`]+)`" *)
Definition codeRe : Regexp :=
  MustCompile false (cat [Lit "`"; Grp 1 (Plus (none_of "`")); Lit "`"]).

(** "<u>([^<]+)</u>" *)
Definition underlineRe : Regexp :=
  MustCompile false (cat [Lit "<u>"; Grp 1 (Plus (none_of "<")); Lit "</u>"]).

(** "<sub>([^<]+)</sub>" *)
Definition subscriptRe : Regexp :=
  MustCompile false (cat [Lit "<sub>"; Grp 1 (Plus (none_of "<")); Lit "</sub>"]).

(** "<sup>([^<]+)</sup>" *)
Definition superscriptRe : Regexp :=
  MustCompile false (cat [Lit "<sup>"; Grp 1 (Plus (none_of "<")); Lit "</sup>"]).

Record inlinePattern : Type := InlinePattern {
  name : string;
  re : Regexp;
  handler : list string -> M value
}.

Definition firstNonEmpty (a b : string) : string :=
  if String.eqb a EmptyString then b else a.

Definition patterns : list inlinePattern :=
  [ InlinePattern "mention" ExtMentionRe (fun m =>
      ret (VMap [("type", VStr "mention");
                 ("attrs", VMap [("id", VStr (sub m 1)); ("text", VStr ("@" ++ sub m 1))])]));
    InlinePattern "date" ExtDateRe (fun m =>
      ret (VMap [("type", VStr "date");
                 ("attrs", VMap [("timestamp", VStr (ParseTimestamp (sub m 1)))])]));
    InlinePattern "status" ExtStatusRe (fun m =>
      id <- localID ;;
      let attrs := [("text", VStr (sub m 1)); ("localId", VStr id)] in
      let attrs :=
        if negb (String.eqb (sub m 2) EmptyString) then
          let color := sget (SplitStatusAttrs (sub m 2)) "color" in
          if negb (String.eqb color EmptyString)
          then gomap.set attrs "color" (VStr color) else attrs
        else attrs in
      ret (VMap [("type", VStr "status"); ("attrs", VMap attrs)]));
    InlinePattern "card" ExtCardRe (fun m =>
      ret (VMap [("type", VStr "inlineCard"); ("attrs", VMap [("url", VStr (sub m 1))])]));
    InlinePattern "emoji" EmojiCodeRe (fun m =>
      ret (VMap [("type", VStr "emoji");
                 ("attrs", VMap [("shortName", VStr (":" ++ sub m 1 ++ ":"))])]));
    InlinePattern "legacyMention" legacyMentionRe (fun m =>
      ret (VMap [("type", VStr "mention");
                 ("attrs", VMap [("id", VStr (sub m 2)); ("text", VStr ("@" ++ sub m 1))])]));
    InlinePattern "link" linkRe (fun m =>
      let attrs := [("href", VStr (sub m 2))] in
      let attrs :=
        if negb (String.eqb (sub m 3) EmptyString)
        then gomap.set attrs "title" (VStr (sub m 3)) else attrs in
      ret (markedText (sub m 1) [("type", VStr "link"); ("attrs", VMap attrs)]));
    InlinePattern "bold" boldRe (fun m =>
      ret (markedText (firstNonEmpty (sub m 1) (sub m 2)) [("type", VStr "strong")]));
    InlinePattern "italic" italicRe (fun m =>
      ret (markedText (firstNonEmpty (sub m 1) (sub m 2)) [("type", VStr "em")]));
    InlinePattern "strike" strikeRe (fun m =>
      ret (markedText (sub m 1) [("type", VStr "strike")]));
    InlinePattern "code" codeRe (fun m =>
      ret (markedText (sub m 1) [("type", VStr "code")]));
    InlinePattern "textColor" ExtColorRe (fun m =>
      ret (markedText (sub m 2)
             [("type", VStr "textColor"); ("attrs", VMap [("color", VStr (sub m 1))])]));
    InlinePattern "underline" underlineRe (fun m =>
      ret (markedText (sub m 1) [("type", VStr "underline")]));
    InlinePattern "subscript" subscriptRe (fun m =>
      ret (markedText (sub m 1)
             [("type", VStr "subsup"); ("attrs", VMap [("type", VStr "sub")])]));
    InlinePattern "superscript" superscriptRe (fun m =>
      ret (markedText (sub m 1)
             [("type", VStr "subsup"); ("attrs", VMap [("type", VStr "sup")])])) ].

(** The inner loop over the patterns: the pattern whose match starts first,
    with that match; a later pattern takes over only with a strictly
    earlier start. *)
Definition earliest (pats : list inlinePattern) (remaining : string)
    : option (nat * (nat * nat)) :=
  range pats None (fun best pi p =>
    match FindStringIndex (re p) remaining with
    | Some loc =>
        match best with
        | None => Some (pi, loc)
        | Some (_, earliestResult) =>
            if (fst loc <? fst earliestResult)%nat then Some (pi, loc) else best
        end
    | None => best
    end).

Definition noPattern : inlinePattern :=
  InlinePattern EmptyString (MustCompile false Eol) (fun _ => ret VNil).

(** The loop [for len(remaining) > 0] of [parseInlineContent] *)
Fixpoint inlineLoop (fuel : nat) (remaining : string) (result : list value)
    : M (list value) :=
  match fuel with
  | O => spent
  | S fuel' =>
      if (String.length remaining =? 0)%nat then ret result
      else
        match earliest patterns remaining with
        | None => ret (append result (textNode remaining))
        | Some (earliestPattern, (b, e)) =>
            let result :=
              if (0 <? b)%nat then append result (textNode (strings.take b remaining))
              else result in
            let matchStr := strings.take (e - b) (strings.drop b remaining) in
            let p := nth earliestPattern patterns noPattern in
            let submatches :=
              match FindStringSubmatch (re p) matchStr with
              | Some m => m
              | None => []
              end in
            node <- handler p submatches ;;
            inlineLoop fuel' (strings.drop e remaining) (append result node)
        end
  end.

Definition parseInlineContent (text : string) : M (list value) :=
  if String.eqb text EmptyString then ret []
  else
    result <- inlineLoop (S (String.length text)) text [] ;;
    match result with
    | [] => ret [textNode text]
    | _ :: _ => ret result
    end.

(** ** Blocks that scan forward only *)

(** "!\[([^\]]*)\]\(([^)]+)\)" *)
Definition imageRe : Regexp :=
  MustCompile false
    (cat [Lit "!["; Grp 1 (Star (none_of "]")); Lit "](";
          Grp 2 (Plus (none_of ")")); Lit ")"]).

(** "^!\[([^\]]*)\]\(([^)]+)\)$" *)
Definition standaloneImageRe : Regexp :=
  MustCompile true (Seq (body imageRe) Eol).

(** "^\d+\.\s" *)
Definition orderedStartRe : Regexp :=
  MustCompile true (cat [Plus digit; Lit "."; Cls space]).

(** "^(\d+)\.\s+(.*)$" *)
Definition orderedRe : Regexp :=
  MustCompile true (cat [Grp 1 (Plus digit); Lit "."; Plus space; Grp 2 (Star dot); Eol]).

Definition isBulletItem (line : string) : bool :=
  strings.HasPrefix line "- " || strings.HasPrefix line "* " || strings.HasPrefix line "+ ".

Definition isRule (line : string) : bool :=
  String.eqb line "---" || String.eqb line "***" || String.eqb line "___".

Definition parseMediaFromImage (alt src : string) : M value :=
  let resolved :=
    if strings.HasPrefix src "jira-media:" then
      match strings.SplitN (strings.TrimPrefix src "jira-media:") ":"%char 3 with
      | [id; collection; type] =>
          Some (VMap [("type", VStr "media");
                      ("attrs", VMap [("id", VStr id); ("collection", VStr collection);
                                      ("type", VStr type); ("alt", VStr alt)])])
      | _ => None
      end
    else None in
  match resolved with
  | Some node => ret node
  | None =>
      (* New image (URL or local path) - create placeholder for upload *)
      id <- localID ;;
      ret (VMap [("type", VStr "media");
                 ("attrs", VMap [("id", VStr ("__PENDING_UPLOAD_" ++ id ++ "__"));
                                 ("type", VStr "file"); ("alt", VStr alt);
                                 ("_source", VStr src)])])
  end.

Definition parseStandaloneImage (alt src : string) : M value :=
  mediaNode <- parseMediaFromImage alt src ;;
  ret (VMap [("type", VStr "mediaSingle");
             ("attrs", VMap [("layout", VStr "align-start")]);
             ("content", VList [mediaNode])]).

Definition parseMediaSingleBlock (attrs : list (string * string)) (content : string)
    : M value :=
  let layout := sget attrs "layout" in
  let layout := if String.eqb layout EmptyString then "align-start" else layout in
  let nodeAttrs := [("layout", VStr layout)] in
  let nodeAttrs :=
    let width := sget attrs "width" in
    if negb (String.eqb width EmptyString) then
      match fmt.Sscanf_f width with
      | Some w =>
          if fmt.positive w then
            let widthType := sget attrs "widthType" in
            let widthType := if String.eqb widthType EmptyString then "pixel" else widthType in
            gomap.set (gomap.set nodeAttrs "width" (VFloat w)) "widthType" (VStr widthType)
          else nodeAttrs
      | None => nodeAttrs
      end
    else nodeAttrs in
  mediaNode <-
    match FindStringSubmatch imageRe content with
    | Some matches => parseMediaFromImage (sub matches 1) (sub matches 2)
    | None => ret (VMap [("type", VStr "media"); ("attrs", VMap [("type", VStr "file")])])
    end ;;
  ret (VMap [("type", VStr "mediaSingle"); ("attrs", VMap nodeAttrs);
             ("content", VList [mediaNode])]).

Fixpoint mediaNodes (matches : list (list string)) : M (list value) :=
  match matches with
  | [] => ret []
  | m :: rest =>
      node <- parseMediaFromImage (sub m 1) (sub m 2) ;;
      nodes <- mediaNodes rest ;;
      ret (node :: nodes)
  end.

Definition parseMediaGroupBlock (content : string) : M value :=
  nodes <- mediaNodes (FindAllStringSubmatch imageRe content) ;;
  ret (VMap [("type", VStr "mediaGroup"); ("content", VList nodes)]).

(** The lines up to the first that satisfies [stop], and how many *)
Fixpoint linesUntil (stop : string -> bool) (rest : list string) : list string :=
  match rest with
  | line :: rest' => if stop line then [] else line :: linesUntil stop rest'
  | [] => []
  end.

Definition parseCodeBlock (lines : list string) (startIdx : nat) : value * nat :=
  let line := nth startIdx lines EmptyString in
  let lang := strings.TrimSpace (strings.TrimPrefix line "```") in
  let codeLines :=
    linesUntil (fun l => strings.HasPrefix l "```") (skipn (startIdx + 1) lines) in
  let i := startIdx + 1 + List.length codeLines in
  (VMap [("type", VStr "codeBlock");
         ("attrs", VMap [("language", VStr lang)]);
         ("content", VList [textNode (strings.Join codeLines nl)])],
   i + 1).

Fixpoint countHashes (line : string) : nat :=
  match line with
  | String "#" line' => S (countHashes line')
  | _ => O
  end.

Definition parseHeading (line : string) (metadata : list (string * string))
    : M (option value) :=
  let level := countHashes line in
  if (level =? 0)%nat || (6 <? level)%nat || (String.length line <=? level)%nat
     || negb (String.eqb (strings.take 1 (strings.drop level line)) " ")
  then ret None
  else
    let headingText := strings.TrimSpace (strings.drop (level + 1) line) in
    let attrs := [("level", VInt (Z.of_nat level))] in
    (* Apply metadata attributes *)
    let attrs := fold_left (fun a kv => gomap.set a (fst kv) (VStr (snd kv))) metadata attrs in
    content <- parseInlineContent headingText ;;
    ret (Some (VMap [("type", VStr "heading"); ("attrs", VMap attrs);
                     ("content", VList content)])).

Definition parseTableRow (line0 : string) : list string :=
  let line := strings.Trim line0 "|" in
  map strings.TrimSpace (strings.Split line "|"%char).

Fixpoint tableCells (cellType : string) (cells : list string) : M (list value) :=
  match cells with
  | [] => ret []
  | cell :: rest =>
      inline <- parseInlineContent cell ;;
      rowContent <- tableCells cellType rest ;;
      ret (VMap [("type", VStr cellType); ("attrs", VMap []);
                 ("content",
                  VList [VMap [("type", VStr "paragraph"); ("content", VList inline)]])]
             :: rowContent)
  end.

(** The loop of [parseTable], from line [i] on; [rest] is [lines[i:]] *)
Fixpoint tableLoop (rest : list string) (i : nat) (isFirstRow : bool) (tableRows : list value)
    : M (list value * nat) :=
  match rest with
  | line :: rest' =>
      if strings.HasPrefix line "|" then
        let rowLine := strings.TrimSpace line in
        (* Skip separator row *)
        if strings.Contains rowLine "---" then tableLoop rest' (i + 1) isFirstRow tableRows
        else
          let cells := parseTableRow rowLine in
          let cellType := if isFirstRow then "tableHeader" else "tableCell" in
          rowContent <- tableCells cellType cells ;;
          tableLoop rest' (i + 1) false
            (append tableRows
               (VMap [("type", VStr "tableRow"); ("content", VList rowContent)]))
      else ret (tableRows, i)
  | [] => ret (tableRows, i)
  end.

Definition parseTable (lines : list string) (startIdx : nat) : M (option value * nat) :=
  ' (tableRows, i) <- tableLoop (skipn startIdx lines) startIdx true [] ;;
  match tableRows with
  | [] => ret (None, i)
  | _ :: _ =>
      ret (Some (VMap [("type", VStr "table");
                       ("attrs", VMap [("isNumberColumnEnabled", VBool false);
                                       ("layout", VStr "default")]);
                       ("content", VList tableRows)]),
           i)
  end.

Fixpoint taskLoop (rest : list string) (i : nat) (items : list value) : M (list value * nat) :=
  match rest with
  | line :: rest' =>
      match FindStringSubmatch TaskItemRe line with
      | None => ret (items, i)
      | Some m =>
          let state :=
            if String.eqb (sub m 2) "x" || String.eqb (sub m 2) "X" then "DONE" else "TODO" in
          let itemText := sub m 3 in
          id <- localID ;;
          content <- parseInlineContent itemText ;;
          taskLoop rest' (i + 1)
            (append items
               (VMap [("type", VStr "taskItem");
                      ("attrs", VMap [("localId", VStr id); ("state", VStr state)]);
                      ("content", VList content)]))
      end
  | [] => ret (items, i)
  end.

Definition parseTaskList (lines : list string) (startIdx : nat) : M (option value * nat) :=
  ' (items, i) <- taskLoop (skipn startIdx lines) startIdx [] ;;
  id <- localID ;;
  ret (Some (VMap [("type", VStr "taskList"); ("attrs", VMap [("localId", VStr id)]);
                   ("content", VList items)]),
       i).

Definition startsBlock (line : string) : bool :=
  strings.HasPrefix line "#" || strings.HasPrefix line "```"
  || strings.HasPrefix line "~~~" || strings.HasPrefix line "> "
  || strings.HasPrefix line "- " || strings.HasPrefix line "* "
  || strings.HasPrefix line "+ " || strings.HasPrefix line "|"
  || isRule line.

(** The loop of [parseParagraph]: the lines taken and the index reached *)
Fixpoint paragraphLoop (rest : list string) (i : nat) (paraLines : list string)
    : list string * nat :=
  match rest with
  | line :: rest' =>
      let trimmed := strings.TrimSpace line in
      let taken := negb (List.length paraLines =? 0)%nat in
      if String.eqb trimmed EmptyString then (paraLines, i + 1)
      else if startsBlock line && taken then (paraLines, i)
      else if MatchString orderedStartRe line && taken then (paraLines, i)
      else if MatchString TaskItemRe line && taken then (paraLines, i)
      else paragraphLoop rest' (i + 1) (append paraLines line)
  | [] => (paraLines, i)
  end.

Definition parseParagraph (lines : list string) (startIdx : nat)
    (metadata : list (string * string)) : M (option value * nat) :=
  let '(paraLines, i) := paragraphLoop (skipn startIdx lines) startIdx [] in
  match paraLines with
  | [] => ret (None, i)
  | _ :: _ =>
      let paraText := strings.Join paraLines nl in
      content <- parseInlineContent paraText ;;
      let node := [("type", VStr "paragraph"); ("content", VList content)] in
      (* Apply metadata attributes *)
      let node :=
        match metadata with
        | _ :: _ =>
            gomap.set node "attrs"
              (VMap (fold_left (fun a kv => gomap.set a (fst kv) (VStr (snd kv))) metadata []))
        | [] => node
        end in
      ret (Some (VMap node), i)
  end.

(** The quoted lines at the head of [rest], unquoted *)
Fixpoint quoteLines (rest : list string) : list string :=
  match rest with
  | line :: rest' =>
      if strings.HasPrefix line "> " then strings.TrimPrefix line "> " :: quoteLines rest'
      else if String.eqb line ">" then EmptyString :: quoteLines rest'
      else []
  | [] => []
  end.

(** The body of a fence opened above [rest], and the lines read, the
    closing fence among them *)
Fixpoint fenceBody (rest : list string) : list string * nat :=
  match rest with
  | line :: rest' =>
      if MatchString FenceCloseRe line then ([], 1)
      else let '(contentLines, n) := fenceBody rest' in (line :: contentLines, n + 1)
  | [] => ([], O)
  end.

(** ** Lists

    [parseBulletList], [parseOrderedList] and [parseListItem] call one
    another, and each runs a loop with a cursor that a callee moves.  Each
    function below is the source function resumed at a state of its loop
    ([i] and what the loop has collected); every call and every iteration
    takes one unit of fuel. *)

Definition listItemNode (itemContent : list value) : value :=
  VMap [("type", VStr "listItem"); ("content", VList itemContent)].

Definition itemTextOf (trimmedLine : string) : string :=
  if isBulletItem trimmedLine then strings.TrimSpace (strings.drop 2 trimmedLine)
  else
    (* Ordered list marker *)
    match strings.Index trimmedLine ". " with
    | Some idx => strings.TrimSpace (strings.drop (idx + 2) trimmedLine)
    | None => EmptyString
    end.

Fixpoint parseBulletListFrom (fuel : nat) (lines : list string) (startIdx depth : nat)
    (i : nat) (items : list value) {struct fuel} : M (option value * nat) :=
  match fuel with
  | O => spent
  | S fuel' =>
      let done (i : nat) : M (option value * nat) :=
        match items with
        | [] => ret (None, startIdx)
        | _ :: _ =>
            ret (Some (VMap [("type", VStr "bulletList"); ("content", VList items)]), i)
        end in
      if (i <? List.length lines)%nat then
        let line := nth i lines EmptyString in
        if String.eqb (strings.TrimSpace line) EmptyString then done (i + 1)
        else
          let expectedIndent := depth in
          let currentIndent := GetIndentLevel line in
          let trimmedLine := strings.TrimLeft line (" " ++ tab) in
          (* If less indented, this list is done *)
          if (currentIndent <? expectedIndent)%nat then done i
          (* If more indented, this is a nested list (handled in list item) *)
          else if (expectedIndent <? currentIndent)%nat then done i
          else if negb (isBulletItem trimmedLine) then done i
          else
            ' (itemContent, endIdx) <- parseListItem fuel' lines i depth ;;
            parseBulletListFrom fuel' lines startIdx depth endIdx
              (append items (listItemNode itemContent))
      else done i
  end

with parseOrderedListFrom (fuel : nat) (lines : list string) (startIdx depth : nat)
    (i : nat) (items : list value) (startOrder : Z) (firstItem : bool) {struct fuel}
    : M (option value * nat) :=
  match fuel with
  | O => spent
  | S fuel' =>
      let done (i : nat) : M (option value * nat) :=
        match items with
        | [] => ret (None, startIdx)
        | _ :: _ =>
            let node := [("type", VStr "orderedList"); ("content", VList items)] in
            let node :=
              if negb (startOrder =? 1)%Z
              then gomap.set node "attrs" (VMap [("order", VInt startOrder)])
              else node in
            ret (Some (VMap node), i)
        end in
      if (i <? List.length lines)%nat then
        let line := nth i lines EmptyString in
        if String.eqb (strings.TrimSpace line) EmptyString then done (i + 1)
        else
          let expectedIndent := depth in
          let currentIndent := GetIndentLevel line in
          let trimmedLine := strings.TrimLeft line (" " ++ tab) in
          if (currentIndent <? expectedIndent)%nat then done i
          else if (expectedIndent <? currentIndent)%nat then done i
          else
            match FindStringSubmatch orderedRe trimmedLine with
            | None => done i
            | Some m =>
                let startOrder :=
                  if firstItem then
                    match fmt.Sscanf_d (sub m 1) with
                    | Some n => n
                    | None => startOrder
                    end
                  else startOrder in
                ' (itemContent, endIdx) <- parseListItem fuel' lines i depth ;;
                parseOrderedListFrom fuel' lines startIdx depth endIdx
                  (append items (listItemNode itemContent)) startOrder false
            end
      else done i
  end

with parseListItem (fuel : nat) (lines : list string) (startIdx depth : nat) {struct fuel}
    : M (list value * nat) :=
  match fuel with
  | O => spent
  | S fuel' =>
      let line := nth startIdx lines EmptyString in
      let trimmedLine := strings.TrimLeft line (" " ++ tab) in
      (* Extract the item text (after the marker) *)
      let itemText := itemTextOf trimmedLine in
      inline <- parseInlineContent itemText ;;
      let content := [VMap [("type", VStr "paragraph"); ("content", VList inline)]] in
      parseListItemFrom fuel' lines depth (startIdx + 1) content
  end

with parseListItemFrom (fuel : nat) (lines : list string) (depth : nat)
    (i : nat) (content : list value) {struct fuel} : M (list value * nat) :=
  match fuel with
  | O => spent
  | S fuel' =>
      let expectedNestedIndent := depth + 1 in
      (* Check for nested content *)
      if (i <? List.length lines)%nat then
        let nextLine := nth i lines EmptyString in
        if String.eqb (strings.TrimSpace nextLine) EmptyString
        then parseListItemFrom fuel' lines depth (i + 1) content
        else
          let nextIndent := GetIndentLevel nextLine in
          if (nextIndent <? expectedNestedIndent)%nat then ret (content, i)
          else
            let trimmedNext := strings.TrimLeft nextLine (" " ++ tab) in
            let nested (r : option value * nat) : M (list value * nat) :=
              let '(nestedList, endIdx) := r in
              parseListItemFrom fuel' lines depth endIdx
                (match nestedList with
                 | Some l => append content l
                 | None => content
                 end) in
            (* Check for nested bullet list *)
            if isBulletItem trimmedNext then
              r <- parseBulletListFrom fuel' lines i (depth + 1) i [] ;; nested r
            (* Check for nested ordered list *)
            else if MatchString orderedStartRe trimmedNext then
              r <- parseOrderedListFrom fuel' lines i (depth + 1) i [] 1%Z true ;; nested r
            (* Check for nested task list *)
            else if MatchString TaskItemRe trimmedNext then
              r <- parseTaskList lines i ;; nested r
            (* Otherwise it's continuation text *)
            else ret (content, i)
      else ret (content, i)
  end.

Definition parseBulletList (fuel : nat) (lines : list string) (startIdx depth : nat)
    : M (option value * nat) :=
  parseBulletListFrom fuel lines startIdx depth startIdx [].

Definition parseOrderedList (fuel : nat) (lines : list string) (startIdx depth : nat)
    : M (option value * nat) :=
  parseOrderedListFrom fuel lines startIdx depth startIdx [] 1%Z true.

(** ** Blocks that hold blocks *)

Section Nested.

(** [parseBlocks], for the body of a block *)
Variable parseBlocks : list string -> M (list value).

Definition parsePanelBlock (attrs : list (string * string)) (content : string) : M value :=
  let panelType := sget attrs "type" in
  let panelType := if String.eqb panelType EmptyString then "info" else panelType in
  (* Parse inner content as blocks *)
  innerBlocks <- parseBlocks (strings.Split content LF) ;;
  ret (VMap [("type", VStr "panel"); ("attrs", VMap [("panelType", VStr panelType)]);
             ("content", VList innerBlocks)]).

Definition parseExpandBlock (attrs : list (string * string)) (content : string) : M value :=
  let title := sget attrs "title" in
  innerBlocks <- parseBlocks (strings.Split content LF) ;;
  ret (VMap [("type", VStr "expand"); ("attrs", VMap [("title", VStr title)]);
             ("content", VList innerBlocks)]).

Definition parseFenceBlock (lines : list string) (startIdx : nat)
    (blockType attrStr : string) : M (option value * nat) :=
  let '(contentLines, n) := fenceBody (skipn (startIdx + 1) lines) in
  let i := startIdx + 1 + n in
  let innerContent := strings.Join contentLines nl in
  let attrs := ParseAttrs attrStr in
  node <-
    (if String.eqb blockType "panel" then parsePanelBlock attrs innerContent
     else if String.eqb blockType "expand" then parseExpandBlock attrs innerContent
     else if String.eqb blockType "mediaSingle" then parseMediaSingleBlock attrs innerContent
     else if String.eqb blockType "mediaGroup" then parseMediaGroupBlock innerContent
     else
       (* Unknown fence block, treat as code block *)
       ret (VMap [("type", VStr "codeBlock");
                  ("attrs", VMap [("language", VStr blockType)]);
                  ("content", VList [textNode innerContent])])) ;;
  ret (Some node, i).

Definition parseBlockquote (lines : list string) (startIdx : nat)
    : M (option value * nat) :=
  let quoted := quoteLines (skipn startIdx lines) in
  let i := startIdx + List.length quoted in
  (* Recursively parse the quoted content *)
  innerContent <- parseBlocks quoted ;;
  ret (Some (VMap [("type", VStr "blockquote"); ("content", VList innerContent)]), i).

End Nested.

(** ** The block scanner

    [parseBlocksFrom] is [parseBlocks] resumed at a state of its loop: the
    cursor [i], the blocks collected and the pending metadata. *)

Fixpoint parseBlocksFrom (fuel : nat) (lines : list string) (i : nat) (content : list value)
    (pendingMetadata : list (string * string)) {struct fuel} : M (list value) :=
  match fuel with
  | O => spent
  | S fuel' =>
      let parseBlocks (ls : list string) : M (list value) :=
        parseBlocksFrom fuel' ls O [] [] in
      (* the end of every case but the blank line and the metadata comment *)
      let next (r : option value * nat) : M (list value) :=
        let '(node, endIdx) := r in
        parseBlocksFrom fuel' lines endIdx
          (match node with
           | Some n => append content n
           | None => content
           end) [] in
      if (i <? List.length lines)%nat then
        let line := nth i lines EmptyString in
        (* Skip empty lines *)
        if String.eqb (strings.TrimSpace line) EmptyString
        then parseBlocksFrom fuel' lines (i + 1) content pendingMetadata
        else
          (* Check for metadata comment *)
          match FindStringSubmatch MetadataCommentRe line with
          | Some m => parseBlocksFrom fuel' lines (i + 1) content (ParseAttrs (sub m 2))
          | None =>
          (* Extended fence blocks *)
          match FindStringSubmatch FenceBlockRe line with
          | Some m =>
              r <- parseFenceBlock parseBlocks lines i (sub m 1) (sub m 2) ;; next r
          | None =>
          (* Code block *)
          if strings.HasPrefix line "```" then
            let '(node, endIdx) := parseCodeBlock lines i in next (Some node, endIdx)
          (* Heading *)
          else if strings.HasPrefix line "#" then
            node <- parseHeading line pendingMetadata ;; next (node, i + 1)
          (* Horizontal rule *)
          else if isRule line then next (Some (VMap [("type", VStr "rule")]), i + 1)
          (* Blockquote *)
          else if strings.HasPrefix line "> " || String.eqb line ">" then
            r <- parseBlockquote parseBlocks lines i ;; next r
          (* Table *)
          else if strings.HasPrefix line "|" && strings.Contains line "|" then
            r <- parseTable lines i ;; next r
          (* Task list *)
          else if MatchString TaskItemRe line then
            r <- parseTaskList lines i ;; next r
          (* Bullet list *)
          else if isBulletItem line then
            r <- parseBulletList fuel' lines i 0 ;; next r
          (* Ordered list *)
          else if MatchString orderedStartRe line then
            r <- parseOrderedList fuel' lines i 0 ;; next r
          else
            (* Standalone image *)
            match FindStringSubmatch standaloneImageRe (strings.TrimSpace line) with
            | Some matches =>
                node <- parseStandaloneImage (sub matches 1) (sub matches 2) ;;
                next (Some node, i + 1)
            | None =>
                (* Regular paragraph *)
                r <- parseParagraph lines i pendingMetadata ;; next r
            end
          end
          end
      else ret content
  end.

Definition parseBlocks (fuel : nat) (lines : list string) : M (list value) :=
  parseBlocksFrom fuel lines O [] [].

Definition parseMarkdownDocument (fuel : nat) (text : string) : M Node :=
  let lines := strings.Split text LF in
  content <- parseBlocks fuel lines ;;
  ret [("type", VStr "doc"); ("version", VInt 1); ("content", VList content)].

Definition FromMarkdown (fuel : nat) (text : string) : M Node :=
  parseMarkdownDocument fuel text.

(** * jira/attachment.go: the media the upload step takes *)

(** "/file/([a-f0-9-]+)/" *)
Definition mediaIDChar (c : ascii) : bool :=
  byte_in 97 102 c || is_digit c || Ascii.eqb c "-"%char.

Definition mediaIDRe : Regexp :=
  MustCompile false (cat [Lit "/file/"; Grp 1 (Plus mediaIDChar); Lit "/"]).

Definition extractMediaIDFromURL (contentURL : string) : string :=
  match FindStringSubmatch mediaIDRe contentURL with
  | Some matches =>
      if (2 <=? List.length matches)%nat then sub matches 1 else EmptyString
  | None => EmptyString
  end.

(** What [collectPendingUploads] reads of a node of the document before it
    fetches anything: the source it will upload, or [None] where it takes
    nothing of the node. *)
Definition pendingSource (nodeMap : Node) : option string :=
  let nodeType := get_string nodeMap "type" in
  (* Process mediaSingle nodes *)
  if String.eqb nodeType "mediaSingle" then
    match gomap.get nodeMap "content" with
    | Some (VList (VMap mediaNode :: _)) =>
        match get_map mediaNode "attrs" with
        | Some attrs =>
            let id := get_string attrs "id" in
            if negb (strings.HasPrefix id "__PENDING_UPLOAD_") then None
            else
              let source := get_string attrs "_source" in
              if String.eqb source EmptyString then None else Some source
        | None => None
        end
    | _ => None
    end
  else None.


(** * Properties *)

(** ** Reading a node *)

Lemma with_content_get (A : Type) (node : Node) (absent : A) (k : list value -> A) :
  with_content node absent k =
  match gomap.get node "content" with
  | Some (VList l) => k l
  | _ => absent
  end.
Proof.
  unfold with_content.
  induction node as [| [key v] m IH]; simpl; [reflexivity |].
  destruct (String.eqb key "content"); [destruct v; reflexivity | exact IH].
Qed.

(** The [content] array of a node, empty when the node has none *)
Definition children (node : Node) : list value :=
  match gomap.get node "content" with
  | Some (VList l) => l
  | _ => []
  end.

Lemma renderTree_not_map (loc : time.Location) (v : value) (e : entry) (depth : nat) :
  (forall m, v <> VMap m) -> renderTree loc v e depth = EmptyString.
Proof.
  destruct v; intros H; try reflexivity. now elim (H m).
Qed.

Lemma append_empty_r (s : string) : s ++ EmptyString = s.
Proof. induction s; simpl; congruence. Qed.

Lemma append_assoc (a b c : string) : (a ++ b) ++ c = a ++ (b ++ c).
Proof. induction a; simpl; congruence. Qed.

Lemma concat_cons (t : string) (l : list string) :
  String.concat EmptyString (t :: l) = t ++ String.concat EmptyString l.
Proof.
  simpl. destruct l; simpl; [now rewrite append_empty_r | reflexivity].
Qed.

Lemma renderContent_range (self : value -> entry -> nat -> string)
    (l : list value) (i : nat) (sb : string) :
  (forall v e d, (forall m, v <> VMap m) -> self v e d = EmptyString) ->
  range_from (fun sb (_ : nat) child =>
                match child with
                | VMap _ => sb ++ self child ENode 0
                | _ => sb
                end) i l sb
  = sb ++ String.concat EmptyString (map (fun child => self child ENode 0) l).
Proof.
  intros Hself. revert i sb.
  induction l as [| child l IH]; intros i sb.
  - simpl. now rewrite append_empty_r.
  - cbn [range_from map]. rewrite IH, concat_cons.
    destruct child; try (rewrite (Hself _ ENode 0%nat) by congruence; reflexivity).
    now rewrite append_assoc.
Qed.

Lemma eqb_recognized (t : string) :
  ~ In t recognized -> forall k, In k recognized -> String.eqb t k = false.
Proof.
  intros H k Hk. apply String.eqb_neq. intros ->. exact (H Hk).
Qed.

(** C10. A node whose type is none of the kinds [renderADFNode] knows is
    rendered as its content: the renderings of the children of its [content]
    array, at depth 0, one after the other; the empty string when it has no
    such array.  The renderer is a function on the finite tree, so it
    returns on every document. *)
Theorem renderADFNode_unrecognized (loc : time.Location) (node : Node) (depth : nat) :
  ~ In (get_string node "type") recognized ->
  renderTree loc (VMap node) ENode depth
  = String.concat EmptyString
      (map (fun child => renderTree loc child ENode 0) (children node))
  /\ ((forall l, gomap.get node "content" <> Some (VList l)) ->
      renderTree loc (VMap node) ENode depth = EmptyString).
Proof.
  intros H.
  assert (E : renderTree loc (VMap node) ENode depth
              = renderContent (renderTree loc) node).
  { change (renderTree loc (VMap node) ENode depth)
      with (renderADFNode loc (renderTree loc) node depth).
    unfold renderADFNode.
    pose proof (eqb_recognized H) as F.
    rewrite !F by (unfold recognized; simpl; tauto).
    reflexivity. }
  assert (R : renderContent (renderTree loc) node
              = String.concat EmptyString
                  (map (fun child => renderTree loc child ENode 0) (children node))).
  { unfold renderContent, children, range. rewrite with_content_get.
    destruct (gomap.get node "content") as [[]|]; try reflexivity.
    rewrite renderContent_range; [reflexivity |].
    intros v e d Hv. now apply renderTree_not_map. }
  split.
  - now rewrite E, R.
  - intros N. rewrite E, R. unfold children.
    destruct (gomap.get node "content") as [[]|]; try reflexivity.
    now elim (N l).
Qed.

Lemma renderADFNode_unrecognized_witness :
  ~ In (get_string [("type", VStr "layoutSection");
                    ("content", VList [textNode "a"; VInt 7; textNode "b"])] "type")
       recognized
  /\ renderTree time.UTC
       (VMap [("type", VStr "layoutSection");
              ("content", VList [textNode "a"; VInt 7; textNode "b"])]) ENode 3
     = "ab".
Proof.
  assert (H : ~ In (get_string [("type", VStr "layoutSection");
                    ("content", VList [textNode "a"; VInt 7; textNode "b"])] "type")
       recognized).
  { unfold recognized. simpl. intros H.
    repeat (destruct H as [H | H]; [discriminate H |]). exact H. }
  split; [exact H |].
  rewrite (proj1 (renderADFNode_unrecognized time.UTC _ 3 H)).
  reflexivity.
Defined.

(** ** Marks *)

Definition markType (mark : value) : string :=
  match mark with
  | VMap markMap => get_string markMap "type"
  | _ => EmptyString
  end.

Lemma scanMark_swap (f : markFlags) (a b : value) :
  markType a <> markType b ->
  scanMark (scanMark f a) b = scanMark (scanMark f b) a.
Proof.
  intros H. destruct f.
  destruct a as [| | | | | |ma]; destruct b as [| | | | | |mb]; try reflexivity.
  unfold markType in H. unfold scanMark.
  destruct (String.eqb_spec (get_string ma "type") (get_string mb "type")) as [E | _];
    [contradiction |].
  set (ta := get_string ma "type") in *. set (tb := get_string mb "type") in *.
  repeat match goal with
         | |- context [String.eqb ta ?k] =>
             destruct (String.eqb_spec ta k); [subst ta |]
         end;
  repeat match goal with
         | |- context [String.eqb tb ?k] =>
             destruct (String.eqb_spec tb k); [subst tb |]
         end;
  try reflexivity; try congruence.
Qed.

(** The first pass of [applyMarks] does not depend on the order of marks of
    different types. *)
Lemma scan_permutation (marks marks' : list value) :
  Permutation marks marks' ->
  NoDup (map markType marks) ->
  forall f, fold_left scanMark marks f = fold_left scanMark marks' f.
Proof.
  induction 1 as [| x l l' _ IH | x y l | l l' l'' P1 IH1 P2 IH2]; intros N f.
  - reflexivity.
  - simpl. apply IH. now inversion N.
  - simpl. f_equal. apply scanMark_swap.
    simpl in N. inversion N as [| ? ? Hy _]. subst.
    intros E. apply Hy. left. now symmetry.
  - rewrite IH1 by assumption. apply IH2.
    apply (Permutation_NoDup (l := map markType l)); [| assumption].
    now apply Permutation_map.
Qed.

Definition mark (type : string) : value := VMap [("type", VStr type)].

Definition markWith (type : string) (attrs : Node) : value :=
  VMap [("type", VStr type); ("attrs", VMap attrs)].

(** One mark of each kind, outermost first *)
Definition everyMark (href color background : string) : list value :=
  [ markWith "subsup" [("type", VStr "sup")];
    markWith "backgroundColor" [("color", VStr background)];
    markWith "textColor" [("color", VStr color)];
    mark "underline"; mark "strike"; mark "strong"; mark "em";
    markWith "link" [("href", VStr href)];
    mark "code" ].

Definition textWith (text : string) (marks : list value) : Node :=
  [("type", VStr "text"); ("text", VStr text); ("marks", VList marks)].

Lemma renderText_marks (text : string) (marks : list value) :
  text <> EmptyString -> marks <> [] ->
  renderText (textWith text marks) = applyMarks text marks.
Proof.
  intros Ht Hm. unfold renderText, textWith, get_string. simpl.
  destruct (String.eqb_spec text EmptyString) as [E | _]; [contradiction |].
  destruct marks; [contradiction | reflexivity].
Qed.

(** C7. The marks of a Text node are applied in one nesting order whatever
    their order in the node: code innermost, then link, emphasis, strong,
    strike, underline, text colour, background colour, and sub/sup outermost.
    A node with Strong and Em renders as three stars on each side, in either
    order of the two marks.  Any marks of different types render the same in
    any order. *)
Theorem marks_fixed_nesting_order
    (text href color background : string) (marks pair others others' : list value) :
  text <> EmptyString -> color <> EmptyString -> background <> EmptyString ->
  Permutation marks (everyMark href color background) ->
  Permutation pair [mark "strong"; mark "em"] ->
  Permutation others others' -> NoDup (map markType others) ->
  renderText (textWith text marks)
  = "<sup>" ++ "<mark style=" ++ dq ++ "background:" ++ background ++ dq ++ ">"
    ++ "{color:" ++ color ++ "}" ++ "<u>" ++ "~~" ++ "**" ++ "*"
    ++ "[" ++ "`" ++ text ++ "`" ++ "](" ++ href ++ ")"
    ++ "*" ++ "**" ++ "~~" ++ "</u>" ++ "{color}" ++ "</mark>" ++ "</sup>"
  /\ renderText (textWith text pair) = "***" ++ text ++ "***"
  /\ renderText (textWith text pair) <> "**_" ++ text ++ "_**"
  /\ renderText (textWith text others) = renderText (textWith text others').
Proof.
  intros Ht Hc Hb Pm Pp Po No.
  assert (Nm : NoDup (map markType (everyMark href color background))).
  { simpl. repeat constructor; simpl; intuition discriminate. }
  assert (Np : NoDup (map markType [mark "strong"; mark "em"])).
  { simpl. repeat constructor; simpl; intuition discriminate. }
  assert (Em : applyMarks text marks = applyMarks text (everyMark href color background)).
  { unfold applyMarks. f_equal. symmetry. apply scan_permutation; [| assumption].
    now apply Permutation_sym. }
  assert (Ep : applyMarks text pair = applyMarks text [mark "strong"; mark "em"]).
  { unfold applyMarks. f_equal. symmetry. apply scan_permutation; [| assumption].
    now apply Permutation_sym. }
  assert (Rp : renderText (textWith text pair) = "***" ++ text ++ "***").
  { rewrite renderText_marks; [| assumption |].
    - rewrite Ep. unfold applyMarks, wrapMarks. simpl.
      now rewrite !append_assoc.
    - intros ->. apply Permutation_nil in Pp. discriminate Pp. }
  split; [| split].
  - rewrite renderText_marks; [| assumption |].
    + rewrite Em. unfold applyMarks, wrapMarks. simpl. unfold get_string. simpl.
      apply String.eqb_neq in Hc. apply String.eqb_neq in Hb.
      rewrite Hc, Hb. unfold dq. simpl.
      repeat (rewrite append_assoc; simpl).
      reflexivity.
    + intros ->. apply Permutation_nil in Pm. discriminate Pm.
  - exact Rp.
  - split.
    + rewrite Rp. simpl. intros E. injection E as E. discriminate E.
    + destruct others as [| o others].
      * apply Permutation_nil in Po. now subst.
      * rewrite !renderText_marks; try assumption; try discriminate.
        -- unfold applyMarks. f_equal. now apply scan_permutation.
        -- intros ->. apply Permutation_sym, Permutation_nil in Po. discriminate Po.
Qed.

Lemma marks_fixed_nesting_order_witness :
  renderText
    (textWith "t" [mark "code"; markWith "link" [("href", VStr "u")];
                   mark "em"; mark "strong"; mark "strike"; mark "underline";
                   markWith "textColor" [("color", VStr "red")];
                   markWith "backgroundColor" [("color", VStr "blue")];
                   markWith "subsup" [("type", VStr "sup")]])
  = "<sup><mark style=" ++ dq ++ "background:blue" ++ dq
    ++ ">{color:red}<u>~~***[`t`](u)***~~</u>{color}</mark></sup>"
  /\ renderText (textWith "t" [mark "em"; mark "strong"]) = "***t***"
  /\ renderText (textWith "t" [mark "strike"; mark "code"])
     = renderText (textWith "t" [mark "code"; mark "strike"]).
Proof.
  assert (Pm : Permutation
                 [mark "code"; markWith "link" [("href", VStr "u")];
                  mark "em"; mark "strong"; mark "strike"; mark "underline";
                  markWith "textColor" [("color", VStr "red")];
                  markWith "backgroundColor" [("color", VStr "blue")];
                  markWith "subsup" [("type", VStr "sup")]]
                 (everyMark "u" "red" "blue")).
  { apply Permutation_rev. }
  assert (Pp : Permutation [mark "em"; mark "strong"] [mark "strong"; mark "em"]).
  { apply perm_swap. }
  assert (Ht : "t" <> EmptyString) by discriminate.
  assert (Hc : "red" <> EmptyString) by discriminate.
  assert (Hb : "blue" <> EmptyString) by discriminate.
  assert (Po : Permutation [mark "strike"; mark "code"] [mark "code"; mark "strike"]).
  { apply perm_swap. }
  assert (No : NoDup (map markType [mark "strike"; mark "code"])).
  { repeat constructor; simpl; intuition discriminate. }
  pose proof (marks_fixed_nesting_order (href := "u") Ht Hc Hb Pm Pp Po No)
    as [A [B [_ C]]].
  split; [exact A | split; [exact B | exact C]].
Defined.

(** ** Documents used below *)

Definition docOf (blocks : list value) : Node :=
  [("type", VStr "doc"); ("version", VInt 1); ("content", VList blocks)].

Definition paragraphOf (inline : list value) : value :=
  VMap [("type", VStr "paragraph"); ("content", VList inline)].

Definition headingOf (level : value) (inline : list value) : value :=
  VMap [("type", VStr "heading"); ("attrs", VMap [("level", level)]);
        ("content", VList inline)].

Definition hardBreak : value := VMap [("type", VStr "hardBreak")].

Definition bulletListOf (items : list value) : value :=
  VMap [("type", VStr "bulletList"); ("content", VList items)].

(** A world whose clock and random source give zero at every call *)
Definition stillWorld : World := fun _ => (0%Z, 0%Z).

(** What a parse returned, the world left aside *)
Definition result (A : Type) (r : option (A * World)) : option A := option_map fst r.

(** ** Render, parse, render *)

(** Two slips that also break the round trip.  A document with one heading
    of level 2 (a [float64], as a decoded document has it) renders as a
    level-2 heading line; parsing that text stores the level as an [int],
    which [renderHeading] does not read, so the parsed document renders at
    level 1.  A paragraph whose text starts with a hash renders as that text;
    parsing it takes the heading case, which rejects the line, and the text
    is gone. *)
Lemma render_parse_render_slips (loc : time.Location) (fuel : nat) (w : World) :
  let d := docOf [headingOf (VFloat (FDec 2 0)) [textNode "Title"]] in
  let p := docOf [paragraphOf [textNode "#tag"]] in
  (ToMarkdown loc d = "## Title"
   /\ result (FromMarkdown (S (S fuel)) (ToMarkdown loc d) w)
      = Some (docOf [headingOf (VInt 2) [textNode "Title"]])
   /\ ToMarkdown loc (docOf [headingOf (VInt 2) [textNode "Title"]]) = "# Title")
  /\ (ToMarkdown loc p = "#tag"
      /\ result (FromMarkdown (S (S fuel)) (ToMarkdown loc p) w) = Some (docOf [])
      /\ ToMarkdown loc (docOf []) = EmptyString).
Proof.
  repeat split; vm_compute; reflexivity.
Qed.

(** ** White space of the output *)

(** C8. The output can hold three newlines in a row: a paragraph with three
    hard breaks between two words.  The runs of newlines are collapsed
    before the trailing blanks of each line are removed, and the lines that
    held only blanks then join the newlines around them. *)
Theorem render_keeps_newline_run (loc : time.Location) :
  ToMarkdown loc
    (docOf [paragraphOf [textNode "a"; hardBreak; hardBreak; hardBreak; textNode "b"]])
  = "a" ++ nl ++ nl ++ nl ++ "b"
  /\ NormalizeWhitespace ("a" ++ nl ++ nl ++ " " ++ nl ++ nl ++ "b")
     = "a" ++ nl ++ nl ++ nl ++ nl ++ "b".
Proof.
  split; vm_compute; reflexivity.
Qed.

(** ** Timestamps *)

(** A zone five hours west of Greenwich *)
Definition fiveHoursWest : time.Location := fun _ => (-18000)%Z.

(** C6. In a zone west of Greenwich the date does not come back:
    [ParseTimestamp] reads the date as midnight UTC, and [FormatTimestamp]
    prints the local date of that instant, the day before.  In UTC it does
    come back. *)
Theorem timestamp_round_trip_depends_on_zone :
  ParseTimestamp "2024-01-01" = "1704067200000"
  /\ FormatTimestamp fiveHoursWest (ParseTimestamp "2024-01-01") = "2023-12-31"
  /\ FormatTimestamp time.UTC (ParseTimestamp "2024-01-01") = "2024-01-01".
Proof.
  repeat split; vm_compute; reflexivity.
Qed.

(** East of Greenwich, and in UTC, the date comes back. *)
Lemma timestamp_round_trip_east (loc : time.Location) :
  (0 <= loc 1704067200 < 86400)%Z ->
  FormatTimestamp loc (ParseTimestamp "2024-01-01") = "2024-01-01".
Proof.
  intros H.
  change (ParseTimestamp "2024-01-01") with "1704067200000".
  unfold FormatTimestamp.
  change (fmt.Sscanf_d (strings.TrimSpace "1704067200000")) with (Some 1704067200000%Z).
  unfold time.Format_date.
  change (1704067200000 / 1000)%Z with 1704067200%Z.
  replace ((1704067200 + loc 1704067200%Z) / 86400)%Z with 19723%Z.
  - vm_compute. reflexivity.
  - apply Z.div_unique with (r := loc 1704067200%Z); lia.
Qed.

(** ** A list item that the parser never leaves *)

Section ItemLoop.

Variables (lines : list string) (depth i : nat).

Let line : string := nth i lines EmptyString.

(** Line [i] is a bullet item indented more than one level below the list
    of the item in hand. *)
Hypothesis in_range : (i <? List.length lines)%nat = true.
Hypothesis not_blank : String.eqb (strings.TrimSpace line) EmptyString = false.
Hypothesis too_deep : (depth + 1 <? GetIndentLevel line)%nat = true.
Hypothesis bullet : isBulletItem (strings.TrimLeft line (" " ++ tab)) = true.

(** [parseListItem] hands the line to [parseBulletList] one level down... *)
Lemma item_nested_bullet (fuel : nat) (content : list value) :
  parseListItemFrom (S fuel) lines depth i content
  = (r <- parseBulletListFrom fuel lines i (depth + 1) i [] ;;
     let '(nestedList, endIdx) := r in
     parseListItemFrom fuel lines depth endIdx
       (match nestedList with
        | Some l => append content l
        | None => content
        end)).
Proof.
  cbn [parseListItemFrom]. fold line.
  assert (H : (GetIndentLevel line <? depth + 1)%nat = false).
  { apply Nat.ltb_ge. apply Nat.ltb_lt in too_deep. lia. }
  now rewrite in_range, not_blank, H, bullet.
Qed.

(** ... which finds it too deep for its own level, and gives back no list
    and the index it was given. *)
Lemma nested_bullet_declined (fuel : nat) :
  parseBulletListFrom (S fuel) lines i (depth + 1) i [] = ret (None, i).
Proof.
  cbn [parseBulletListFrom]. fold line.
  assert (H : (GetIndentLevel line <? depth + 1)%nat = false).
  { apply Nat.ltb_ge. apply Nat.ltb_lt in too_deep. lia. }
  now rewrite in_range, not_blank, H, too_deep.
Qed.

(** So the loop of [parseListItem] is back where it was, and never ends. *)
Lemma item_loop_never_returns (fuel : nat) :
  forall (content : list value) (w : World),
    parseListItemFrom fuel lines depth i content w = None.
Proof.
  induction fuel as [| fuel IH]; intros content w; [reflexivity |].
  rewrite item_nested_bullet. unfold bind.
  destruct fuel as [| fuel']; [reflexivity |].
  rewrite nested_bullet_declined. unfold ret. apply IH.
Qed.

End ItemLoop.

Lemma parseListItem_step (fuel : nat) (lines : list string) (startIdx depth : nat) :
  parseListItem (S fuel) lines startIdx depth
  = (inline <-
       parseInlineContent
         (itemTextOf (strings.TrimLeft (nth startIdx lines EmptyString) (" " ++ tab))) ;;
     parseListItemFrom fuel lines depth (startIdx + 1)
       [VMap [("type", VStr "paragraph"); ("content", VList inline)]]).
Proof. reflexivity. Qed.

Lemma bullet_list_item (fuel : nat) (lines : list string) (startIdx depth i : nat)
    (items : list value) :
  (i <? List.length lines)%nat = true ->
  String.eqb (strings.TrimSpace (nth i lines EmptyString)) EmptyString = false ->
  GetIndentLevel (nth i lines EmptyString) = depth ->
  isBulletItem (strings.TrimLeft (nth i lines EmptyString) (" " ++ tab)) = true ->
  parseBulletListFrom (S fuel) lines startIdx depth i items
  = (r <- parseListItem fuel lines i depth ;;
     let '(itemContent, endIdx) := r in
     parseBulletListFrom fuel lines startIdx depth endIdx
       (append items (listItemNode itemContent))).
Proof.
  intros H1 H2 H3 H4. cbn [parseBulletListFrom].
  rewrite H1, H2, H3, H4, Nat.ltb_irrefl. reflexivity.
Qed.

Section BulletCase.

Variables (lines : list string) (i : nat).

Let line : string := nth i lines EmptyString.

(** Line [i] reaches the bullet-list case of [parseBlocks]. *)
Hypothesis in_range : (i <? List.length lines)%nat = true.
Hypothesis not_blank : String.eqb (strings.TrimSpace line) EmptyString = false.
Hypothesis no_metadata : FindStringSubmatch MetadataCommentRe line = None.
Hypothesis no_fence : FindStringSubmatch FenceBlockRe line = None.
Hypothesis no_code : strings.HasPrefix line "```" = false.
Hypothesis no_heading : strings.HasPrefix line "#" = false.
Hypothesis no_rule : isRule line = false.
Hypothesis no_quote : strings.HasPrefix line "> " || String.eqb line ">" = false.
Hypothesis no_table : strings.HasPrefix line "|" && strings.Contains line "|" = false.
Hypothesis no_task : MatchString TaskItemRe line = false.
Hypothesis bullet : isBulletItem line = true.

Lemma blocks_bullet_list (fuel : nat) (content : list value)
    (pendingMetadata : list (string * string)) :
  parseBlocksFrom (S fuel) lines i content pendingMetadata
  = (r <- parseBulletList fuel lines i 0 ;;
     let '(node, endIdx) := r in
     parseBlocksFrom fuel lines endIdx
       (match node with
        | Some n => append content n
        | None => content
        end) []).
Proof.
  cbn [parseBlocksFrom]. fold line.
  now rewrite in_range, not_blank, no_metadata, no_fence, no_code, no_heading,
    no_rule, no_quote, no_table, no_task, bullet.
Qed.

End BulletCase.

(** C2. The parser does not return on every input.  On a bullet item
    followed by a bullet indented by four spaces, the loop of [parseListItem]
    calls [parseBulletList] for the nested list; that call finds the line
    deeper than its level and returns the index it was given; the loop
    continues from that index, which is where it was.  No amount of fuel
    gives a result.  With the second bullet indented by two spaces, one
    level down, the parser returns the nested list. *)
Theorem parse_never_returns_on_deep_bullet (fuel : nat) (w : World) :
  FromMarkdown fuel ("- a" ++ nl ++ "    - b") w = None
  /\ result (FromMarkdown (7 + fuel) ("- a" ++ nl ++ "  - b") w)
     = Some (docOf
               [bulletListOf
                  [listItemNode
                     [paragraphOf [textNode "a"];
                      bulletListOf [listItemNode [paragraphOf [textNode "b"]]]]]]).
Proof.
  split; [| vm_compute; reflexivity].
  unfold FromMarkdown, parseMarkdownDocument, parseBlocks.
  change (strings.Split ("- a" ++ nl ++ "    - b") LF) with ["- a"; "    - b"].
  unfold bind at 1.
  destruct fuel as [| fuel]; [reflexivity |].
  rewrite blocks_bullet_list by (vm_compute; reflexivity).
  unfold bind at 1. unfold parseBulletList.
  destruct fuel as [| fuel]; [reflexivity |].
  rewrite bullet_list_item by (vm_compute; reflexivity).
  unfold bind at 1.
  destruct fuel as [| fuel]; [reflexivity |].
  rewrite parseListItem_step. unfold bind at 1.
  destruct (parseInlineContent _ w) as [[inline w'] |]; [| reflexivity].
  rewrite item_loop_never_returns by (vm_compute; reflexivity).
  reflexivity.
Qed.

(** ** Matches are not empty *)

(** A pattern that cannot match the empty string *)
Fixpoint nonnull (r : regex) : bool :=
  match r with
  | Lit l => negb (String.eqb l EmptyString)
  | Cls _ | Plus _ | PlusLazy _ => true
  | Star _ | Opt _ | Eol => false
  | Seq a b => nonnull a || nonnull b
  | Alt a b => nonnull a && nonnull b
  | Grp _ a => nonnull a
  end.

Lemma prefix_drop_length (l s : string) :
  String.prefix l s = true ->
  String.length (strings.drop (String.length l) s) + String.length l = String.length s.
Proof.
  revert s. induction l as [| c l IH]; intros s H; simpl.
  - lia.
  - destruct s as [| c' s]; simpl in H; [discriminate |].
    destruct (ascii_dec c c'); [| discriminate].
    simpl. specialize (IH s H). lia.
Qed.

Lemma star_shorter (p : ascii -> bool) (s rest : string) :
  In rest (regexp.star p s) -> String.length rest <= String.length s.
Proof.
  revert rest. induction s as [| c s IH]; intros rest H; simpl in H.
  - destruct H as [<- | []]. simpl. lia.
  - destruct (p c).
    + apply in_app_or in H. destruct H as [H | [<- | []]].
      * specialize (IH _ H). simpl. lia.
      * lia.
    + destruct H as [<- | []]. lia.
Qed.

Lemma star_lazy_shorter (p : ascii -> bool) (s rest : string) :
  In rest (regexp.star_lazy p s) -> String.length rest <= String.length s.
Proof.
  revert rest. induction s as [| c s IH]; intros rest H; simpl in H.
  - destruct H as [<- | []]. simpl. lia.
  - destruct H as [<- | H]; [lia |].
    destruct (p c); [| destruct H].
    specialize (IH _ H). simpl. lia.
Qed.

Lemma plain_in (l : list string) (m : string * caps) :
  In m (regexp.plain l) -> In (fst m) l.
Proof.
  unfold regexp.plain. intros H. apply in_map_iff in H.
  destruct H as [x [<- H]]. exact H.
Qed.

Ltac lengths := unfold caps in *; simpl in *; split; [lia | intros _; lia].

Lemma rmatch_shorter (r : regex) :
  forall (s : string) (m : string * caps),
    In m (rmatch r s) ->
    String.length (fst m) <= String.length s
    /\ (nonnull r = true -> String.length (fst m) < String.length s).
Proof.
  induction r as [l | p | p | p | p | a IHa b IHb | a IHa b IHb | a IHa | n a IHa |];
    intros s m H; simpl in H |- *; unfold caps in *.
  - destruct (String.prefix l s) eqn:P; [| destruct H].
    destruct H as [<- | []]. simpl.
    pose proof (prefix_drop_length _ _ P) as L.
    split; [lia |]. intros N.
    assert (0 < String.length l) by (destruct l; [discriminate N | simpl; lia]).
    lia.
  - destruct s as [| c s]; [destruct H |].
    destruct (p c); [| destruct H]. destruct H as [<- | []]. lengths.
  - apply plain_in, star_shorter in H. unfold caps in *. split; [exact H | discriminate].
  - destruct s as [| c s]; [destruct H |].
    destruct (p c); [| destruct H].
    apply plain_in, star_shorter in H. lengths.
  - destruct s as [| c s]; [destruct H |].
    destruct (p c); [| destruct H].
    apply plain_in, star_lazy_shorter in H. lengths.
  - apply in_flat_map in H. destruct H as [m1 [H1 H2]].
    apply in_map_iff in H2. destruct H2 as [m2 [<- H2]]. simpl.
    destruct (IHa _ _ H1) as [A1 A2]. destruct (IHb _ _ H2) as [B1 B2].
    unfold caps in *. split; [lia |]. intros N. apply orb_true_iff in N. destruct N as [N | N].
    + specialize (A2 N). lia.
    + specialize (B2 N). lia.
  - apply in_app_or in H. destruct H as [H | H].
    + destruct (IHa _ _ H) as [A1 A2]. split; [exact A1 |].
      intros N. apply andb_true_iff in N. now apply A2.
    + destruct (IHb _ _ H) as [B1 B2]. split; [exact B1 |].
      intros N. apply andb_true_iff in N. now apply B2.
  - apply in_app_or in H. destruct H as [H | [<- | []]].
    + destruct (IHa _ _ H) as [A1 _]. split; [exact A1 | discriminate].
    + simpl. split; [lia | discriminate].
  - apply in_map_iff in H. destruct H as [m1 [<- H]]. simpl. now apply IHa.
  - destruct s; [| destruct H]. destruct H as [<- | []]. simpl.
    split; [lia | discriminate].
Qed.

Lemma find_at_bounds (r : regex) :
  forall (s : string) (off b e : nat) (cs : caps),
    find_at r s off = Some (b, e, cs) ->
    off <= b /\ b <= e /\ e <= off + String.length s
    /\ (nonnull r = true -> b < e).
Proof.
  assert (first : forall s m ms b e cs off,
            rmatch r s = m :: ms ->
            Some (off, off + (String.length s - String.length (fst m)), snd m)
            = Some (b, e, cs) ->
            off <= b /\ b <= e /\ e <= off + String.length s
            /\ (nonnull r = true -> b < e)).
  { intros s m ms b e cs off E H. injection H as <- <- <-.
    destruct (rmatch_shorter r s m) as [L1 L2]; [rewrite E; now left |].
    unfold caps in *.
    split; [lia | split; [lia | split; [lia |]]].
    intros N. specialize (L2 N). lia. }
  induction s as [| c s IH]; intros off b e cs H; simpl in H.
  - destruct (rmatch r EmptyString) as [| m ms] eqn:E; [discriminate |].
    exact (first _ _ _ _ _ _ _ E H).
  - destruct (rmatch r (String c s)) as [| m ms] eqn:E.
    + specialize (IH _ _ _ _ H).
      change (String.length (String c s)) with (S (String.length s)).
      split; [lia | split; [lia | split; [lia | apply IH]]].
    + exact (first _ _ _ _ _ _ _ E H).
Qed.

(** An unanchored pattern that cannot match the empty string is found, if
    at all, on a non-empty part of the text. *)
Lemma FindStringIndex_bounds (rx : Regexp) (s : string) (b e : nat) :
  anchored rx = false -> nonnull (body rx) = true ->
  FindStringIndex rx s = Some (b, e) ->
  b < e /\ e <= String.length s.
Proof.
  intros A N H. unfold FindStringIndex, search in H. rewrite A in H.
  destruct (find_at (body rx) s 0) as [[[b' e'] cs] |] eqn:F; [| discriminate].
  injection H as <- <-.
  destruct (find_at_bounds _ _ _ F) as [_ [_ [L1 L2]]].
  split; [now apply L2 | simpl in L1; lia].
Qed.

(** ** The earliest match *)

Section Earliest.

Variable remaining : string.

Let found (p : inlinePattern) : option (nat * nat) := FindStringIndex (re p) remaining.

(** What the inner loop holds after the patterns [pats]: nothing when none
    of them matches; otherwise a pattern and its match, such that no
    pattern starts earlier and none of those before it starts as early. *)
Definition earliestOf (pats : list inlinePattern) (best : option (nat * (nat * nat)))
    : Prop :=
  match best with
  | None => forall j p, nth_error pats j = Some p -> found p = None
  | Some (pi, loc) =>
      (exists p, nth_error pats pi = Some p /\ found p = Some loc)
      /\ forall j p loc',
           nth_error pats j = Some p -> found p = Some loc' ->
           fst loc <= fst loc' /\ (fst loc' = fst loc -> pi <= j)
  end.

Definition pick (best : option (nat * (nat * nat))) (pi : nat) (p : inlinePattern)
    : option (nat * (nat * nat)) :=
  match FindStringIndex (re p) remaining with
  | Some loc =>
      match best with
      | None => Some (pi, loc)
      | Some (_, earliestResult) =>
          if (fst loc <? fst earliestResult)%nat then Some (pi, loc) else best
      end
  | None => best
  end.

Lemma nth_error_snoc (pre : list inlinePattern) (x p : inlinePattern) (j : nat) :
  nth_error (pre ++ [x]) j = Some p ->
  (j < List.length pre /\ nth_error pre j = Some p) \/ (j = List.length pre /\ p = x).
Proof.
  intros H. destruct (Nat.lt_ge_cases j (List.length pre)) as [L | L].
  - left. split; [exact L |]. now rewrite nth_error_app1 in H.
  - right. rewrite nth_error_app2 in H by exact L.
    destruct (j - List.length pre) as [| k] eqn:E; simpl in H.
    + injection H as <-. split; [lia | reflexivity].
    + destruct k; discriminate H.
Qed.

Lemma pick_keeps (pre : list inlinePattern) (x : inlinePattern)
    (best : option (nat * (nat * nat))) :
  earliestOf pre best -> earliestOf (pre ++ [x]) (pick best (List.length pre) x).
Proof.
  intros Inv. unfold pick. fold (found x).
  destruct (found x) as [loc |] eqn:Fx.
  - destruct best as [[pi loc0] |].
    + destruct Inv as [[p0 [N0 F0]] Min].
      destruct (Nat.ltb_spec (fst loc) (fst loc0)) as [Lt | Ge].
      * split.
        -- exists x. split; [| exact Fx].
           rewrite nth_error_app2 by lia. now rewrite Nat.sub_diag.
        -- intros j p loc' N F.
           apply nth_error_snoc in N. destruct N as [[Lj N] | [-> ->]].
           ++ destruct (Min _ _ _ N F) as [M1 _]. lia.
           ++ rewrite Fx in F. injection F as <-. lia.
      * split.
        -- exists p0. split; [| exact F0].
           rewrite nth_error_app1; [exact N0 |].
           apply nth_error_Some. now rewrite N0.
        -- intros j p loc' N F.
           apply nth_error_snoc in N. destruct N as [[Lj N] | [-> ->]].
           ++ exact (Min _ _ _ N F).
           ++ rewrite Fx in F. injection F as <-. split; [exact Ge |].
              intros _. apply Nat.lt_le_incl. apply nth_error_Some. now rewrite N0.
    + split.
      * exists x. split; [| exact Fx].
        rewrite nth_error_app2 by lia. now rewrite Nat.sub_diag.
      * intros j p loc' N F.
        apply nth_error_snoc in N. destruct N as [[Lj N] | [-> ->]].
        -- rewrite (Inv _ _ N) in F. discriminate F.
        -- rewrite Fx in F. injection F as <-. lia.
  - destruct best as [[pi loc0] |].
    + destruct Inv as [[p0 [N0 F0]] Min]. split.
      * exists p0. split; [| exact F0].
        rewrite nth_error_app1; [exact N0 |].
        apply nth_error_Some. now rewrite N0.
      * intros j p loc' N F.
        apply nth_error_snoc in N. destruct N as [[Lj N] | [-> ->]].
        -- exact (Min _ _ _ N F).
        -- rewrite Fx in F. discriminate F.
    + intros j p N.
      apply nth_error_snoc in N. destruct N as [[Lj N] | [-> ->]].
      * exact (Inv _ _ N).
      * exact Fx.
Qed.

Lemma range_pick (l pre : list inlinePattern) (best : option (nat * (nat * nat))) :
  earliestOf pre best ->
  earliestOf (pre ++ l) (range_from pick (List.length pre) l best).
Proof.
  revert pre best. induction l as [| x l IH]; intros pre best Inv; simpl.
  - now rewrite app_nil_r.
  - replace (pre ++ x :: l)%list with ((pre ++ [x]) ++ l)%list
      by (rewrite <- app_assoc; reflexivity).
    replace (S (List.length pre)) with (List.length (pre ++ [x])%list)
      by (rewrite length_app; simpl; lia).
    apply IH. now apply pick_keeps.
Qed.

Lemma earliest_spec (pats : list inlinePattern) :
  earliestOf pats (earliest pats remaining).
Proof.
  unfold earliest, range. change pats with ([] ++ pats)%list at 1.
  apply (range_pick pats []). intros j p N. destruct j; discriminate N.
Qed.

End Earliest.

(** ** The inline parser returns *)

Definition returns (A : Type) (c : M A) : Prop :=
  forall w, exists a w', c w = Some (a, w').

Lemma returns_ret (A : Type) (a : A) : returns (ret a).
Proof. intros w. now exists a, w. Qed.

Lemma returns_bind (A B : Type) (c : M A) (k : A -> M B) :
  returns c -> (forall a, returns (k a)) -> returns (bind c k).
Proof.
  intros Hc Hk w. unfold bind.
  destruct (Hc w) as [a [w' E]]. rewrite E. apply Hk.
Qed.

Lemma returns_localID : returns localID.
Proof. intros w. unfold localID. destruct (GenerateLocalID w) as [id w']. now exists id, w'. Qed.

Create HintDb returns.
#[local] Hint Resolve returns_ret returns_bind returns_localID : returns.

Lemma patterns_nonnull :
  forallb (fun p => negb (anchored (re p)) && nonnull (body (re p))) patterns = true.
Proof. reflexivity. Qed.

Lemma handlers_return :
  Forall (fun p => forall m, returns (handler p m)) patterns.
Proof.
  unfold patterns. repeat constructor; intros m; simpl; auto with returns.
Qed.

Lemma inlineLoop_returns (fuel : nat) :
  forall (remaining : string) (result : list value),
    String.length remaining < fuel -> returns (inlineLoop fuel remaining result).
Proof.
  induction fuel as [| fuel IH]; intros remaining result L; [lia |].
  cbn [inlineLoop].
  destruct (String.length remaining =? 0)%nat; [apply returns_ret |].
  pose proof (earliest_spec remaining patterns) as Spec.
  destruct (earliest patterns remaining) as [[pi [b e]] |]; [| apply returns_ret].
  destruct Spec as [[p [N F]] _].
  assert (P : In p patterns) by (eapply nth_error_In; exact N).
  rewrite (nth_error_nth _ _ noPattern N).
  pose proof patterns_nonnull as NN. rewrite forallb_forall in NN.
  specialize (NN _ P). apply andb_true_iff in NN. destruct NN as [A NN].
  apply negb_true_iff in A.
  destruct (FindStringIndex_bounds _ _ A NN F) as [B1 B2].
  pose proof handlers_return as HR. rewrite Forall_forall in HR.
  apply returns_bind; [apply HR; exact P |].
  intros node. apply IH.
  assert (D : forall n s, String.length (strings.drop n s) = String.length s - n).
  { clear. induction n; intros s; simpl; [lia |]. destruct s; simpl; [reflexivity | apply IHn]. }
  rewrite D. lia.
Qed.

(** [parseInlineContent] returns on every text: each turn of its loop
    leaves less text than it found. *)
Lemma parseInlineContent_returns (text : string) : returns (parseInlineContent text).
Proof.
  unfold parseInlineContent.
  destruct (String.eqb text EmptyString); [apply returns_ret |].
  apply returns_bind; [apply inlineLoop_returns; lia |].
  intros [| n r]; apply returns_ret.
Qed.

(** ** Earliest match wins *)

(** C4. On a turn of the inline loop the pattern chosen is one that
    matches, with its leftmost match; no pattern has a match starting
    earlier, and every pattern whose match starts at the same place comes
    later in the list.  On the example the mention comes first, then the
    space as plain text, then the text in bold. *)
Theorem earliest_match_wins (remaining : string) (pi : nat) (loc : nat * nat) :
  earliest patterns remaining = Some (pi, loc) ->
  (exists p, nth_error patterns pi = Some p
             /\ FindStringIndex (re p) remaining = Some loc)
  /\ (forall j p loc',
        nth_error patterns j = Some p ->
        FindStringIndex (re p) remaining = Some loc' ->
        fst loc <= fst loc' /\ (fst loc' = fst loc -> pi <= j))
  /\ (forall fuel result,
        inlineLoop (S fuel) remaining result
        = (node <- handler (nth pi patterns noPattern)
                     (match FindStringSubmatch (re (nth pi patterns noPattern))
                              (strings.take (snd loc - fst loc)
                                 (strings.drop (fst loc) remaining)) with
                      | Some m => m
                      | None => []
                      end) ;;
           inlineLoop fuel (strings.drop (snd loc) remaining)
             (append (if (0 <? fst loc)%nat
                      then append result (textNode (strings.take (fst loc) remaining))
                      else result)
                     node)))
  /\ (forall w,
        parseInlineContent "{user:42} **bold**" w
        = Some ([VMap [("type", VStr "mention");
                       ("attrs", VMap [("id", VStr "42"); ("text", VStr "@42")])];
                 textNode " ";
                 markedText "bold" [("type", VStr "strong")]],
                w)).
Proof.
  intros E.
  pose proof (earliest_spec remaining patterns) as Spec. rewrite E in Spec.
  destruct Spec as [S1 S2].
  split; [exact S1 |]. split; [exact S2 |]. split.
  - intros fuel result. cbn [inlineLoop]. rewrite E.
    destruct S1 as [p [N F]].
    assert (P : In p patterns) by (eapply nth_error_In; exact N).
    pose proof patterns_nonnull as NN. rewrite forallb_forall in NN.
    specialize (NN _ P). apply andb_true_iff in NN. destruct NN as [A NN].
    apply negb_true_iff in A. destruct loc as [b e].
    destruct (FindStringIndex_bounds _ _ A NN F) as [B1 B2].
    destruct (String.length remaining =? 0)%nat eqn:Z.
    + apply Nat.eqb_eq in Z. lia.
    + reflexivity.
  - intros w. vm_compute. reflexivity.
Qed.

Lemma earliest_match_wins_witness :
  earliest patterns " **bold** {user:42}" = Some (7, (1, 9))
  /\ (exists p, nth_error patterns 7 = Some p
                /\ FindStringIndex (re p) " **bold** {user:42}" = Some (1, 9)).
Proof.
  assert (E : earliest patterns " **bold** {user:42}" = Some (7, (1, 9)))
    by (vm_compute; reflexivity).
  split; [exact E |].
  exact (proj1 (earliest_match_wins _ E)).
Defined.

(** ** Tables *)

(** The lines of the table that starts [rest]: those at its head that start
    with a bar *)
Fixpoint tableRun (rest : list string) : list string :=
  match rest with
  | line :: rest' => if strings.HasPrefix line "|" then line :: tableRun rest' else []
  | [] => []
  end.

(** The test [parseTable] strips a row by *)
Definition stripped (line : string) : bool :=
  strings.Contains (strings.TrimSpace line) "---".

Definition keptRows (rest : list string) : list string :=
  filter (fun line => negb (stripped line)) (tableRun rest).

Definition kindOf (v : value) : string :=
  match v with
  | VMap m => get_string m "type"
  | _ => EmptyString
  end.

(** The kinds of the cells of a row *)
Definition cellKinds (row : value) : list string :=
  match row with
  | VMap m => map kindOf (children m)
  | _ => []
  end.

Definition rowsOf (table : option value) : list value :=
  match table with
  | Some (VMap m) => children m
  | _ => []
  end.

Definition cellCount (line : string) : nat :=
  List.length (parseTableRow (strings.TrimSpace line)).

(** The kinds the rows made of [kept] have, the first a header when
    [isFirstRow] *)
Definition expectedKinds (isFirstRow : bool) (kept : list string) : list (list string) :=
  match kept with
  | [] => []
  | first :: others =>
      repeat (if isFirstRow then "tableHeader" else "tableCell") (cellCount first)
        :: map (fun line => repeat "tableCell" (cellCount line)) others
  end.

Lemma tableCells_spec (cellType : string) (cells : list string) (w : World) :
  exists rowContent w',
    tableCells cellType cells w = Some (rowContent, w')
    /\ map kindOf rowContent = repeat cellType (List.length cells).
Proof.
  revert w. induction cells as [| cell cells IH]; intros w.
  - exists [], w. split; reflexivity.
  - cbn [tableCells]. unfold bind at 1.
    destruct (parseInlineContent_returns cell w) as [inline [w1 E1]]. rewrite E1.
    unfold bind at 1.
    destruct (IH w1) as [rc [w2 [E2 K]]]. rewrite E2.
    eexists. exists w2. split; [reflexivity |].
    simpl. now rewrite K.
Qed.

Lemma expectedKinds_later (kept : list string) :
  expectedKinds false kept = map (fun line => repeat "tableCell" (cellCount line)) kept.
Proof. destruct kept; reflexivity. Qed.

Lemma tableLoop_spec (rest : list string) :
  forall (i : nat) (isFirstRow : bool) (tableRows : list value) (w : World),
  exists rows w',
    tableLoop rest i isFirstRow tableRows w
    = Some ((tableRows ++ rows, i + List.length (tableRun rest))%list, w')
    /\ map cellKinds rows = expectedKinds isFirstRow (keptRows rest).
Proof.
  induction rest as [| line rest IH]; intros i isFirstRow tableRows w.
  - exists [], w. simpl. rewrite app_nil_r, Nat.add_0_r. split; reflexivity.
  - cbn [tableLoop tableRun]. unfold keptRows. cbn [tableRun].
    destruct (strings.HasPrefix line "|") eqn:P.
    + cbn [filter]. fold (stripped line).
      destruct (stripped line) eqn:St; cbn [negb].
      * destruct (IH (i + 1) isFirstRow tableRows w) as [rows [w' [E K]]].
        exists rows, w'. rewrite E. split; [| exact K].
        simpl. do 3 f_equal. lia.
      * unfold bind at 1.
        destruct (tableCells_spec (if isFirstRow then "tableHeader" else "tableCell")
                    (parseTableRow (strings.TrimSpace line)) w) as [rc [w1 [E1 K1]]].
        rewrite E1.
        destruct (IH (i + 1) false
                    (append tableRows
                       (VMap [("type", VStr "tableRow"); ("content", VList rc)])) w1)
          as [rows [w' [E K]]].
        exists (VMap [("type", VStr "tableRow"); ("content", VList rc)] :: rows), w'.
        rewrite E. split.
        -- unfold append. rewrite <- app_assoc. simpl. do 3 f_equal. lia.
        -- cbn [map expectedKinds]. fold (keptRows rest).
           rewrite K, expectedKinds_later. f_equal. exact K1.
    + exists [], w. simpl. rewrite app_nil_r, Nat.add_0_r. split; reflexivity.
Qed.

(** What [parseTable] keeps.  The rows of the table are the lines of its run
    (the lines that start with a bar) that do not contain three dashes in a
    row, in their order; the first of them is made of header cells and the
    others of plain cells, one cell for each field of the line; lines that
    contain three dashes in a row are stripped, whatever else they hold. *)
Theorem table_rows_are_the_lines_without_three_dashes
    (lines : list string) (startIdx : nat) (w : World) :
  exists table w',
    parseTable lines startIdx w
    = Some ((table, startIdx + List.length (tableRun (skipn startIdx lines))), w')
    /\ map cellKinds (rowsOf table)
       = expectedKinds true (keptRows (skipn startIdx lines))
    /\ (table = None <-> keptRows (skipn startIdx lines) = []).
Proof.
  unfold parseTable, bind.
  destruct (tableLoop_spec (skipn startIdx lines) startIdx true [] w)
    as [rows [w' [E K]]].
  rewrite E. simpl app.
  destruct rows as [| row rows].
  - exists None, w'. split; [reflexivity |]. split; [exact K |].
    split; [| reflexivity]. intros _.
    destruct (keptRows (skipn startIdx lines)); [reflexivity | discriminate K].
  - eexists. exists w'. split; [reflexivity |]. split; [exact K |].
    split; [discriminate |]. intros N. rewrite N in K. discriminate K.
Qed.

(** A row is dash-only, in the words of the specification, when each of
    its cells is a non-empty run of dashes. *)
Definition dashOnly (line : string) : bool :=
  forallb (fun cell => negb (String.eqb cell EmptyString)
                       && fmt.all (Ascii.eqb "-"%char) cell)
          (parseTableRow (strings.TrimSpace line)).

(** A row that is not dash-only is stripped, and a dash-only row is kept. *)
Lemma dash_only_rows_counterexample :
  dashOnly "| see --- here | x |" = false
  /\ dashOnly "|--|--|" = true
  /\ option_map (fun r => map cellKinds (rowsOf (fst (fst r))))
       (parseTable ["| A | B |"; "| see --- here | x |"; "|--|--|"] 0 stillWorld)
     = Some [["tableHeader"; "tableHeader"]; ["tableCell"; "tableCell"]]
  /\ result (tableCells "tableCell" (parseTableRow "|--|--|") stillWorld)
     = Some [VMap [("type", VStr "tableCell"); ("attrs", VMap []);
                   ("content", VList [paragraphOf [textNode "--"]])];
             VMap [("type", VStr "tableCell"); ("attrs", VMap []);
                   ("content", VList [paragraphOf [textNode "--"]])]].
Proof.
  repeat split; vm_compute; reflexivity.
Qed.

Definition cellOf (kind text : string) : value :=
  VMap [("type", VStr kind); ("attrs", VMap []);
        ("content", VList [paragraphOf [textNode text]])].

Definition rowOf (kind : string) (texts : list string) : value :=
  VMap [("type", VStr "tableRow"); ("content", VList (map (cellOf kind) texts))].

Definition tableOf (rows : list value) : value :=
  VMap [("type", VStr "table");
        ("attrs", VMap [("isNumberColumnEnabled", VBool false);
                        ("layout", VStr "default")]);
        ("content", VList rows)].

(** C5. A row of data that holds three dashes in a row is dropped with the
    separator row.  The table has a header, a separator and two rows of
    data; the first row of data has the cells [a] and [see --- here], which
    are not dash-only, and the table parsed has the header and the second
    row only.  With two dashes in the cell instead, the row is kept. *)
Theorem table_drops_data_row_with_three_dashes (fuel : nat) (w : World) :
  let lines := ["| Item | Note |"; "| --- | --- |"; "| a | see --- here |"; "| b | ok |"] in
  let kept := ["| Item | Note |"; "| --- | --- |"; "| a | see -- here |"; "| b | ok |"] in
  parseTableRow "| a | see --- here |" = ["a"; "see --- here"]
  /\ parseTable lines 0 w
     = Some ((Some (tableOf [rowOf "tableHeader" ["Item"; "Note"];
                             rowOf "tableCell" ["b"; "ok"]]), 4), w)
  /\ FromMarkdown (S (S fuel)) (strings.Join lines nl) w
     = Some (docOf [tableOf [rowOf "tableHeader" ["Item"; "Note"];
                             rowOf "tableCell" ["b"; "ok"]]], w)
  /\ parseTable kept 0 w
     = Some ((Some (tableOf [rowOf "tableHeader" ["Item"; "Note"];
                             rowOf "tableCell" ["a"; "see -- here"];
                             rowOf "tableCell" ["b"; "ok"]]), 4), w).
Proof.
  repeat split; vm_compute; reflexivity.
Qed.

(** ** Headings *)

Definition noHeading (doc : Node) : Prop :=
  Forall (fun block => kindOf block <> "heading") (children doc).

Lemma drop_all (n : nat) (s : string) :
  String.length s <= n -> strings.drop n s = EmptyString.
Proof.
  revert s. induction n as [| n IH]; intros s L.
  - destruct s; [reflexivity | simpl in L; lia].
  - destruct s; [reflexivity |]. simpl in *. apply IH. lia.
Qed.

(** Against C3 as stated: neither line gives a block.  Ten hashes are not
    clamped to a heading of level 6, and a hash with no space after it does
    not become a paragraph. *)
Lemma heading_clamp_counterexample :
  result (FromMarkdown 2 "########## x" stillWorld) = Some (docOf [])
  /\ result (FromMarkdown 2 "#x" stillWorld) = Some (docOf []).
Proof.
  split; vm_compute; reflexivity.
Qed.


Lemma get_set_same (V : Type) (m : list (string * V)) (k : string) (v : V) :
  gomap.get (gomap.set m k v) k = Some v.
Proof.
  induction m as [| [k1 v1] m IH]; simpl.
  - now rewrite String.eqb_refl.
  - destruct (String.eqb k1 k) eqn:E; simpl; rewrite E; [reflexivity | exact IH].
Qed.

Lemma get_set_other (V : Type) (m : list (string * V)) (k k' : string) (v : V) :
  k <> k' -> gomap.get (gomap.set m k v) k' = gomap.get m k'.
Proof.
  intros N. induction m as [| [k1 v1] m IH]; simpl.
  - apply String.eqb_neq in N. now rewrite N.
  - destruct (String.eqb_spec k1 k) as [-> | N1]; simpl.
    + apply String.eqb_neq in N. now rewrite N.
    + now rewrite IH.
Qed.

(** The attributes of a block, after the pending metadata is applied *)
Definition withMetadata (metadata : list (string * string)) (attrs : Node) : Node :=
  fold_left (fun a kv => gomap.set a (fst kv) (VStr (snd kv))) metadata attrs.

Lemma withMetadata_other (metadata : list (string * string)) (k : string) :
  gomap.get metadata k = None ->
  forall attrs, gomap.get (withMetadata metadata attrs) k = gomap.get attrs k.
Proof.
  induction metadata as [| [k1 v1] md IH]; intros H attrs; [reflexivity |].
  simpl in H. destruct (String.eqb_spec k1 k) as [E | N]; [discriminate |].
  unfold withMetadata in *. simpl. rewrite IH by assumption.
  now apply get_set_other.
Qed.

Lemma get_absent (V : Type) (m : list (string * V)) (k : string) :
  ~ In k (map fst m) -> gomap.get m k = None.
Proof.
  induction m as [| [k1 v1] m IH]; intros N; [reflexivity |].
  simpl in *. destruct (String.eqb_spec k1 k) as [E | _]; [tauto |].
  apply IH. tauto.
Qed.

Lemma withMetadata_same (metadata : list (string * string)) (k v : string) :
  NoDup (map fst metadata) -> gomap.get metadata k = Some v ->
  forall attrs, gomap.get (withMetadata metadata attrs) k = Some (VStr v).
Proof.
  induction metadata as [| [k1 v1] md IH]; intros D H attrs; [discriminate |].
  simpl in D. inversion D as [| ? ? N D']. subst.
  simpl in H. unfold withMetadata in *. simpl.
  destruct (String.eqb_spec k1 k) as [E | _].
  - injection H as <-. subst k1.
    change (fold_left (fun a kv => gomap.set a (fst kv) (VStr (snd kv))) md
              (gomap.set attrs k (VStr v1)))
      with (withMetadata md (gomap.set attrs k (VStr v1))).
    rewrite withMetadata_other by now apply get_absent.
    apply get_set_same.
  - now apply IH.
Qed.

Definition startsWithHash (s : string) : bool := strings.HasPrefix s "#".

Lemma countHashes_run (n : nat) (rest : string) :
  startsWithHash rest = false -> countHashes (strings.Repeat "#" n ++ rest) = n.
Proof.
  intros H. induction n as [| n IH]; simpl.
  - destruct rest as [| c rest]; [reflexivity |].
    unfold startsWithHash, strings.HasPrefix in H. simpl in H.
    destruct (Ascii.ascii_dec "#" c) as [<- | N]; [now destruct rest |].
    destruct c as [[] [] [] [] [] [] [] []]; try reflexivity. now elim N.
  - now rewrite IH.
Qed.

Lemma drop_run (n : nat) (rest : string) :
  strings.drop n (strings.Repeat "#" n ++ rest) = rest.
Proof.
  induction n as [| n IH]; [now destruct rest | exact IH].
Qed.

Lemma length_run (n : nat) (rest : string) :
  String.length (strings.Repeat "#" n ++ rest) = n + String.length rest.
Proof.
  induction n as [| n IH]; [reflexivity | simpl; now rewrite IH].
Qed.

Definition headingOfAttrs (attrs : Node) (content : list value) : value :=
  VMap [("type", VStr "heading"); ("attrs", VMap attrs); ("content", VList content)].

(** C3 as the code has it.  A level out of range is neither clamped nor an
    error.  A line is a run of [n] hashes and what follows it.  When [n] is
    one to six and a space follows the hashes, [parseHeading] makes a
    heading whose level is [n] and whose content is the rest of the line,
    trimmed and parsed as inline content; the attributes of a pending
    metadata comment are added to it (here one that does not set the level
    itself).  Of any other line it makes nothing: no hash, more than six,
    or no space after them.  So ten hashes give no heading, and a hash
    without a space gives no heading. *)
Theorem heading_level_is_checked_not_clamped
    (n : nat) (rest : string) (metadata : list (string * string))
    (fuel : nat) (w : World) :
  startsWithHash rest = false ->
  gomap.get metadata "level" = None ->
  NoDup (map fst metadata) ->
  (if (1 <=? n)%nat && (n <=? 6)%nat && strings.HasPrefix rest " "
   then exists content w' attrs,
          parseInlineContent (strings.TrimSpace (strings.drop 1 rest)) w
          = Some (content, w')
          /\ parseHeading (strings.Repeat "#" n ++ rest) metadata w
             = Some (Some (headingOfAttrs attrs content), w')
          /\ gomap.get attrs "level" = Some (VInt (Z.of_nat n))
          /\ (forall k v, gomap.get metadata k = Some v ->
                          gomap.get attrs k = Some (VStr v))
   else parseHeading (strings.Repeat "#" n ++ rest) metadata w = Some (None, w))
  /\ parseHeading "########## x" metadata w = Some (None, w)
  /\ parseHeading "#x" metadata w = Some (None, w)
  /\ parseHeading "###### x" [] w
     = Some (Some (headingOfAttrs [("level", VInt 6)] [textNode "x"]), w)
  /\ (exists doc, FromMarkdown (S (S fuel)) "########## x" w = Some (doc, w)
                  /\ noHeading doc)
  /\ (exists doc, FromMarkdown (S (S fuel)) "#x" w = Some (doc, w) /\ noHeading doc).
Proof.
  intros H M D.
  split; [| split; [| split; [| split; [| split]]]].
  - unfold parseHeading.
    rewrite (countHashes_run n _ H), drop_run, length_run.
    replace (strings.drop (n + 1) (strings.Repeat "#" n ++ rest))
      with (strings.drop 1 rest).
    2:{ clear. induction n as [| n IH]; [now destruct rest | exact IH]. }
    destruct (Nat.leb_spec 1 n) as [L1 | L1];
      destruct (Nat.leb_spec n 6) as [L6 | L6]; cbn [andb];
      destruct (Nat.eqb_spec n 0) as [Z | Z]; try lia;
      destruct (Nat.ltb_spec 6 n) as [G | G]; try lia;
      cbn [orb]; try reflexivity.
    destruct rest as [| c rest].
    + cbn. replace (n + 0 <=? n)%nat with true by (symmetry; apply Nat.leb_le; lia).
      reflexivity.
    + replace (n + String.length (String c rest) <=? n)%nat with false.
      2:{ symmetry. apply Nat.leb_gt. simpl. lia. }
      cbn [orb]. unfold strings.HasPrefix.
      change (strings.take 1 (String c rest)) with (String c EmptyString).
      change (String.prefix " " (String c rest))
        with (if Ascii.ascii_dec " " c then String.prefix EmptyString rest else false).
      destruct (Ascii.ascii_dec " " c) as [<- | N].
      * replace (String.prefix EmptyString rest) with true by now destruct rest.
        cbn [negb String.eqb Ascii.eqb Bool.eqb andb]. unfold bind.
        destruct (parseInlineContent_returns
                    (strings.TrimSpace (strings.drop 1 (String " " rest))) w)
          as [content [w' E]].
        rewrite E.
        exists content, w', (withMetadata metadata [("level", VInt (Z.of_nat n))]).
        split; [reflexivity |]. split; [reflexivity |]. split.
        -- now rewrite withMetadata_other.
        -- intros k v G'. now apply withMetadata_same.
      * replace (String.eqb (String c EmptyString) " ") with false; [reflexivity |].
        symmetry. apply String.eqb_neq. congruence.
  - reflexivity.
  - reflexivity.
  - vm_compute. reflexivity.
  - exists (docOf []). split; [vm_compute; reflexivity | constructor].
  - exists (docOf []). split; [vm_compute; reflexivity | constructor].
Qed.

Lemma heading_level_is_checked_not_clamped_witness :
  exists content w' attrs,
    parseHeading "## Title" [("id", "intro")] stillWorld
    = Some (Some (headingOfAttrs attrs content), w')
    /\ gomap.get attrs "level" = Some (VInt 2)
    /\ gomap.get attrs "id" = Some (VStr "intro").
Proof.
  assert (H : startsWithHash " Title" = false) by reflexivity.
  assert (M : gomap.get [("id", "intro")] "level" = None) by reflexivity.
  assert (D : NoDup (map fst [("id", "intro")])).
  { repeat constructor. simpl. tauto. }
  destruct (proj1 (@heading_level_is_checked_not_clamped 2 " Title" [("id", "intro")]
                     0 stillWorld H M D))
    as [content [w' [attrs [_ [P [L A]]]]]].
  exists content, w', attrs. split; [exact P |]. split; [exact L |].
  now apply A.
Defined.

(** ** Media *)

Definition mediaSingleOf (media : value) : value :=
  VMap [("type", VStr "mediaSingle");
        ("attrs", VMap [("layout", VStr "align-start")]);
        ("content", VList [media])].

Definition pendingMedia (id alt src : string) : value :=
  VMap [("type", VStr "media");
        ("attrs", VMap [("id", VStr id); ("type", VStr "file"); ("alt", VStr alt);
                        ("_source", VStr src)])].

Definition resolvedMedia (id collection type alt : string) : value :=
  VMap [("type", VStr "media");
        ("attrs", VMap [("id", VStr id); ("collection", VStr collection);
                        ("type", VStr type); ("alt", VStr alt)])].

Definition noColon (s : string) : Prop := strings.mem ":"%char s = false.

Lemma SplitN_field (field rest : string) (n : nat) :
  noColon field ->
  strings.SplitN (field ++ ":" ++ rest) ":"%char (S (S n))
  = field :: strings.SplitN rest ":"%char (S n).
Proof.
  unfold noColon, strings.mem.
  induction field as [| c field IH]; intros H.
  - reflexivity.
  - cbn [list_ascii_of_string existsb] in H. apply orb_false_iff in H.
    destruct H as [Hc H]. specialize (IH H).
    change ((String c field ++ ":" ++ rest)) with (String c (field ++ ":" ++ rest)).
    cbn [strings.SplitN].
    rewrite Ascii.eqb_sym in Hc. rewrite Hc. fold strings.SplitN.
    change (match n with 0 => _ | S _ => _ end) with (strings.SplitN (field ++ ":" ++ rest) ":"%char (S (S n))).
    now rewrite IH.
Qed.

Lemma prefix_append (p s : string) : String.prefix p (p ++ s) = true.
Proof.
  induction p as [| c p IH]; simpl.
  - now destruct s.
  - destruct (ascii_dec c c) as [_ | N]; [exact IH | now elim N].
Qed.

(** What a class run has consumed is made of the class. *)
Lemma star_consumed (p : ascii -> bool) (s rest : string) :
  In rest (regexp.star p s) ->
  fmt.all p (strings.take (String.length s - String.length rest) s) = true.
Proof.
  induction s as [| c s IH]; intros H.
  - simpl in H. destruct H as [<- | []]. reflexivity.
  - simpl in H. destruct (p c) eqn:P.
    + apply in_app_or in H. destruct H as [H | [<- | []]].
      * pose proof (star_shorter _ _ _ H) as L.
        replace (String.length (String c s) - String.length rest)
          with (S (String.length s - String.length rest))
          by (change (String.length (String c s)) with (S (String.length s)); lia).
        unfold fmt.all. cbn [strings.take list_ascii_of_string forallb].
        rewrite P. exact (IH H).
      * now rewrite Nat.sub_diag.
    + destruct H as [<- | []]. now rewrite Nat.sub_diag.
Qed.

Lemma find_at_match (r : regex) (s : string) :
  forall (off b e : nat) (cs : caps),
    find_at r s off = Some (b, e, cs) ->
    exists s' m, In m (rmatch r s') /\ snd m = cs.
Proof.
  induction s as [| c s IH]; intros off b e cs H; simpl in H.
  - destruct (rmatch r EmptyString) as [| m l] eqn:E; [discriminate |].
    injection H as _ _ <-. exists EmptyString, m. rewrite E. split; [now left | reflexivity].
  - destruct (rmatch r (String c s)) as [| m l] eqn:E.
    + now apply IH in H.
    + injection H as _ _ <-. exists (String c s), m. rewrite E.
      split; [now left | reflexivity].
Qed.

Lemma extractMediaIDFromURL_chars (contentURL : string) :
  fmt.all mediaIDChar (extractMediaIDFromURL contentURL) = true.
Proof.
  unfold extractMediaIDFromURL, FindStringSubmatch, search. cbn [anchored mediaIDRe body].
  destruct (find_at _ contentURL 0) as [[[b e] cs] |] eqn:F; [| reflexivity].
  cbn [option_map submatches]. cbn.
  apply find_at_match in F as [s [m [I <-]]].
  cbn [cat rmatch] in I.
  apply in_flat_map in I as [m1 [I1 I]].
  apply in_map_iff in I as [m23 [<- I23]].
  apply in_flat_map in I23 as [m2 [I2 I3]].
  apply in_map_iff in I3 as [m3 [<- I3]].
  destruct (String.prefix "/file/" s); [| contradiction].
  destruct I1 as [<- | []]. cbn [fst snd app] in *.
  apply in_map_iff in I2 as [m0 [<- I0]]. cbn [fst snd] in *.
  destruct (String.prefix "/" (fst m0)); [| contradiction].
  destruct I3 as [<- | []]. cbn [snd].
  set (s1 := strings.drop (String.length "/file/") s) in *.
  destruct s1 as [| c s1]; [contradiction |].
  destruct (mediaIDChar c) eqn:P; [| contradiction].
  apply in_map_iff in I0 as [rest [<- I0]]. cbn [fst snd app].
  unfold group. cbn [find fst snd Nat.eqb].
  pose proof (star_shorter _ _ _ I0) as L.
  replace (String.length (String c s1) - String.length rest)
    with (S (String.length s1 - String.length rest))
    by (change (String.length (String c s1)) with (S (String.length s1)); lia).
  cbn [strings.take list_ascii_of_string forallb]. rewrite P.
  exact (star_consumed _ _ _ I0).
Qed.

(** *** Identifiers drawn from different random bytes differ *)

Lemma length_append (a b : string) :
  String.length (a ++ b) = String.length a + String.length b.
Proof. induction a; simpl; congruence. Qed.

Lemma hex_digit_length (z : Z) : String.length (fmt.hex_digit z) = 1.
Proof. reflexivity. Qed.

Lemma hex_digits_length (n : nat) :
  forall z, String.length (fmt.hex_digits n z) = n.
Proof.
  induction n as [| n IH]; intros z; [reflexivity |].
  cbn [fmt.hex_digits]. rewrite length_append, IH, hex_digit_length. lia.
Qed.

Lemma append_tail_inj (a a' t t' : string) :
  (a ++ t)%string = (a' ++ t')%string -> String.length t = String.length t' ->
  a = a' /\ t = t'.
Proof.
  revert a'. induction a as [| c a IH]; intros a' E L.
  - destruct a' as [| c' a']; [now split |].
    simpl in E. subst t. simpl in L. rewrite length_append in L. lia.
  - destruct a' as [| c' a'].
    + simpl in E. subst t'. simpl in L. rewrite length_append in L. lia.
    + simpl in E. injection E as -> E. destruct (IH _ E L) as [-> ->]. now split.
Qed.

Lemma hex_digit_inj (a b : Z) :
  (0 <= a < 16)%Z -> (0 <= b < 16)%Z -> fmt.hex_digit a = fmt.hex_digit b -> a = b.
Proof.
  intros A B E.
  assert (Ca : (a = 0 \/ a = 1 \/ a = 2 \/ a = 3 \/ a = 4 \/ a = 5 \/ a = 6 \/ a = 7
               \/ a = 8 \/ a = 9 \/ a = 10 \/ a = 11 \/ a = 12 \/ a = 13 \/ a = 14
               \/ a = 15)%Z) by lia.
  assert (Cb : (b = 0 \/ b = 1 \/ b = 2 \/ b = 3 \/ b = 4 \/ b = 5 \/ b = 6 \/ b = 7
               \/ b = 8 \/ b = 9 \/ b = 10 \/ b = 11 \/ b = 12 \/ b = 13 \/ b = 14
               \/ b = 15)%Z) by lia.
  clear A B.
  repeat (destruct Ca as [-> | Ca]); try subst a;
    repeat (destruct Cb as [-> | Cb]); try subst b;
    first [reflexivity | vm_compute in E; discriminate E].
Qed.

Lemma hex_digits_inj (n : nat) :
  forall z z' : Z,
    fmt.hex_digits n z = fmt.hex_digits n z' ->
    (z mod 16 ^ Z.of_nat n = z' mod 16 ^ Z.of_nat n)%Z.
Proof.
  induction n as [| n IH]; intros z z' E.
  - now rewrite !Z.mod_1_r.
  - cbn [fmt.hex_digits] in E.
    apply append_tail_inj in E as [E1 E2]; [| now rewrite !hex_digit_length].
    apply IH in E1.
    apply hex_digit_inj in E2; try (apply Z.mod_pos_bound; lia).
    rewrite Nat2Z.inj_succ, Z.pow_succ_r by lia.
    rewrite !Z.rem_mul_r by lia. congruence.
Qed.

Lemma x_bytes8_inj (b b' : Z) :
  fmt.x_bytes8 b = fmt.x_bytes8 b' -> (b mod 2 ^ 64 = b' mod 2 ^ 64)%Z.
Proof.
  unfold fmt.x_bytes8. intros E. apply hex_digits_inj in E.
  change (16 ^ Z.of_nat 16)%Z with (2 ^ 64)%Z in E.
  now rewrite !Z.mod_mod in E by lia.
Qed.

(** The placeholder id of a pending media node, made in world [w] *)
Definition placeholderOf (w : World) : string :=
  "__PENDING_UPLOAD_" ++ fst (GenerateLocalID w) ++ "__".

Lemma append_head_inj (a s s' : string) : (a ++ s)%string = (a ++ s')%string -> s = s'.
Proof.
  induction a as [| c a IH]; intros E; [exact E |].
  simpl in E. injection E as E. now apply IH.
Qed.

Lemma placeholder_fresh (w w2 : World) :
  (snd (w O) mod 2 ^ 64 <> snd (w2 O) mod 2 ^ 64)%Z ->
  placeholderOf w <> placeholderOf w2.
Proof.
  intros N E. apply N. clear N.
  unfold placeholderOf, GenerateLocalID in E. cbn [fst] in E.
  apply append_head_inj in E.
  apply append_tail_inj in E as [E _]; [| reflexivity].
  rewrite <- !append_assoc in E.
  apply append_tail_inj in E as [_ E].
  - now apply x_bytes8_inj.
  - unfold fmt.x_bytes8. now rewrite !hex_digits_length.
Qed.
(** The attributes of a media node *)
Definition nodeOf (v : value) : Node :=
  match v with VMap m => m | _ => [] end.

(** C9. A standalone image whose source is not an attachment reference
    becomes a mediaSingle around a pending media node.  Its [_source] is the
    source as written.  Its id is a placeholder around a fresh local
    identifier: the parser draws it from the clock and the random bytes and
    leaves the next draw to the next node, so that two placeholders differ
    whenever the random bytes drawn for them differ, as for two images of
    one document.  The placeholder is not empty, and it is not in the format
    of the identifier of an attachment: it is no run of the bytes that
    [extractMediaIDFromURL] reads an identifier from, so no content URL gives
    it.  The upload step takes the node for upload, with that source.  A
    source of the form [jira-media:id:collection:type] becomes a media node
    with that id, collection and type; it draws no identifier, and the
    upload step passes it by, whatever its id. *)
Theorem pending_media_placeholder
    (alt src id collection type contentURL : string) (fuel : nat) (w w2 : World) :
  src <> EmptyString ->
  strings.HasPrefix src "jira-media:" = false ->
  noColon id -> noColon collection ->
  parseStandaloneImage alt src w
  = Some (mediaSingleOf (pendingMedia (placeholderOf w) alt src), fun k => w (S k))
  /\ placeholderOf w <> EmptyString
  /\ ((snd (w O) mod 2 ^ 64 <> snd (w2 O) mod 2 ^ 64)%Z ->
      placeholderOf w <> placeholderOf w2)
  /\ fmt.all mediaIDChar (placeholderOf w) = false
  /\ extractMediaIDFromURL contentURL <> placeholderOf w
  /\ pendingSource (nodeOf (mediaSingleOf (pendingMedia (placeholderOf w) alt src)))
     = Some src
  /\ parseMediaFromImage alt ("jira-media:" ++ id ++ ":" ++ collection ++ ":" ++ type) w
     = Some (resolvedMedia id collection type alt, w)
  /\ pendingSource (nodeOf (mediaSingleOf (resolvedMedia id collection type alt))) = None
  /\ FromMarkdown (S (S fuel)) "![cat](https://x/cat.png)" w
     = Some (docOf [mediaSingleOf
                      (pendingMedia (placeholderOf w) "cat" "https://x/cat.png")],
             fun k => w (S k))
  /\ FromMarkdown (S (S (S fuel))) ("![cat](https://x/cat.png)" ++ nl ++ "![dog](./dog.png)") w
     = Some (docOf [mediaSingleOf
                      (pendingMedia (placeholderOf w) "cat" "https://x/cat.png");
                    mediaSingleOf
                      (pendingMedia (placeholderOf (fun k => w (S k))) "dog" "./dog.png")],
             fun k => w (S (S k))).
Proof.
  intros Hsrc Hpre Hid Hcol.
  assert (C : fmt.all mediaIDChar (placeholderOf w) = false) by reflexivity.
  repeat match goal with |- _ /\ _ => split end.
  - unfold parseStandaloneImage, parseMediaFromImage. rewrite Hpre. reflexivity.
  - discriminate.
  - apply placeholder_fresh.
  - exact C.
  - intros E. rewrite <- E, extractMediaIDFromURL_chars in C. discriminate C.
  - unfold pendingSource, placeholderOf, strings.HasPrefix.
    cbn [nodeOf mediaSingleOf pendingMedia gomap.get String.eqb Ascii.eqb Bool.eqb
         get_map get_string].
    rewrite prefix_append. cbn [negb].
    destruct src; [now elim Hsrc | reflexivity].
  - unfold parseMediaFromImage.
    unfold strings.TrimPrefix, strings.HasPrefix. rewrite prefix_append.
    change (strings.drop (String.length "jira-media:")
              ("jira-media:" ++ id ++ ":" ++ collection ++ ":" ++ type))
      with (id ++ ":" ++ collection ++ ":" ++ type).
    cbv iota.
    rewrite (SplitN_field (collection ++ ":" ++ type) 1 Hid).
    rewrite (SplitN_field type 0 Hcol).
    destruct type; reflexivity.
  - unfold pendingSource.
    cbn [nodeOf mediaSingleOf resolvedMedia gomap.get String.eqb Ascii.eqb Bool.eqb
         get_map get_string].
    now destruct (strings.HasPrefix id "__PENDING_UPLOAD_").
  - unfold placeholderOf. lazy -[GenerateLocalID]. reflexivity.
  - unfold placeholderOf. lazy -[GenerateLocalID]. reflexivity.
Qed.

Lemma pending_media_placeholder_witness :
  parseStandaloneImage "cat" "./img/cat.png" stillWorld
  = Some (mediaSingleOf
            (pendingMedia "__PENDING_UPLOAD_0-0000000000000000__" "cat" "./img/cat.png"),
          stillWorld)
  /\ parseMediaFromImage "cat" "jira-media:abc-123:mediaServiceAttachments:file" stillWorld
     = Some (resolvedMedia "abc-123" "mediaServiceAttachments" "file" "cat", stillWorld)
  /\ extractMediaIDFromURL "https://api.media.atlassian.com/file/abc-123/binary"
     <> "__PENDING_UPLOAD_0-0000000000000000__".
Proof.
  assert (Hsrc : "./img/cat.png" <> EmptyString) by discriminate.
  assert (Hpre : strings.HasPrefix "./img/cat.png" "jira-media:" = false) by reflexivity.
  assert (Hid : noColon "abc-123") by reflexivity.
  assert (Hcol : noColon "mediaServiceAttachments") by reflexivity.
  pose proof (pending_media_placeholder "cat" "file"
                "https://api.media.atlassian.com/file/abc-123/binary" 0
                stillWorld stillWorld Hsrc Hpre Hid Hcol)
    as [A [_ [_ [_ [X [_ [B _]]]]]]].
  split; [exact A |]. split; [exact B | exact X].
Defined.

(** ** Plain text

    Text that no part of the dialect reads as markup: letters, digits and
    spaces, with a letter or digit at both ends. *)

Definition wordChar (c : ascii) : bool := is_digit c || is_upper c || is_lower c.

Definition plainChar (c : ascii) : bool := wordChar c || Ascii.eqb c " "%char.

Fixpoint endsWithWord (t : string) : bool :=
  match t with
  | EmptyString => false
  | String c t' =>
      match t' with
      | EmptyString => wordChar c
      | String _ _ => endsWithWord t'
      end
  end.

Definition plainText (t : string) : bool :=
  match t with
  | EmptyString => false
  | String c _ => wordChar c && fmt.all plainChar t && endsWithWord t
  end.

(** A pattern that matches no text made of letters, digits and spaces: along
    every way through it there is a literal with another character, or a
    class without any of these. *)
Definition classless (p : ascii -> bool) : bool :=
  forallb (fun n => negb (plainChar (ascii_of_nat n) && p (ascii_of_nat n))) (seq 0 256).

Fixpoint markup (r : regex) : bool :=
  match r with
  | Lit l => negb (fmt.all plainChar l)
  | Cls p | Plus p | PlusLazy p => classless p
  | Star _ | Opt _ | Eol => false
  | Seq a b => markup a || markup b
  | Alt a b => markup a && markup b
  | Grp _ a => markup a
  end.

Lemma classless_spec (p : ascii -> bool) (c : ascii) :
  classless p = true -> plainChar c = true -> p c = false.
Proof.
  unfold classless. intros H Hc. rewrite forallb_forall in H.
  assert (I : In (nat_of_ascii c) (seq 0 256)).
  { apply in_seq. pose proof (nat_ascii_bounded c). lia. }
  specialize (H _ I). rewrite ascii_nat_embedding, Hc in H.
  cbn [andb] in H. now apply negb_true_iff in H.
Qed.

Lemma all_cons (p : ascii -> bool) (c : ascii) (s : string) :
  fmt.all p (String c s) = p c && fmt.all p s.
Proof. reflexivity. Qed.

Lemma prefix_all (p : ascii -> bool) (l s : string) :
  String.prefix l s = true -> fmt.all p s = true -> fmt.all p l = true.
Proof.
  revert s. induction l as [| a l IH]; intros s P A; [reflexivity |].
  destruct s as [| b s]; simpl in P; [discriminate |].
  destruct (ascii_dec a b) as [-> |]; [| discriminate].
  rewrite all_cons in *. apply andb_true_iff in A. destruct A as [A1 A2].
  rewrite A1. simpl. exact (IH _ P A2).
Qed.

Lemma drop_all_chars (p : ascii -> bool) (n : nat) (s : string) :
  fmt.all p s = true -> fmt.all p (strings.drop n s) = true.
Proof.
  revert s. induction n as [| n IH]; intros s A; [exact A |].
  destruct s as [| c s]; [reflexivity |].
  rewrite all_cons in A. apply andb_true_iff in A. simpl. apply IH. apply A.
Qed.

Lemma star_rest_all (q p : ascii -> bool) (s rest : string) :
  fmt.all q s = true -> In rest (regexp.star p s) -> fmt.all q rest = true.
Proof.
  revert rest. induction s as [| c s IH]; intros rest A H; simpl in H.
  - destruct H as [<- | []]. exact A.
  - pose proof A as A'. rewrite all_cons in A'. apply andb_true_iff in A'.
    destruct (p c).
    + apply in_app_or in H. destruct H as [H | [<- | []]]; [| exact A].
      apply IH; [apply A' | exact H].
    + destruct H as [<- | []]. exact A.
Qed.

Lemma star_lazy_rest_all (q p : ascii -> bool) (s rest : string) :
  fmt.all q s = true -> In rest (regexp.star_lazy p s) -> fmt.all q rest = true.
Proof.
  revert rest. induction s as [| c s IH]; intros rest A H; simpl in H.
  - destruct H as [<- | []]. exact A.
  - pose proof A as A'. rewrite all_cons in A'. apply andb_true_iff in A'.
    destruct H as [<- | H]; [exact A |].
    destruct (p c); [| destruct H]. apply IH; [apply A' | exact H].
Qed.

(** What a match leaves of a text of such characters is such a text. *)
Lemma rmatch_rest_all (q : ascii -> bool) (r : regex) :
  forall (s : string) (m : string * caps),
    fmt.all q s = true -> In m (rmatch r s) -> fmt.all q (fst m) = true.
Proof.
  induction r as [l | p | p | p | p | a IHa b IHb | a IHa b IHb | a IHa | n a IHa |];
    intros s m A H; simpl in H.
  - destruct (String.prefix l s); [| destruct H].
    destruct H as [<- | []]. simpl. now apply drop_all_chars.
  - destruct s as [| c s]; [destruct H |].
    destruct (p c); [| destruct H]. destruct H as [<- | []]. simpl.
    rewrite all_cons in A. apply andb_true_iff in A. apply A.
  - apply plain_in in H. eapply star_rest_all; eassumption.
  - destruct s as [| c s]; [destruct H |].
    destruct (p c); [| destruct H]. apply plain_in in H.
    rewrite all_cons in A. apply andb_true_iff in A.
    eapply star_rest_all; [apply A | exact H].
  - destruct s as [| c s]; [destruct H |].
    destruct (p c); [| destruct H]. apply plain_in in H.
    rewrite all_cons in A. apply andb_true_iff in A.
    eapply star_lazy_rest_all; [apply A | exact H].
  - apply in_flat_map in H. destruct H as [m1 [H1 H2]].
    apply in_map_iff in H2. destruct H2 as [m2 [<- H2]]. simpl.
    eapply IHb; [| exact H2]. eapply IHa; eassumption.
  - apply in_app_or in H. destruct H as [H | H]; [eapply IHa | eapply IHb]; eassumption.
  - apply in_app_or in H. destruct H as [H | [<- | []]]; [eapply IHa; eassumption | exact A].
  - apply in_map_iff in H. destruct H as [m1 [<- H]]. simpl. eapply IHa; eassumption.
  - destruct s; [| destruct H]. destruct H as [<- | []]. exact A.
Qed.

Lemma markup_no_match (r : regex) :
  markup r = true ->
  forall s, fmt.all plainChar s = true -> rmatch r s = [].
Proof.
  induction r as [l | p | p | p | p | a IHa b IHb | a IHa b IHb | a IHa | n a IHa |];
    intros Mk s A; simpl in Mk |- *; try discriminate Mk.
  - destruct (String.prefix l s) eqn:P; [| reflexivity].
    rewrite (prefix_all _ _ _ P A) in Mk. discriminate Mk.
  - destruct s as [| c s]; [reflexivity |].
    rewrite all_cons in A. apply andb_true_iff in A.
    now rewrite (classless_spec _ _ Mk (proj1 A)).
  - destruct s as [| c s]; [reflexivity |].
    rewrite all_cons in A. apply andb_true_iff in A.
    now rewrite (classless_spec _ _ Mk (proj1 A)).
  - destruct s as [| c s]; [reflexivity |].
    rewrite all_cons in A. apply andb_true_iff in A.
    now rewrite (classless_spec _ _ Mk (proj1 A)).
  - apply orb_true_iff in Mk. destruct Mk as [Mk | Mk].
    + now rewrite (IHa Mk s A).
    + assert (E : forall l, (forall m, In m l -> fmt.all plainChar (fst m) = true) ->
                            flat_map (fun m1 : string * caps =>
                              map (fun m2 : string * caps => (fst m2, (snd m1 ++ snd m2)%list))
                                  (rmatch b (fst m1))) l = []).
      { induction l as [| m1 l IHl]; intros Hl; [reflexivity |].
        simpl. rewrite (IHb Mk (fst m1)) by (apply Hl; now left).
        simpl. apply IHl. intros m Hm. apply Hl. now right. }
      apply E. intros m Hm. eapply rmatch_rest_all; eassumption.
  - apply andb_true_iff in Mk. destruct Mk as [Ma Mb].
    now rewrite (IHa Ma s A), (IHb Mb s A).
  - now rewrite (IHa Mk s A).
Qed.

Lemma markup_not_found (r : regex) (s : string) (off : nat) :
  markup r = true -> fmt.all plainChar s = true -> find_at r s off = None.
Proof.
  intros Mk. revert off. induction s as [| c s IH]; intros off A; simpl.
  - now rewrite (markup_no_match _ Mk).
  - rewrite (markup_no_match _ Mk _ A).
    rewrite all_cons in A. apply andb_true_iff in A. apply IH, A.
Qed.

(** No pattern of markup is found in plain text. *)
Lemma markup_search (rx : Regexp) (s : string) :
  markup (body rx) = true -> fmt.all plainChar s = true -> search rx s = None.
Proof.
  intros Mk A. unfold search. destruct (anchored rx).
  - now rewrite (markup_no_match _ Mk _ A).
  - now apply markup_not_found.
Qed.

Lemma every_pattern_is_markup :
  forallb (fun rx => markup (body rx))
    ([MetadataCommentRe; FenceBlockRe; TaskItemRe; orderedStartRe; standaloneImageRe]
     ++ map re patterns)%list = true.
Proof. vm_compute. reflexivity. Qed.

(** ** White space around plain text *)

Definition startsWithWord (t : string) : bool :=
  match t with
  | String c _ => wordChar c
  | EmptyString => false
  end.

Lemma plainText_parts (t : string) :
  plainText t = true ->
  startsWithWord t = true /\ fmt.all plainChar t = true /\ endsWithWord t = true.
Proof.
  destruct t as [| c t]; [discriminate |]. unfold plainText. intros H.
  apply andb_true_iff in H. destruct H as [H E].
  apply andb_true_iff in H. destruct H as [W A]. now repeat split.
Qed.

(** No encoding of a space starts with a letter or a digit, read from either
    end. *)
Lemma word_is_no_space (encs : list (list ascii)) (c : ascii) (l : list ascii) :
  forallb (fun e => match e with
                    | h :: _ => negb (wordChar h)
                    | [] => false
                    end) encs = true ->
  wordChar c = true ->
  strings.leading_space encs (c :: l) = None.
Proof.
  intros H W. unfold strings.leading_space.
  assert (F : find (fun e => strings.list_prefix e (c :: l)) encs = None).
  { induction encs as [| e encs IH]; [reflexivity |].
    cbn [forallb] in H. apply andb_true_iff in H. destruct H as [He H].
    cbn [find]. destruct e as [| h e]; [discriminate He |].
    cbn [strings.list_prefix].
    destruct (Ascii.eqb_spec h c) as [-> | _].
    - rewrite W in He. discriminate He.
    - cbn [andb]. exact (IH H). }
  now rewrite F.
Qed.

Lemma strip_word (encs : list (list ascii)) (fuel : nat) (c : ascii) (l : list ascii) :
  forallb (fun e => match e with
                    | h :: _ => negb (wordChar h)
                    | [] => false
                    end) encs = true ->
  wordChar c = true ->
  strings.strip encs fuel (c :: l) = c :: l.
Proof.
  intros H W. destruct fuel; [reflexivity |].
  cbn [strings.strip]. now rewrite word_is_no_space.
Qed.

Lemma endsWithWord_rev (t : string) :
  endsWithWord t = true ->
  exists d l, rev (list_ascii_of_string t) = d :: l /\ wordChar d = true.
Proof.
  induction t as [| c t IH]; [discriminate |].
  cbn [endsWithWord list_ascii_of_string rev].
  destruct t as [| c' t].
  - intros W. now exists c, [].
  - intros E. destruct (IH E) as [d [l [R W]]].
    rewrite R. now exists d, (l ++ [c])%list.
Qed.

Lemma TrimSpace_word (t : string) :
  startsWithWord t = true -> endsWithWord t = true -> strings.TrimSpace t = t.
Proof.
  intros S E. unfold strings.TrimSpace.
  destruct t as [| c t]; [discriminate |].
  cbn [list_ascii_of_string].
  rewrite strip_word; [| reflexivity | exact S].
  destruct (endsWithWord_rev _ E) as [d [l [R W]]].
  cbn [list_ascii_of_string] in R. rewrite R.
  rewrite strip_word; [| reflexivity | exact W].
  rewrite <- R, rev_involutive.
  change (c :: list_ascii_of_string t) with (list_ascii_of_string (String c t)).
  apply string_of_list_ascii_of_string.
Qed.

Lemma wordChar_not_mem (c : ascii) (cutset : string) :
  wordChar c = true -> fmt.all (fun k => negb (wordChar k)) cutset = true ->
  strings.mem c cutset = false.
Proof.
  unfold strings.mem, fmt.all. intros W.
  induction (list_ascii_of_string cutset) as [| k ks IH]; [reflexivity |].
  cbn [forallb existsb]. intros H. apply andb_true_iff in H. destruct H as [Hk H].
  destruct (Ascii.eqb_spec c k) as [-> | _].
  - rewrite W in Hk. discriminate Hk.
  - cbn [orb]. exact (IH H).
Qed.

Lemma TrimRight_word (t cutset : string) :
  fmt.all (fun k => negb (wordChar k)) cutset = true ->
  endsWithWord t = true -> strings.TrimRight t cutset = t.
Proof.
  intros C. induction t as [| c t IH]; [discriminate |].
  cbn [endsWithWord strings.TrimRight].
  destruct t as [| c' t].
  - intros W. cbn [strings.TrimRight]. now rewrite (wordChar_not_mem _ _ W C).
  - intros E. now rewrite (IH E).
Qed.

(** ** Lines *)

Lemma Join_Split (s : string) (c : ascii) :
  strings.Join (strings.Split s c) (String c EmptyString) = s.
Proof.
  unfold strings.Join.
  induction s as [| a s IH]; [reflexivity |].
  cbn [strings.Split].
  destruct (Ascii.eqb_spec a c) as [-> | N].
  - destruct (strings.Split s c) as [| h tl] eqn:E.
    + simpl in IH. now subst s.
    + cbn [String.concat]. simpl. now rewrite <- IH.
  - destruct (strings.Split s c) as [| h tl] eqn:E.
    + simpl in IH. now subst s.
    + destruct tl; simpl in *; now rewrite <- IH.
Qed.

Lemma Split_nonempty (s : string) (c : ascii) : strings.Split s c <> [].
Proof.
  destruct s as [| a s]; [discriminate |]. cbn [strings.Split].
  destruct (Ascii.eqb a c); [discriminate |].
  destruct (strings.Split s c); discriminate.
Qed.

(** A text without the separator and then the rest *)
Lemma Split_append (t rest : string) (c : ascii) :
  fmt.all (fun k => negb (Ascii.eqb k c)) t = true ->
  strings.Split (t ++ String c rest) c = t :: strings.Split rest c.
Proof.
  induction t as [| a t IH]; intros A.
  - simpl. now rewrite Ascii.eqb_refl.
  - rewrite all_cons in A. apply andb_true_iff in A. destruct A as [Na A].
    apply negb_true_iff in Na.
    change (String a t ++ String c rest) with (String a (t ++ String c rest)).
    cbn [strings.Split]. rewrite Na. now rewrite (IH A).
Qed.

Lemma Split_line (t : string) (c : ascii) :
  fmt.all (fun k => negb (Ascii.eqb k c)) t = true -> strings.Split t c = [t].
Proof.
  induction t as [| a t IH]; intros A; [reflexivity |].
  rewrite all_cons in A. apply andb_true_iff in A. destruct A as [Na A].
  apply negb_true_iff in Na. cbn [strings.Split]. rewrite Na. now rewrite (IH A).
Qed.

Lemma all_impl (p q : ascii -> bool) (s : string) :
  (forall c, p c = true -> q c = true) -> fmt.all p s = true -> fmt.all q s = true.
Proof.
  intros I. induction s as [| c s IH]; [reflexivity |].
  rewrite !all_cons. intros H. apply andb_true_iff in H.
  rewrite (I _ (proj1 H)). exact (IH (proj2 H)).
Qed.

Lemma plainChar_not_LF (c : ascii) : plainChar c = true -> negb (Ascii.eqb c LF) = true.
Proof.
  intros P. destruct (Ascii.eqb_spec c LF) as [-> | _]; [discriminate P | reflexivity].
Qed.

(** ** Documents of plain paragraphs *)

Definition plainParagraph (t : string) : value := paragraphOf [textNode t].

Definition plainDocument (ts : list string) : Node := docOf (map plainParagraph ts).

(** The lines of the rendering: the texts, an empty line between them *)
Fixpoint paragraphLines (ts : list string) : list string :=
  match ts with
  | [] => []
  | t :: ts' =>
      match ts' with
      | [] => [t]
      | _ :: _ => t :: EmptyString :: paragraphLines ts'
      end
  end.

Definition blankLine : string := nl ++ nl.

Lemma Join_cons (t t' : string) (ts : list string) (sep : string) :
  strings.Join (t :: t' :: ts) sep = t ++ sep ++ strings.Join (t' :: ts) sep.
Proof. reflexivity. Qed.

Lemma plainText_not_empty (t : string) : plainText t = true -> t <> EmptyString.
Proof. intros H ->. discriminate H. Qed.

Lemma render_plain_paragraph (loc : time.Location) (t : string) (depth : nat) :
  t <> EmptyString ->
  renderTree loc (plainParagraph t) ENode depth = t.
Proof.
  intros N. destruct t as [| c t]; [now elim N |]. reflexivity.
Qed.

Lemma render_plain_parts (loc : time.Location) (ts : list string) :
  Forall (fun t => plainText t = true) ts ->
  forall (i : nat) (parts : list string),
    range_from
      (fun parts (_ : nat) node =>
         match node with
         | VMap nodeMap =>
             let rendered := renderADFNode loc (renderTree loc) nodeMap 0 in
             if negb (String.eqb rendered EmptyString) then append parts rendered else parts
         | _ => parts
         end) i (map plainParagraph ts) parts
    = (parts ++ ts)%list.
Proof.
  induction 1 as [| t ts P _ IH]; intros i parts.
  - simpl. now rewrite app_nil_r.
  - cbn [map range_from]. rewrite IH.
    unfold plainParagraph at 1, paragraphOf at 1. cbv iota.
    replace (renderADFNode loc (renderTree loc)
               [("type", VStr "paragraph"); ("content", VList [textNode t])] 0)
      with t
      by (symmetry; apply (render_plain_paragraph loc 0), plainText_not_empty, P).
    cbv zeta.
    destruct (String.eqb_spec t EmptyString) as [E | _].
    + now apply plainText_not_empty in P.
    + cbn [negb]. unfold append. now rewrite <- app_assoc.
Qed.

Lemma ToMarkdown_plain (loc : time.Location) (ts : list string) :
  Forall (fun t => plainText t = true) ts ->
  ToMarkdown loc (plainDocument ts) = NormalizeWhitespace (strings.Join ts blankLine).
Proof.
  intros P. unfold ToMarkdown, renderADFDocument.
  rewrite with_content_get. unfold plainDocument, docOf, range.
  cbn [gomap.get String.eqb Ascii.eqb Bool.eqb].
  now rewrite (render_plain_parts loc P).
Qed.

(** *** The rendering is already normal *)

Lemma prefix_first (a c : ascii) (p t : string) :
  a <> c -> String.prefix (String a p) (String c t) = false.
Proof.
  intros N.
  change (String.prefix (String a p) (String c t))
    with (if ascii_dec a c then String.prefix p t else false).
  destruct (ascii_dec a c); [contradiction | reflexivity].
Qed.

Lemma prefix_second (a b c : ascii) (p t : string) :
  b <> c -> String.prefix (String a (String b p)) (String a (String c t)) = false.
Proof.
  intros N.
  change (String.prefix (String a (String b p)) (String a (String c t)))
    with (if ascii_dec a a then String.prefix (String b p) (String c t) else false).
  destruct (ascii_dec a a); [now apply prefix_first | reflexivity].
Qed.

Lemma prefix_third (a b c : ascii) (p t : string) :
  b <> c ->
  String.prefix (String a (String a (String b p))) (String a (String a (String c t)))
  = false.
Proof.
  intros N.
  change (String.prefix (String a (String a (String b p)))
            (String a (String a (String c t))))
    with (if ascii_dec a a
          then String.prefix (String a (String b p)) (String a (String c t))
          else false).
  destruct (ascii_dec a a); [now apply prefix_second | reflexivity].
Qed.

Lemma no_three_newlines_from (t rest : string) :
  fmt.all plainChar t = true ->
  (forall off, find_at (body blankLinesRe) rest off = None) ->
  forall off, find_at (body blankLinesRe) (t ++ rest) off = None.
Proof.
  intros A R. induction t as [| c t IH]; intros off; [apply R |].
  rewrite all_cons in A. apply andb_true_iff in A. destruct A as [Pc A].
  change (String c t ++ rest) with (String c (t ++ rest)).
  cbn [find_at].
  assert (E : rmatch (body blankLinesRe) (String c (t ++ rest)) = []).
  { cbn [blankLinesRe body rmatch]. 
    assert (F : String.prefix (nl ++ nl ++ nl) (String c (t ++ rest)) = false).
    { apply prefix_first. intros <-. discriminate Pc. }
    now rewrite F. }
  rewrite E. apply IH, A.
Qed.

Lemma no_three_newlines (ts : list string) :
  Forall (fun t => plainText t = true) ts ->
  forall off, find_at (body blankLinesRe) (strings.Join ts blankLine) off = None.
Proof.
  induction 1 as [| t ts P Ps IH]; intros off; [reflexivity |].
  destruct (plainText_parts _ P) as [_ [A _]].
  destruct ts as [| t' ts].
  - change (strings.Join [t] blankLine) with t.
    rewrite <- (append_empty_r t). now apply no_three_newlines_from.
  - rewrite Join_cons. apply no_three_newlines_from; [exact A |].
    intros off'.
    assert (S' : startsWithWord (strings.Join (t' :: ts) blankLine) = true).
    { inversion Ps as [| ? ? P' _]. subst.
      destruct (plainText_parts _ P') as [S' _].
      destruct t' as [| c' t']; [discriminate S' |].
      destruct ts; exact S'. }
    destruct (strings.Join (t' :: ts) blankLine) as [| c' j] eqn:EJ; [discriminate S' |].
    assert (N : LF <> c').
    { intros <-. discriminate S'. }
    unfold blankLine, nl.
    change ((String LF EmptyString ++ String LF EmptyString) ++ String c' j)
      with (String LF (String LF (String c' j))).
    cbn [find_at blankLinesRe body rmatch].
    assert (F1 : String.prefix (nl ++ nl ++ nl) (String LF (String LF (String c' j))) = false).
    { apply prefix_third. exact N. }
    assert (F2 : String.prefix (nl ++ nl ++ nl) (String LF (String c' j)) = false).
    { apply prefix_second. exact N. }
    rewrite F1, F2. cbn [flat_map].
    exact (IH (S (S off'))).
Qed.

Lemma plain_no_LF (t : string) :
  fmt.all plainChar t = true -> fmt.all (fun k => negb (Ascii.eqb k LF)) t = true.
Proof. apply all_impl. exact plainChar_not_LF. Qed.

Lemma Split_paragraphs (ts : list string) :
  ts <> [] -> Forall (fun t => plainText t = true) ts ->
  strings.Split (strings.Join ts blankLine) LF = paragraphLines ts.
Proof.
  intros N P. induction P as [| t ts Pt Ps IH]; [now elim N |].
  destruct (plainText_parts _ Pt) as [_ [A _]].
  destruct ts as [| t' ts].
  - change (strings.Join [t] blankLine) with t. cbn [paragraphLines].
    apply Split_line, plain_no_LF, A.
  - rewrite Join_cons. cbn [paragraphLines].
    change (blankLine ++ strings.Join (t' :: ts) blankLine)
      with (String LF (String LF (strings.Join (t' :: ts) blankLine))).
    rewrite Split_append by apply plain_no_LF, A.
    cbn [strings.Split]. rewrite Ascii.eqb_refl.
    now rewrite IH.
Qed.

Lemma paragraphLines_trimmed (ts : list string) :
  Forall (fun t => plainText t = true) ts ->
  map (fun line => strings.TrimRight line (" " ++ tab)) (paragraphLines ts)
  = paragraphLines ts.
Proof.
  induction 1 as [| t ts Pt Ps IH]; [reflexivity |].
  destruct (plainText_parts _ Pt) as [_ [_ E]].
  assert (T : strings.TrimRight t (" " ++ tab) = t) by (now apply TrimRight_word).
  destruct ts as [| t' ts]; cbn [paragraphLines map].
  - now rewrite T.
  - rewrite T. cbn [paragraphLines] in IH. now rewrite IH.
Qed.

Lemma endsWithWord_append (a b : string) :
  b <> EmptyString -> endsWithWord (a ++ b) = endsWithWord b.
Proof.
  intros N. induction a as [| c a IH]; [reflexivity |].
  change (String c a ++ b) with (String c (a ++ b)). cbn [endsWithWord].
  destruct (a ++ b) as [| c' s] eqn:E.
  - destruct a; simpl in E; [now elim N | discriminate E].
  - exact IH.
Qed.

Lemma Join_plain_ends (ts : list string) :
  ts <> [] -> Forall (fun t => plainText t = true) ts ->
  startsWithWord (strings.Join ts blankLine) = true
  /\ endsWithWord (strings.Join ts blankLine) = true.
Proof.
  intros N P. induction P as [| t ts Pt Ps IH]; [now elim N |].
  destruct (plainText_parts _ Pt) as [S [_ E]].
  destruct ts as [| t' ts]; [now split |].
  rewrite Join_cons. split.
  - destruct t; [discriminate S | exact S].
  - destruct IH as [S' E']; [discriminate |].
    rewrite endsWithWord_append.
    + rewrite endsWithWord_append; [exact E' |].
      intros Z. rewrite Z in S'. discriminate S'.
    + discriminate.
Qed.

(** The rendering of plain paragraphs is left as it is by the
    normalization. *)
Lemma NormalizeWhitespace_plain (ts : list string) :
  Forall (fun t => plainText t = true) ts ->
  NormalizeWhitespace (strings.Join ts blankLine) = strings.Join ts blankLine.
Proof.
  intros P. destruct ts as [| t ts]; [reflexivity |].
  set (J := strings.Join (t :: ts) blankLine).
  assert (R : ReplaceAllString blankLinesRe J (nl ++ nl) = J).
  { unfold ReplaceAllString. destruct (String.length J); [reflexivity |].
    cbn [replace_all]. unfold J. now rewrite no_three_newlines. }
  unfold NormalizeWhitespace. rewrite R. unfold J.
  rewrite Split_paragraphs by (discriminate || assumption).
  rewrite paragraphLines_trimmed by assumption.
  rewrite <- Split_paragraphs by (discriminate || assumption).
  change nl with (String LF EmptyString). rewrite Join_Split.
  destruct (Join_plain_ends (ts := t :: ts)) as [S E]; [discriminate | assumption |].
  now apply TrimSpace_word.
Qed.

(** ** Parsing plain paragraphs *)

Lemma earliest_none (pats : list inlinePattern) (s : string) :
  (forall p, In p pats -> FindStringIndex (re p) s = None) ->
  earliest pats s = None.
Proof.
  unfold earliest, range. generalize 0.
  induction pats as [| p pats IH]; intros i H; [reflexivity |].
  cbn [range_from]. rewrite (H p) by now left.
  apply IH. intros q Hq. apply H. now right.
Qed.

Lemma markup_of (rx : Regexp) :
  In rx ([MetadataCommentRe; FenceBlockRe; TaskItemRe; orderedStartRe; standaloneImageRe]
         ++ map re patterns)%list ->
  markup (body rx) = true.
Proof.
  intros H. pose proof every_pattern_is_markup as E.
  rewrite forallb_forall in E. exact (E _ H).
Qed.

Lemma plain_not_searched (rx : Regexp) (s : string) :
  In rx ([MetadataCommentRe; FenceBlockRe; TaskItemRe; orderedStartRe; standaloneImageRe]
         ++ map re patterns)%list ->
  fmt.all plainChar s = true ->
  search rx s = None.
Proof. intros H A. apply markup_search; [now apply markup_of | exact A]. Qed.

Lemma parseInlineContent_plain (t : string) (w : World) :
  t <> EmptyString -> fmt.all plainChar t = true ->
  parseInlineContent t w = Some ([textNode t], w).
Proof.
  intros N A. unfold parseInlineContent.
  destruct (String.eqb_spec t EmptyString) as [E | _]; [contradiction |].
  unfold bind. cbn [inlineLoop].
  destruct (String.length t =? 0)%nat eqn:L.
  { apply Nat.eqb_eq in L. destruct t; [now elim N | discriminate L]. }
  rewrite earliest_none; [reflexivity |].
  intros p Hp. unfold FindStringIndex.
  rewrite plain_not_searched; [reflexivity | | exact A].
  apply in_or_app. right. now apply in_map.
Qed.

Section ParagraphCase.

Variables (lines : list string) (i : nat).

Let line : string := nth i lines EmptyString.

(** Line [i] reaches the last case of [parseBlocks], the paragraph. *)
Hypothesis in_range : (i <? List.length lines)%nat = true.
Hypothesis not_blank : String.eqb (strings.TrimSpace line) EmptyString = false.
Hypothesis no_metadata : FindStringSubmatch MetadataCommentRe line = None.
Hypothesis no_fence : FindStringSubmatch FenceBlockRe line = None.
Hypothesis no_code : strings.HasPrefix line "```" = false.
Hypothesis no_heading : strings.HasPrefix line "#" = false.
Hypothesis no_rule : isRule line = false.
Hypothesis no_quote : strings.HasPrefix line "> " || String.eqb line ">" = false.
Hypothesis no_table : strings.HasPrefix line "|" && strings.Contains line "|" = false.
Hypothesis no_task : MatchString TaskItemRe line = false.
Hypothesis no_bullet : isBulletItem line = false.
Hypothesis no_ordered : MatchString orderedStartRe line = false.
Hypothesis no_image :
  FindStringSubmatch standaloneImageRe (strings.TrimSpace line) = None.

Lemma blocks_paragraph (fuel : nat) (content : list value)
    (pendingMetadata : list (string * string)) :
  parseBlocksFrom (S fuel) lines i content pendingMetadata
  = (r <- parseParagraph lines i pendingMetadata ;;
     let '(node, endIdx) := r in
     parseBlocksFrom fuel lines endIdx
       (match node with
        | Some n => append content n
        | None => content
        end) []).
Proof.
  cbn [parseBlocksFrom]. fold line.
  now rewrite in_range, not_blank, no_metadata, no_fence, no_code, no_heading,
    no_rule, no_quote, no_table, no_task, no_bullet, no_ordered, no_image.
Qed.

End ParagraphCase.

Lemma word_first (a c : ascii) : wordChar c = true -> wordChar a = false -> a <> c.
Proof. intros W N ->. rewrite W in N. discriminate N. Qed.

Lemma not_searched (rx : Regexp) (s : string) :
  search rx s = None ->
  FindStringSubmatch rx s = None /\ MatchString rx s = false.
Proof. intros H. unfold FindStringSubmatch, MatchString. now rewrite H. Qed.

(** The paragraph that plain text makes *)
Lemma parseParagraph_plain (pre rest : list string) (t : string) (w : World) :
  plainText t = true ->
  (rest = [] \/ exists rest', rest = EmptyString :: rest') ->
  parseParagraph (pre ++ t :: rest) (List.length pre) [] w
  = Some ((Some (plainParagraph t),
           List.length pre + 1 + (match rest with [] => 0 | _ :: _ => 1 end)), w).
Proof.
  intros P R. destruct (plainText_parts _ P) as [S [A E]].
  unfold parseParagraph.
  assert (K : skipn (List.length pre) (pre ++ t :: rest) = t :: rest).
  { rewrite skipn_app, Nat.sub_diag, skipn_all. reflexivity. }
  rewrite K. cbn [paragraphLoop].
  rewrite (TrimSpace_word _ S E).
  destruct (String.eqb_spec t EmptyString) as [Z | _];
    [now apply plainText_not_empty in P |].
  cbn [List.length Nat.eqb negb]. rewrite !andb_false_r.
  assert (L : paragraphLoop rest (List.length pre + 1) (append [] t)
              = ([t], List.length pre + 1 + (match rest with [] => 0 | _ :: _ => 1 end))).
  { destruct R as [-> | [rest' ->]].
    - cbn [paragraphLoop]. now rewrite Nat.add_0_r.
    - cbn [paragraphLoop]. reflexivity. }
  rewrite L. change (strings.Join [t] nl) with t.
  unfold bind. rewrite parseInlineContent_plain by (now apply plainText_not_empty || exact A).
  reflexivity.
Qed.

Lemma plain_line_is_a_paragraph (pre rest : list string) (t : string) (fuel : nat)
    (content : list value) :
  plainText t = true ->
  parseBlocksFrom (S fuel) (pre ++ t :: rest) (List.length pre) content []
  = (r <- parseParagraph (pre ++ t :: rest) (List.length pre) [] ;;
     let '(node, endIdx) := r in
     parseBlocksFrom fuel (pre ++ t :: rest) endIdx
       (match node with
        | Some n => append content n
        | None => content
        end) []).
Proof.
  intros P. destruct (plainText_parts _ P) as [S [A E]].
  assert (N : nth (List.length pre) (pre ++ t :: rest) EmptyString = t)
    by apply nth_middle.
  assert (T : strings.TrimSpace t = t) by now apply TrimSpace_word.
  destruct t as [| c t]; [discriminate S |]. cbn [startsWithWord] in S.
  assert (F : forall a p, wordChar a = false ->
                          strings.HasPrefix (String c t) (String a p) = false).
  { intros a p Wa. apply prefix_first. now apply word_first. }
  assert (Q : forall a p, wordChar a = false ->
                          String.eqb (String c t) (String a p) = false).
  { intros a p Wa. apply String.eqb_neq. intros Z. injection Z as Z _.
    symmetry in Z. revert Z. now apply word_first. }
  apply blocks_paragraph; rewrite ?N; rewrite ?T.
  - apply Nat.ltb_lt. rewrite length_app. simpl. lia.
  - reflexivity.
  - apply not_searched, plain_not_searched; [simpl; tauto | exact A].
  - apply not_searched, plain_not_searched; [simpl; tauto | exact A].
  - now apply F.
  - now apply F.
  - unfold isRule. now rewrite !Q.
  - rewrite F, Q by reflexivity. reflexivity.
  - now rewrite F.
  - apply not_searched, plain_not_searched; [simpl; tauto | exact A].
  - unfold isBulletItem. now rewrite !F.
  - apply not_searched, plain_not_searched; [simpl; tauto | exact A].
  - apply not_searched, plain_not_searched; [simpl; tauto | exact A].
Qed.

Lemma paragraphLines_rest (t : string) (ts : list string) :
  exists rest,
    paragraphLines (t :: ts) = t :: rest
    /\ (rest = [] \/ exists rest', rest = EmptyString :: rest')
    /\ (forall pre,
          (pre ++ t :: rest)%list
          = ((pre ++ t :: match rest with [] => [] | _ :: _ => [EmptyString] end)
             ++ paragraphLines ts)%list)
    /\ (match rest with [] => 0 | _ :: _ => 1 end
        = List.length (match rest with [] => [] | _ :: _ => [EmptyString] end)).
Proof.
  destruct ts as [| t' ts].
  - exists []. split; [reflexivity |]. split; [now left |]. split; [| reflexivity].
    intros pre. now rewrite app_nil_r.
  - exists (EmptyString :: paragraphLines (t' :: ts)).
    split; [reflexivity |]. split; [right; eauto |]. split; [| reflexivity].
    intros pre. rewrite <- app_assoc. reflexivity.
Qed.

Lemma parse_plain_paragraphs (ts : list string) :
  Forall (fun t => plainText t = true) ts ->
  forall (pre : list string) (content : list value) (fuel : nat) (w : World),
    List.length ts < fuel ->
    parseBlocksFrom fuel (pre ++ paragraphLines ts) (List.length pre) content [] w
    = Some ((content ++ map plainParagraph ts)%list, w).
Proof.
  induction 1 as [| t ts P Ps IH]; intros pre content fuel w L.
  - destruct fuel as [| fuel]; [simpl in L; lia |].
    cbn [paragraphLines parseBlocksFrom]. rewrite !app_nil_r, Nat.ltb_irrefl.
    reflexivity.
  - destruct fuel as [| fuel]; [simpl in L; lia |]. simpl in L.
    destruct (paragraphLines_rest t ts) as [rest [E [R [Sh Len]]]].
    rewrite E. rewrite plain_line_is_a_paragraph by exact P.
    unfold bind. rewrite parseParagraph_plain by assumption.
    rewrite Sh, Len.
    replace (List.length pre + 1
             + List.length (match rest with [] => [] | _ :: _ => [EmptyString] end))
      with (List.length
              (pre ++ t :: match rest with [] => [] | _ :: _ => [EmptyString] end)%list)
      by (rewrite length_app; simpl; lia).
    rewrite IH by lia.
    unfold append. rewrite <- app_assoc. reflexivity.
Qed.

(** The renderer writes a text as it is, without escaping, so a paragraph
    whose text is an underscore, a letter and an underscore is rendered as
    that text, read back as the letter in emphasis, and rendered again with
    stars. *)
Lemma render_parse_render_counterexample :
  let d := docOf [paragraphOf [textNode "_a_"]] in
  ToMarkdown time.UTC d = "_a_"
  /\ option_map (fun r => ToMarkdown time.UTC (fst r))
       (FromMarkdown 2 (ToMarkdown time.UTC d) stillWorld)
     = Some "*a*"
  /\ option_map (fun r => ToMarkdown time.UTC (fst r))
       (FromMarkdown 2 (ToMarkdown time.UTC d) stillWorld)
     <> Some (ToMarkdown time.UTC d).
Proof.
  repeat split; try (vm_compute; reflexivity).
  vm_compute. discriminate.
Qed.

(** C1. Rendering, parsing and rendering again does not give the first
    rendering back.  The renderer writes the text of a node as it is, and
    the parser reads it as markup: no call of [EscapeMarkdown] stands
    between them.  A paragraph whose text is [snake_case_name] renders as
    that name; parsed, what stands between the two underscores is emphasis;
    rendered again, it has stars where the underscores were. *)
Theorem render_parse_render_changes_text
    (loc : time.Location) (fuel : nat) (w : World) :
  let d := docOf [paragraphOf [textNode "snake_case_name"]] in
  let d' := docOf [paragraphOf [textNode "snake";
                                markedText "case" [("type", VStr "em")];
                                textNode "name"]] in
  ToMarkdown loc d = "snake_case_name"
  /\ FromMarkdown (S (S fuel)) (ToMarkdown loc d) w = Some (d', w)
  /\ ToMarkdown loc d' = "snake*case*name"
  /\ option_map (fun r => ToMarkdown loc (fst r))
       (FromMarkdown (S (S fuel)) (ToMarkdown loc d) w)
     <> Some (ToMarkdown loc d)
  /\ EscapeMarkdown "snake_case_name" = "snake\_case\_name".
Proof.
  repeat split; try (vm_compute; reflexivity).
  vm_compute. discriminate.
Qed.

(** X4. For a document of paragraphs of plain text (letters, digits and
    spaces, a letter or digit at both ends) the
    rendering is the texts with an empty line between them, parsing it gives
    the document back, and so rendering the parsed document gives the same
    text.  Enough fuel is one unit for each paragraph and two more. *)
Theorem render_parse_render_plain_paragraphs
    (loc : time.Location) (ts : list string) (fuel : nat) (w : World) :
  Forall (fun t => plainText t = true) ts ->
  List.length ts + 1 < fuel ->
  ToMarkdown loc (plainDocument ts) = strings.Join ts blankLine
  /\ FromMarkdown fuel (ToMarkdown loc (plainDocument ts)) w
     = Some (plainDocument ts, w)
  /\ option_map (fun r => ToMarkdown loc (fst r))
       (FromMarkdown fuel (ToMarkdown loc (plainDocument ts)) w)
     = Some (ToMarkdown loc (plainDocument ts)).
Proof.
  intros P L.
  assert (R : ToMarkdown loc (plainDocument ts) = strings.Join ts blankLine).
  { rewrite ToMarkdown_plain by exact P. now apply NormalizeWhitespace_plain. }
  assert (F : FromMarkdown fuel (strings.Join ts blankLine) w
              = Some (plainDocument ts, w)).
  { unfold FromMarkdown, parseMarkdownDocument, parseBlocks, bind.
    destruct ts as [| t ts].
    - destruct fuel as [| [| fuel]]; [simpl in L; lia | simpl in L; lia | reflexivity].
    - rewrite Split_paragraphs by (discriminate || exact P).
      rewrite (parse_plain_paragraphs P [] []) by lia.
      reflexivity. }
  split; [exact R |]. rewrite R. split; [exact F |].
  rewrite F. cbn [option_map fst]. now rewrite R.
Qed.

Lemma render_parse_render_plain_paragraphs_witness :
  Forall (fun t => plainText t = true) ["Release notes"; "Version 2 is out"]
  /\ FromMarkdown 4
       (ToMarkdown time.UTC (plainDocument ["Release notes"; "Version 2 is out"]))
       stillWorld
     = Some (plainDocument ["Release notes"; "Version 2 is out"], stillWorld).
Proof.
  assert (P : Forall (fun t => plainText t = true) ["Release notes"; "Version 2 is out"])
    by (repeat constructor).
  assert (L : List.length ["Release notes"; "Version 2 is out"] + 1 < 4) by (simpl; lia).
  split; [exact P |].
  exact (proj1 (proj2 (render_parse_render_plain_paragraphs time.UTC stillWorld P L))).
Defined.

(** * Further properties *)

(** ** Escapes *)

Lemma escaped_spec (c : ascii) :
  strings.mem c escaped = Ascii.eqb c "`" || strings.mem c unescaped.
Proof.
  destruct c as [[] [] [] [] [] [] [] []]; vm_compute; reflexivity.
Qed.

Lemma backslash_unescaped (c : ascii) :
  strings.mem c unescaped = false -> Ascii.eqb c "\" = false.
Proof.
  destruct c as [[] [] [] [] [] [] [] []]; vm_compute; congruence.
Qed.

Lemma backtick_unescaped (c : ascii) :
  Ascii.eqb c "`" = true -> strings.mem c unescaped = false.
Proof.
  destruct c as [[] [] [] [] [] [] [] []]; vm_compute; congruence.
Qed.

Lemma Unescape_plain (c : ascii) (text : string) :
  Ascii.eqb c "\" = false ->
  UnescapeMarkdown (String c text) = String c (UnescapeMarkdown text).
Proof.
  intros H. destruct text as [| next text]; [reflexivity |].
  cbn [UnescapeMarkdown]. rewrite H. reflexivity.
Qed.

Lemma Unescape_Escape (text : string) :
  UnescapeMarkdown (EscapeMarkdown text) = strings.ReplaceAll text "`" "\`".
Proof.
  induction text as [| c text IH]; [reflexivity |].
  cbn [EscapeMarkdown strings.ReplaceAll]. rewrite escaped_spec.
  destruct (Ascii.eqb c "`") eqn:B.
  - cbn [orb].
    change (UnescapeMarkdown (String "\" (String c (EscapeMarkdown text))))
      with (if Ascii.eqb "\" "\" && strings.mem c unescaped
            then String c (UnescapeMarkdown (EscapeMarkdown text))
            else String "\" (UnescapeMarkdown (String c (EscapeMarkdown text)))).
    rewrite (backtick_unescaped _ B), andb_false_r.
    apply Ascii.eqb_eq in B. subst c.
    rewrite Unescape_plain by reflexivity. rewrite IH. reflexivity.
  - cbn [orb]. destruct (strings.mem c unescaped) eqn:U.
    + change (UnescapeMarkdown (String "\" (String c (EscapeMarkdown text))))
        with (if Ascii.eqb "\" "\" && strings.mem c unescaped
              then String c (UnescapeMarkdown (EscapeMarkdown text))
              else String "\" (UnescapeMarkdown (String c (EscapeMarkdown text)))).
      rewrite U. cbn. now rewrite IH.
    + rewrite Unescape_plain by now apply backslash_unescaped. now rewrite IH.
Qed.

Lemma ReplaceAll_length (text : string) :
  String.length text <= String.length (strings.ReplaceAll text "`" "\`")
  /\ (strings.mem "`" text = true ->
      String.length text < String.length (strings.ReplaceAll text "`" "\`")).
Proof.
  induction text as [| c text [IH1 IH2]]; [split; [simpl; lia | discriminate] |].
  cbn [strings.ReplaceAll]. unfold strings.mem in *. cbn [list_ascii_of_string existsb].
  rewrite (Ascii.eqb_sym "`" c).
  destruct (Ascii.eqb c "`"); cbn [orb]; simpl String.length; split.
  all: try lia.
  intros H. specialize (IH2 H). lia.
Qed.

Lemma ReplaceAll_absent (text : string) :
  strings.mem "`" text = false -> strings.ReplaceAll text "`" "\`" = text.
Proof.
  induction text as [| c text IH]; [reflexivity |].
  unfold strings.mem in *. cbn [list_ascii_of_string existsb strings.ReplaceAll].
  rewrite (Ascii.eqb_sym "`" c).
  destruct (Ascii.eqb c "`"); cbn [orb]; [discriminate |].
  intros H. now rewrite IH.
Qed.

(** X1. Escaping and then unescaping gives the text back exactly when it
    holds no backtick: [EscapeMarkdown] puts a backslash before a backtick,
    and [UnescapeMarkdown] does not take it away.  In general the result is
    the text with a backslash before each backtick. *)
Theorem escape_unescape_round_trip (text : string) :
  UnescapeMarkdown (EscapeMarkdown text) = strings.ReplaceAll text "`" "\`"
  /\ (UnescapeMarkdown (EscapeMarkdown text) = text <-> strings.mem "`" text = false).
Proof.
  split; [apply Unescape_Escape |]. rewrite Unescape_Escape. split.
  - intros E. destruct (strings.mem "`" text) eqn:M; [| reflexivity].
    pose proof (proj2 (ReplaceAll_length text) M) as L. rewrite E in L. lia.
  - apply ReplaceAll_absent.
Qed.

(** ** Indentation *)

Definition startsBlank (s : string) : bool :=
  match s with
  | String c _ => Ascii.eqb c " "%char || Ascii.eqb c TAB
  | EmptyString => false
  end.

Lemma leading_spaces_indent (n : nat) (rest : string) :
  startsBlank rest = false ->
  leading_spaces (strings.Repeat " " n ++ rest) = n.
Proof.
  intros H. induction n as [| n IH].
  - destruct rest as [| c rest]; [reflexivity |].
    simpl in *. apply orb_false_iff in H as [H1 H2]. now rewrite H1, H2.
  - simpl. now rewrite IH.
Qed.

Lemma trimIndentFrom_spaces (toRemove : Z) (n : nat) (rest : string) :
  startsBlank rest = false ->
  forall removed : Z,
    (0 <= removed <= toRemove)%Z ->
    trimIndentFrom toRemove removed (strings.Repeat " " n ++ rest)
    = strings.Repeat " " (n - Z.to_nat (toRemove - removed)) ++ rest.
Proof.
  intros H. induction n as [| n IH]; intros removed R.
  - destruct rest as [| c rest]; [reflexivity |].
    simpl in *. apply orb_false_iff in H as [H1 H2]. rewrite H1, H2.
    now destruct (toRemove <=? removed)%Z.
  - change (strings.Repeat " " (S n) ++ rest)
      with (String " " (strings.Repeat " " n ++ rest)).
    cbn [trimIndentFrom].
    destruct (Z.leb_spec toRemove removed) as [L | L].
    + replace (Z.to_nat (toRemove - removed)) with 0 by lia.
      reflexivity.
    + change (Ascii.eqb " " " ") with true. cbn iota.
      rewrite IH by lia.
      replace (S n - Z.to_nat (toRemove - removed))
        with (n - Z.to_nat (toRemove - (removed + 1))) by lia.
      reflexivity.
Qed.

(** X2. On a line indented by [n] spaces, [GetIndentLevel] counts two spaces
    to a level, and [TrimIndent] takes away two spaces for each level asked
    for, as many as there are, and nothing of what follows them; the level
    of what is left is the level of the line less the levels taken. *)
Theorem TrimIndent_spaces (n levels : nat) (rest : string) :
  startsBlank rest = false ->
  (Z.of_nat levels * 2 <= fmt.max_int64)%Z ->
  let line := strings.Repeat " " n ++ rest in
  GetIndentLevel line = n / 2
  /\ TrimIndent line (Z.of_nat levels) = strings.Repeat " " (n - 2 * levels) ++ rest
  /\ GetIndentLevel (TrimIndent line (Z.of_nat levels)) = GetIndentLevel line - levels.
Proof.
  intros H B line.
  assert (G : GetIndentLevel line = n / 2).
  { unfold GetIndentLevel, line. now rewrite leading_spaces_indent. }
  assert (W : fmt.wrap64 (Z.of_nat levels * 2) = (Z.of_nat levels * 2)%Z).
  { unfold fmt.wrap64, fmt.min_int64, fmt.max_int64 in *.
    rewrite Z.mod_small by lia. lia. }
  assert (T : TrimIndent line (Z.of_nat levels)
              = strings.Repeat " " (n - 2 * levels) ++ rest).
  { unfold TrimIndent, line. rewrite W, trimIndentFrom_spaces by (assumption || lia).
    do 2 f_equal. lia. }
  split; [exact G |]. split; [exact T |].
  rewrite T, G. unfold GetIndentLevel. rewrite leading_spaces_indent by assumption.
  clear. destruct (Nat.le_gt_cases (2 * levels) n) as [L | L].
  - replace n with ((n - 2 * levels) + levels * 2) at 2 by lia.
    rewrite Nat.div_add by lia. lia.
  - replace (n - 2 * levels) with 0 by lia.
    assert (n / 2 <= levels).
    { apply Nat.Div0.div_le_upper_bound. lia. }
    change (0 / 2) with 0. lia.
Qed.

Lemma TrimIndent_spaces_witness :
  TrimIndent ("      item") 2 = "  item"
  /\ GetIndentLevel (TrimIndent ("      item") 2) = 1.
Proof.
  assert (H : startsBlank "item" = false) by reflexivity.
  assert (B : (Z.of_nat 2 * 2 <= fmt.max_int64)%Z) by (vm_compute; discriminate).
  pose proof (@TrimIndent_spaces 6 2 "item" H B) as [_ [T G]].
  split; [exact T | exact G].
Defined.

(** ** Timestamps that pass through *)

Lemma digits_start (s : string) :
  fmt.all is_digit s = true -> s <> EmptyString -> startsWithWord s = true.
Proof.
  destruct s as [| c s]; [congruence |]. intros H _.
  rewrite all_cons in H. apply andb_true_iff in H as [H _].
  unfold startsWithWord, wordChar. now rewrite H.
Qed.

Lemma digits_end (s : string) :
  fmt.all is_digit s = true -> s <> EmptyString -> endsWithWord s = true.
Proof.
  induction s as [| c s IH]; [congruence |]. intros H _.
  rewrite all_cons in H. apply andb_true_iff in H as [H1 H2].
  destruct s as [| c' s'].
  - simpl. unfold wordChar. now rewrite H1.
  - change (endsWithWord (String c (String c' s'))) with (endsWithWord (String c' s')).
    apply IH; [assumption | discriminate].
Qed.

(** X3. A string of ten or more digits is taken by [ParseTimestamp] for a
    timestamp in milliseconds and returned as it is. *)
Theorem ParseTimestamp_digits (input : string) :
  IsAllDigits input = true -> 10 <= String.length input ->
  ParseTimestamp input = input.
Proof.
  intros D L. unfold IsAllDigits in D. apply andb_true_iff in D as [D N].
  assert (E : input <> EmptyString) by (intros ->; discriminate N).
  unfold ParseTimestamp.
  rewrite (TrimSpace_word _ (digits_start D E) (digits_end D E)).
  unfold IsAllDigits. rewrite D, N.
  apply Nat.leb_le in L. now rewrite L.
Qed.

Lemma ParseTimestamp_digits_witness :
  ParseTimestamp "1704067200000" = "1704067200000".
Proof.
  apply ParseTimestamp_digits; [reflexivity | simpl; lia].
Defined.

(** ** The inline parser *)

(** X5. The inline parser returns on every text: each turn of its loop takes
    a match that is not empty, or the rest of the text.  It returns no node
    for the empty text only. *)
Theorem parseInlineContent_total (text : string) (w : World) :
  exists (nodes : list value) (w' : World),
    parseInlineContent text w = Some (nodes, w')
    /\ (nodes = [] <-> text = EmptyString).
Proof.
  unfold parseInlineContent.
  destruct (String.eqb_spec text EmptyString) as [-> | N].
  - exists [], w. split; [reflexivity | tauto].
  - destruct (@inlineLoop_returns (S (String.length text)) text []
                (Nat.lt_succ_diag_r _) w) as [result [w' E]].
    unfold bind. rewrite E.
    destruct result as [| node result].
    + exists [textNode text], w'. split; [reflexivity |].
      split; [discriminate | contradiction].
    + exists (node :: result), w'. split; [reflexivity |].
      split; [discriminate | contradiction].
Qed.

(** ** The level of a rendered heading *)

(** The level [renderHeading] reads of a node: a [float64] in the attributes,
    1 without one *)
Definition levelRead (node : Node) : Z :=
  match get_map node "attrs" with
  | Some attrs =>
      match gomap.get attrs "level" with
      | Some (VFloat l) => fmt.to_int l
      | _ => 1%Z
      end
  | None => 1%Z
  end.

(** X6. A heading is rendered with one to six hashes, whatever level its
    node carries: the level read is clamped into that range.  The hashes, a
    space and the content are the last line of the rendering; a metadata
    comment may stand on a line before it.  A level that is a whole number
    from 1 to 6 is rendered as it is; a level that is not a [float64], as
    the [int] that [parseHeading] stores, is read as 1. *)
Theorem renderHeading_clamps
    (self : value -> entry -> nat -> string) (node : Node) :
  exists (n : nat) (comment : string),
    1 <= n <= 6
    /\ Z.of_nat n = Z.max 1 (Z.min 6 (levelRead node))
    /\ renderHeading self node
       = comment ++ strings.Repeat "#" n ++ " " ++ renderContent self node
    /\ (comment = EmptyString
        \/ exists attrStr, comment = "<!-- adf:heading" ++ attrStr ++ " -->" ++ nl)
    /\ (forall (attrs : Node) (k : Z),
          get_map node "attrs" = Some attrs ->
          gomap.get attrs "level" = Some (VFloat (FDec k 0)) ->
          (1 <= k <= 6)%Z -> Z.of_nat n = k)
    /\ (forall (attrs : Node) (k : Z),
          get_map node "attrs" = Some attrs ->
          gomap.get attrs "level" = Some (VInt k) -> n = 1).
Proof.
  set (level := levelRead node).
  set (clamped := if (level <? 1)%Z then 1%Z else if (6 <? level)%Z then 6%Z else level).
  assert (C : (clamped = Z.max 1 (Z.min 6 level) /\ 1 <= clamped <= 6)%Z).
  { unfold clamped. destruct (Z.ltb_spec level 1); [lia |].
    destruct (Z.ltb_spec 6 level); lia. }
  destruct C as [C B].
  assert (R : exists comment,
             renderHeading self node
             = comment ++ strings.Repeat "#" (Z.to_nat clamped) ++ " "
               ++ renderContent self node
             /\ (comment = EmptyString
                 \/ exists attrStr,
                      comment = "<!-- adf:heading" ++ attrStr ++ " -->" ++ nl)).
  { unfold renderHeading. fold (levelRead node). fold level. fold clamped.
    destruct (get_map node "attrs") as [attrs |]; [| exists EmptyString; now split; [| left]].
    destruct (filter _ attrs) as [| a custom]; [exists EmptyString; now split; [| left] |].
    destruct (negb (String.eqb (FormatAttrsForFence (a :: custom) ["id"; "textAlign"])
                       EmptyString)).
    - exists ("<!-- adf:heading" ++ FormatAttrsForFence (a :: custom) ["id"; "textAlign"]
              ++ " -->" ++ nl).
      split; [| right; now eexists].
      repeat (rewrite append_assoc; simpl). reflexivity.
    - exists EmptyString. now split; [| left]. }
  destruct R as [comment [R Cm]].
  exists (Z.to_nat clamped), comment.
  split; [lia |]. split; [lia |]. split; [exact R |]. split; [exact Cm |]. split.
  - intros attrs k A L K. rewrite Z2Nat.id by lia. rewrite C.
    unfold level, levelRead. rewrite A, L. cbn [fmt.to_int].
    change (0 <=? 0)%Z with true. cbv iota. rewrite Z.pow_0_r, Z.mul_1_r.
    unfold fmt.min_int64, fmt.max_int64.
    destruct (Z.leb_spec (-9223372036854775808) k); [| lia].
    destruct (Z.leb_spec k 9223372036854775807); [| lia].
    cbn [andb]. lia.
  - intros attrs k A L.
    assert (E : level = 1%Z) by (unfold level, levelRead; now rewrite A, L).
    rewrite C, E. reflexivity.
Qed.

(** ** Status attributes *)

Definition without (sep : ascii) (s : string) : bool :=
  fmt.all (fun k => negb (Ascii.eqb k sep)) s.

Lemma all_append (p : ascii -> bool) (a b : string) :
  fmt.all p (a ++ b) = fmt.all p a && fmt.all p b.
Proof.
  induction a as [| c a IH]; [reflexivity |].
  change (String c a ++ b) with (String c (a ++ b)).
  rewrite !all_cons, IH. now rewrite andb_assoc.
Qed.

Lemma SplitN_first (sep : ascii) (field rest : string) :
  without sep field = true ->
  strings.SplitN (field ++ String sep rest) sep 2 = [field; rest].
Proof.
  unfold without. induction field as [| c field IH]; intros H.
  - cbn [String.append strings.SplitN]. rewrite Ascii.eqb_refl. now destruct rest.
  - rewrite all_cons in H. apply andb_true_iff in H as [Hc H]. specialize (IH H).
    change (String c field ++ String sep rest) with (String c (field ++ String sep rest)).
    cbn [strings.SplitN]. apply negb_true_iff in Hc. rewrite Hc.
    fold strings.SplitN.
    change (match 1 with 0 => _ | S _ => _ end)
      with (strings.SplitN (field ++ String sep rest) sep 2).
    now rewrite IH.
Qed.

Lemma SplitN_whole (sep : ascii) (s : string) :
  without sep s = true -> strings.SplitN s sep 2 = [s].
Proof.
  unfold without. induction s as [| c s IH]; intros H; [reflexivity |].
  rewrite all_cons in H. apply andb_true_iff in H as [Hc H].
  cbn [strings.SplitN]. apply negb_true_iff in Hc. rewrite Hc.
  fold strings.SplitN. now rewrite (IH H).
Qed.

(** X7. [SplitStatusAttrs] reads one pair [key=value] as the key and the
    value with the white space around them removed; the value is all that
    follows the first [=], and may hold more of them.  A string with no
    [=] and no comma gives no attribute. *)
Theorem SplitStatusAttrs_pair (key value lone : string) :
  without "=" key = true -> without "," key = true -> without "," value = true ->
  without "=" lone = true -> without "," lone = true ->
  SplitStatusAttrs (key ++ "=" ++ value)
  = [(strings.TrimSpace key, strings.TrimSpace value)]
  /\ sget (SplitStatusAttrs (key ++ "=" ++ value)) (strings.TrimSpace key)
     = strings.TrimSpace value
  /\ SplitStatusAttrs lone = [].
Proof.
  intros K1 K2 V L1 L2.
  assert (A : SplitStatusAttrs (key ++ "=" ++ value)
              = [(strings.TrimSpace key, strings.TrimSpace value)]).
  { unfold SplitStatusAttrs.
    destruct (String.eqb_spec (key ++ "=" ++ value) EmptyString) as [E | _].
    - destruct key; discriminate E.
    - rewrite Split_line.
      + cbn [fold_left]. change ("=" ++ value) with (String "=" value).
        now rewrite SplitN_first.
      + fold (without "," (key ++ "=" ++ value)). unfold without in *.
        rewrite all_append, K2. change ("=" ++ value) with (String "=" value).
        now rewrite all_cons, V. }
  split; [exact A |]. split.
  - rewrite A. unfold sget. cbn [gomap.get]. now rewrite String.eqb_refl.
  - unfold SplitStatusAttrs. destruct (String.eqb lone EmptyString); [reflexivity |].
    rewrite (Split_line _ _ L2). cbn [fold_left]. now rewrite SplitN_whole.
Qed.

Lemma SplitStatusAttrs_pair_witness :
  SplitStatusAttrs " color = a=b " = [("color", "a=b")]
  /\ SplitStatusAttrs "color" = [].
Proof.
  assert (K1 : without "=" " color " = true) by reflexivity.
  assert (K2 : without "," " color " = true) by reflexivity.
  assert (V : without "," " a=b " = true) by reflexivity.
  assert (L1 : without "=" "color" = true) by reflexivity.
  assert (L2 : without "," "color" = true) by reflexivity.
  pose proof (@SplitStatusAttrs_pair " color " " a=b " "color" K1 K2 V L1 L2) as [A [_ B]].
  split; [exact A | exact B].
Defined.

(** ** Code blocks *)

Definition codeBlockOf (lang code : string) : value :=
  VMap [("type", VStr "codeBlock"); ("attrs", VMap [("language", VStr lang)]);
        ("content", VList [textNode code])].

Lemma Split_app (a b : string) (c : ascii) :
  strings.Split (a ++ String c b) c = (strings.Split a c ++ strings.Split b c)%list.
Proof.
  induction a as [| k a IH].
  - cbn. now rewrite Ascii.eqb_refl.
  - change (String k a ++ String c b) with (String k (a ++ String c b)).
    cbn [strings.Split]. rewrite IH.
    destruct (Ascii.eqb k c); [reflexivity |].
    pose proof (Split_nonempty a c) as N.
    destruct (strings.Split a c) as [| h t]; [now elim N | reflexivity].
Qed.

Lemma linesUntil_app (stop : string -> bool) (body : list string) (close : string)
    (rest : list string) :
  Forall (fun l => stop l = false) body -> stop close = true ->
  linesUntil stop (body ++ close :: rest) = body.
Proof.
  intros F C. induction F as [| l body Hl F IH]; simpl.
  - now rewrite C.
  - now rewrite Hl, IH.
Qed.

Lemma nth_middle (pre rest : list string) (x : string) :
  nth (List.length pre) (pre ++ x :: rest) EmptyString = x.
Proof. induction pre; [reflexivity | assumption]. Qed.

Lemma skipn_middle (pre rest : list string) (x : string) :
  skipn (List.length pre + 1) (pre ++ x :: rest) = rest.
Proof. induction pre; [reflexivity | assumption]. Qed.

(** X8. A code block comes back from its rendering.  A code block with a
    language and one text is rendered as an opening fence with the
    language, the text, and a closing fence; wherever these lines stand
    among the lines of a document, [parseCodeBlock] at the opening fence
    gives the code block back and the index after the closing fence.  The
    language has no line feed and no white space around it, and no line of
    the code starts with a fence. *)
Theorem code_block_round_trip
    (loc : time.Location) (lang code : string) (pre rest : list string) :
  without LF lang = true -> strings.TrimSpace lang = lang ->
  Forall (fun l => strings.HasPrefix l "```" = false) (strings.Split code LF) ->
  let rendered := renderTree loc (codeBlockOf lang code) ENode 0 in
  rendered = "```" ++ lang ++ nl ++ code ++ nl ++ "```"
  /\ parseCodeBlock (pre ++ strings.Split rendered LF ++ rest)%list (List.length pre)
     = (codeBlockOf lang code,
        List.length pre + List.length (strings.Split rendered LF)).
Proof.
  intros L T F rendered.
  assert (R : rendered = "```" ++ lang ++ nl ++ code ++ nl ++ "```").
  { unfold rendered. cbn [renderTree codeBlockOf]. unfold renderADFNode.
    cbn [get_string gomap.get String.eqb Ascii.eqb Bool.eqb].
    unfold renderCodeBlock, renderContent.
    cbn [get_map gomap.get String.eqb Ascii.eqb Bool.eqb get_string].
    rewrite with_content_get.
    cbn [gomap.get String.eqb Ascii.eqb Bool.eqb].
    unfold range, textNode. cbn [range_from renderTree]. unfold renderADFNode.
    cbn [get_string gomap.get String.eqb Ascii.eqb Bool.eqb].
    unfold renderText. cbn [get_string gomap.get String.eqb Ascii.eqb Bool.eqb].
    destruct (String.eqb_spec code EmptyString) as [-> | _]; reflexivity. }
  split; [exact R |]. rewrite R.
  assert (S1 : strings.Split ("```" ++ lang ++ nl ++ code ++ nl ++ "```") LF
               = ((("```" ++ lang)%string) :: strings.Split code LF ++ ["```"])%list).
  { change ("```" ++ lang ++ nl ++ code ++ nl ++ "```")
      with (("```" ++ lang) ++ String LF (code ++ String LF "```")).
    rewrite Split_append.
    - now rewrite Split_app.
    - unfold without in L. rewrite all_append. now rewrite L. }
  rewrite S1. unfold parseCodeBlock. rewrite <- app_comm_cons.
  rewrite nth_middle, skipn_middle.
  unfold strings.TrimPrefix, strings.HasPrefix. rewrite prefix_append.
  change (strings.drop (String.length "```") ("```" ++ lang)) with lang.
  rewrite T. rewrite <- app_assoc. cbn [app].
  rewrite linesUntil_app by (assumption || reflexivity).
  change nl with (String LF EmptyString). rewrite (Join_Split code LF).
  unfold codeBlockOf.
  f_equal. cbn [List.length]. rewrite length_app. cbn [List.length]. lia.
Qed.

Lemma code_block_round_trip_witness :
  parseCodeBlock ["Intro"; "```go"; "x := 1"; ""; "y := 2"; "```"; "Outro"] 1
  = (codeBlockOf "go" ("x := 1" ++ nl ++ nl ++ "y := 2"), 6).
Proof.
  assert (L : without LF "go" = true) by reflexivity.
  assert (T : strings.TrimSpace "go" = "go") by reflexivity.
  assert (F : Forall (fun l => strings.HasPrefix l "```" = false)
                (strings.Split ("x := 1" ++ nl ++ nl ++ "y := 2") LF)).
  { repeat constructor. }
  exact (proj2 (@code_block_round_trip time.UTC "go" ("x := 1" ++ nl ++ nl ++ "y := 2")
                  ["Intro"] ["Outro"] L T F)).
Defined.

(** ** What [TrimSpace] leaves *)

Lemma find_absent (A : Type) (f : A -> bool) (l : list A) :
  (forall x, In x l -> f x = false) -> find f l = None.
Proof.
  induction l as [| a l IH]; intros H; [reflexivity |].
  simpl. rewrite (H a (or_introl eq_refl)). apply IH. intros x I. apply H. now right.
Qed.

Lemma list_prefix_app (e l x : list ascii) :
  strings.list_prefix e l = true -> strings.list_prefix e (l ++ x) = true.
Proof.
  revert l. induction e as [| a e IH]; intros l H; [reflexivity |].
  destruct l as [| b l]; [discriminate |].
  simpl in *. apply andb_true_iff in H as [H1 H2]. now rewrite H1, IH.
Qed.

Lemma leading_space_prefix (encs : list (list ascii)) (l x : list ascii) :
  strings.leading_space encs (l ++ x) = None -> strings.leading_space encs l = None.
Proof.
  unfold strings.leading_space. intros H.
  destruct (find _ encs) as [e |] eqn:F in H; [discriminate |].
  rewrite find_absent; [reflexivity |].
  intros e I. destruct (strings.list_prefix e l) eqn:P; [| reflexivity].
  pose proof (find_none _ _ F e I) as N. cbv beta in N.
  now rewrite (list_prefix_app _ _ x P) in N.
Qed.

Definition solid (encs : list (list ascii)) : Prop := Forall (fun e => e <> []) encs.

Lemma leading_space_length (encs : list (list ascii)) (l : list ascii) (k : nat) :
  solid encs -> strings.leading_space encs l = Some k ->
  0 < k <= List.length l.
Proof.
  unfold strings.leading_space. intros S H.
  destruct (find _ encs) as [e |] eqn:F; [| discriminate].
  injection H as <-. apply find_some in F as [I P].
  assert (N : e <> []) by (eapply Forall_forall in S; eassumption).
  split; [destruct e; [congruence | simpl; lia] |].
  clear - P. revert l P. induction e as [| a e IH]; intros l P; [simpl; lia |].
  destruct l as [| b l]; [discriminate |].
  simpl in P. apply andb_true_iff in P as [_ P]. simpl. apply IH in P. lia.
Qed.

Lemma strip_done (encs : list (list ascii)) (fuel : nat) :
  solid encs ->
  forall l, List.length l <= fuel ->
    strings.leading_space encs (strings.strip encs fuel l) = None.
Proof.
  intros S. induction fuel as [| fuel IH]; intros l L.
  - destruct l; [| simpl in L; lia]. cbn [strings.strip].
    destruct (strings.leading_space encs []) as [k |] eqn:E; [| reflexivity].
    apply (leading_space_length _ S) in E. simpl in E. lia.
  - cbn [strings.strip]. destruct (strings.leading_space encs l) as [k |] eqn:E.
    + apply IH. apply (leading_space_length _ S) in E.
      rewrite length_skipn. lia.
    + exact E.
Qed.

Lemma strip_none (encs : list (list ascii)) (fuel : nat) (l : list ascii) :
  strings.leading_space encs l = None -> strings.strip encs fuel l = l.
Proof.
  intros H. destruct fuel; [reflexivity |]. cbn [strings.strip]. now rewrite H.
Qed.

Lemma strip_skipn (encs : list (list ascii)) (fuel : nat) :
  forall l, exists k, strings.strip encs fuel l = skipn k l.
Proof.
  induction fuel as [| fuel IH]; intros l; [now exists 0 |].
  cbn [strings.strip]. destruct (strings.leading_space encs l) as [k |]; [| now exists 0].
  destruct (IH (skipn k l)) as [k' E]. exists (k + k'). rewrite E.
  now rewrite skipn_skipn, Nat.add_comm.
Qed.

Lemma solid_spaces :
  solid strings.space_encodings /\ solid (map (@rev ascii) strings.space_encodings).
Proof.
  split; unfold solid; vm_compute; repeat constructor; discriminate.
Qed.

Lemma TrimSpace_ends (s : string) :
  strings.leading_space strings.space_encodings
    (list_ascii_of_string (strings.TrimSpace s)) = None
  /\ strings.leading_space (map (@rev ascii) strings.space_encodings)
       (rev (list_ascii_of_string (strings.TrimSpace s))) = None.
Proof.
  unfold strings.TrimSpace.
  set (E := strings.space_encodings). set (E' := map (@rev ascii) E).
  set (l := list_ascii_of_string s).
  set (l1 := strings.strip E (List.length l) l).
  set (r1 := strings.strip E' (List.length (rev l1)) (rev l1)).
  rewrite list_ascii_of_string_of_list_ascii.
  destruct solid_spaces as [S S']. split.
  - destruct (strip_skipn E' (List.length (rev l1)) (rev l1)) as [k K].
    fold r1 in K. apply leading_space_prefix with (x := rev (firstn k (rev l1))).
    rewrite K, <- rev_app_distr, firstn_skipn, rev_involutive.
    apply strip_done; [exact S | lia].
  - rewrite rev_involutive. apply strip_done; [exact S' | lia].
Qed.

(** Trimming white space twice is trimming it once. *)
Lemma TrimSpace_TrimSpace (s : string) :
  strings.TrimSpace (strings.TrimSpace s) = strings.TrimSpace s.
Proof.
  destruct (TrimSpace_ends s) as [A B].
  unfold strings.TrimSpace at 1.
  rewrite (strip_none _ _ _ A), (strip_none _ _ _ B), rev_involutive.
  apply string_of_list_ascii_of_string.
Qed.

(** The six bytes of ASCII white space *)
Definition asciiSpace (c : ascii) : bool :=
  existsb (Nat.eqb (nat_of_ascii c)) [9; 10; 11; 12; 13; 32].

Lemma asciiSpace_leads (c : ascii) (l : list ascii) :
  asciiSpace c = true ->
  strings.leading_space strings.space_encodings (c :: l) <> None
  /\ strings.leading_space (map (@rev ascii) strings.space_encodings) (c :: l) <> None.
Proof.
  destruct c as [[] [] [] [] [] [] [] []]; intros H;
    try (vm_compute in H; discriminate H); split; vm_compute; discriminate.
Qed.

(** X9. What [NormalizeWhitespace] returns has no white space at either
    end: trimming it changes nothing, its first byte is no ASCII white
    space, and neither is its last. *)
Theorem NormalizeWhitespace_trimmed (text : string) :
  strings.TrimSpace (NormalizeWhitespace text) = NormalizeWhitespace text
  /\ (forall c rest, NormalizeWhitespace text = String c rest -> asciiSpace c = false)
  /\ (forall front c,
        NormalizeWhitespace text = front ++ String c EmptyString ->
        asciiSpace c = false).
Proof.
  unfold NormalizeWhitespace.
  set (joined := strings.Join _ nl).
  destruct (TrimSpace_ends joined) as [A B].
  split; [apply TrimSpace_TrimSpace |]. split.
  - intros c rest E. rewrite E in A. cbn [list_ascii_of_string] in A.
    destruct (asciiSpace c) eqn:P; [| reflexivity].
    now destruct (asciiSpace_leads c (list_ascii_of_string rest) P) as [N _].
  - intros front c E. rewrite E in B.
    assert (R : rev (list_ascii_of_string (front ++ String c EmptyString))
                = c :: rev (list_ascii_of_string front)).
    { clear. induction front as [| a front IH]; [reflexivity |].
      change (String a front ++ String c EmptyString)
        with (String a (front ++ String c EmptyString)).
      cbn [list_ascii_of_string rev]. now rewrite IH. }
    rewrite R in B.
    destruct (asciiSpace c) eqn:P; [| reflexivity].
    now destruct (asciiSpace_leads c (rev (list_ascii_of_string front)) P) as [_ N].
Qed.

(** ** Marks the renderer does not know *)

(** The mark types [applyMarks] has a case for *)
Definition knownMark (m : value) : bool :=
  match m with
  | VMap markMap =>
      existsb (String.eqb (get_string markMap "type"))
        ["code"; "link"; "em"; "strong"; "strike"; "underline"; "textColor";
         "backgroundColor"; "subsup"]
  | _ => false
  end.

Lemma scanMark_unknown (f : markFlags) (m : value) :
  knownMark m = false -> scanMark f m = f.
Proof.
  destruct m as [| | | | | |markMap]; try reflexivity.
  unfold knownMark. cbn [existsb]. intros H. destruct f.
  unfold scanMark. cbv zeta.
  repeat (apply orb_false_iff in H as [?E H]).
  repeat match goal with
         | E : String.eqb _ _ = false |- _ => rewrite E; clear E
         end.
  reflexivity.
Qed.

Lemma scan_known (marks : list value) :
  forall f, fold_left scanMark marks f = fold_left scanMark (filter knownMark marks) f.
Proof.
  induction marks as [| m marks IH]; intros f; [reflexivity |].
  cbn [fold_left filter]. destruct (knownMark m) eqn:K.
  - cbn [fold_left]. apply IH.
  - rewrite (scanMark_unknown f m K). apply IH.
Qed.

(** X10. Marks that [applyMarks] has no case for, and marks that are no
    object, change nothing: the text is wrapped as by the marks it knows
    alone, and is left as it is when it knows none of them. *)
Theorem applyMarks_ignores_unknown (text : string) (marks : list value) :
  applyMarks text marks = applyMarks text (filter knownMark marks)
  /\ (forallb (fun m => negb (knownMark m)) marks = true ->
      applyMarks text marks = text
      /\ (text <> EmptyString -> renderText (textWith text marks) = text)).
Proof.
  assert (A : applyMarks text marks = applyMarks text (filter knownMark marks)).
  { unfold applyMarks. now rewrite scan_known. }
  split; [exact A |]. intros U.
  assert (F : filter knownMark marks = []).
  { clear - U. induction marks as [| m marks IH]; [reflexivity |].
    cbn [forallb] in U. apply andb_true_iff in U as [U1 U2].
    cbn [filter]. apply negb_true_iff in U1. rewrite U1. now apply IH. }
  assert (T : applyMarks text marks = text) by (rewrite A, F; reflexivity).
  split; [exact T |]. intros N.
  unfold renderText, textWith, get_string. cbn [gomap.get String.eqb Ascii.eqb Bool.eqb].
  apply String.eqb_neq in N. rewrite N.
  destruct marks as [| m marks]; [reflexivity | exact T].
Qed.

(** ** Blocks that move the cursor forward *)

(** A computation that returns, with a result that satisfies [P] *)
Definition yields (A : Type) (c : M A) (P : A -> Prop) : Prop :=
  forall w, exists a w', c w = Some (a, w') /\ P a.

Lemma yields_ret (A : Type) (a : A) (P : A -> Prop) : P a -> yields (ret a) P.
Proof. intros H w. now exists a, w. Qed.

Lemma yields_bind (A B : Type) (c : M A) (k : A -> M B) (P : B -> Prop) :
  returns c -> (forall a, yields (k a) P) -> yields (bind c k) P.
Proof.
  intros Hc Hk w. unfold bind. destruct (Hc w) as [a [w' E]]. rewrite E. apply Hk.
Qed.

Lemma yields_returns (A : Type) (c : M A) (P : A -> Prop) : yields c P -> returns c.
Proof. intros H w. destruct (H w) as [a [w' [E _]]]. now exists a, w'. Qed.

Lemma skipn_nth (lines : list string) (i : nat) :
  i < List.length lines ->
  skipn i lines = nth i lines EmptyString :: skipn (S i) lines.
Proof.
  revert i. induction lines as [| l lines IH]; intros i L; [simpl in L; lia |].
  destruct i as [| i]; [reflexivity |]. simpl. apply IH. simpl in L. lia.
Qed.

Lemma linesUntil_length (stop : string -> bool) (rest : list string) :
  List.length (linesUntil stop rest) <= List.length rest.
Proof.
  induction rest as [| l rest IH]; [simpl; lia |].
  simpl. destruct (stop l); simpl; lia.
Qed.

Lemma tableRun_length (rest : list string) :
  List.length (tableRun rest) <= List.length rest.
Proof.
  induction rest as [| l rest IH]; [simpl; lia |].
  simpl. destruct (strings.HasPrefix l "|"); simpl; lia.
Qed.

Lemma quoteLines_length (rest : list string) :
  List.length (quoteLines rest) <= List.length rest.
Proof.
  induction rest as [| l rest IH]; [simpl; lia |].
  simpl. destruct (strings.HasPrefix l "> "); [simpl; lia |].
  destruct (String.eqb l ">"); simpl; lia.
Qed.

Lemma fenceBody_length (rest : list string) :
  snd (fenceBody rest) <= List.length rest.
Proof.
  induction rest as [| l rest IH]; [simpl; lia |].
  simpl. destruct (MatchString FenceCloseRe l); [simpl; lia |].
  destruct (fenceBody rest) as [c n]. simpl in *. lia.
Qed.

Lemma paragraphLoop_bounds (rest : list string) :
  forall (i : nat) (paraLines : list string),
    i <= snd (paragraphLoop rest i paraLines) <= i + List.length rest
    /\ (rest <> [] -> paraLines = [] -> i < snd (paragraphLoop rest i paraLines)).
Proof.
  induction rest as [| line rest IH]; intros i paraLines.
  - simpl. split; [lia | congruence].
  - cbn [paragraphLoop].
    destruct (String.eqb (strings.TrimSpace line) EmptyString).
    + cbn [snd List.length]. split; [lia | intros _ _; lia].
    + destruct (IH (i + 1) (append paraLines line)) as [B _].
      split.
      * destruct (startsBlock line && _); [cbn [snd List.length]; lia |].
        destruct (MatchString orderedStartRe line && _); [cbn [snd List.length]; lia |].
        destruct (MatchString TaskItemRe line && _); cbn [snd List.length]; lia.
      * intros _ ->. cbn [List.length Nat.eqb negb]. rewrite !andb_false_r. lia.
Qed.

Lemma taskLoop_advance (rest : list string) :
  forall (i : nat) (items : list value),
    yields (taskLoop rest i items)
      (fun r => i <= snd r <= i + List.length rest
                /\ (forall line rest', rest = line :: rest' ->
                      MatchString TaskItemRe line = true -> i < snd r)).
Proof.
  induction rest as [| line rest IH]; intros i items.
  - apply yields_ret. cbn [snd List.length]. split; [lia | discriminate].
  - cbn [taskLoop]. unfold MatchString, FindStringSubmatch.
    destruct (search TaskItemRe line) as [m |] eqn:S; cbn [option_map].
    + apply yields_bind; [apply returns_localID |]. intros id.
      apply yields_bind; [apply parseInlineContent_returns |]. intros content.
      intros w. destruct (IH (i + 1) (append items
                  (VMap [("type", VStr "taskItem");
                         ("attrs", VMap [("localId", VStr id);
                                         ("state",
                                          VStr (if String.eqb (sub (submatches TaskItemRe line m) 2) "x"
                                                   || String.eqb (sub (submatches TaskItemRe line m) 2) "X"
                                                then "DONE" else "TODO"))]);
                         ("content", VList content)])) w) as [r [w' [E [B _]]]].
      exists r, w'. split; [exact E |]. cbn [List.length]. split; [lia |]. intros; lia.
    + apply yields_ret. cbn [snd List.length]. split; [lia |].
      intros l r' E M. injection E as <- _. rewrite S in M. discriminate M.
Qed.

Lemma mediaNodes_returns (matches : list (list string)) : returns (mediaNodes matches).
Proof.
  induction matches as [| m matches IH]; [apply returns_ret |].
  cbn [mediaNodes]. apply returns_bind.
  - unfold parseMediaFromImage.
    destruct (if strings.HasPrefix (sub m 2) "jira-media:" then _ else None);
      auto with returns.
  - intros node. apply returns_bind; [exact IH | intros; apply returns_ret].
Qed.

Lemma parseMediaFromImage_returns (alt src : string) : returns (parseMediaFromImage alt src).
Proof.
  unfold parseMediaFromImage.
  destruct (if strings.HasPrefix src "jira-media:" then _ else None);
    auto with returns.
Qed.

Lemma fence_node_returns (parseBlocks : list string -> M (list value))
    (blockType innerContent : string) (attrs : list (string * string)) :
  (forall ls, returns (parseBlocks ls)) ->
  returns
    (if String.eqb blockType "panel" then parsePanelBlock parseBlocks attrs innerContent
     else if String.eqb blockType "expand" then parseExpandBlock parseBlocks attrs innerContent
     else if String.eqb blockType "mediaSingle" then parseMediaSingleBlock attrs innerContent
     else if String.eqb blockType "mediaGroup" then parseMediaGroupBlock innerContent
     else
       ret (VMap [("type", VStr "codeBlock");
                  ("attrs", VMap [("language", VStr blockType)]);
                  ("content", VList [textNode innerContent])])).
Proof.
  intros R.
  destruct (String.eqb blockType "panel").
  { unfold parsePanelBlock. apply returns_bind; [apply R | intros; apply returns_ret]. }
  destruct (String.eqb blockType "expand").
  { unfold parseExpandBlock. apply returns_bind; [apply R | intros; apply returns_ret]. }
  destruct (String.eqb blockType "mediaSingle").
  { unfold parseMediaSingleBlock. apply returns_bind; [| intros; apply returns_ret].
    destruct (FindStringSubmatch imageRe innerContent);
      [apply parseMediaFromImage_returns | apply returns_ret]. }
  destruct (String.eqb blockType "mediaGroup").
  { unfold parseMediaGroupBlock.
    apply returns_bind; [apply mediaNodes_returns | intros; apply returns_ret]. }
  apply returns_ret.
Qed.


